(** * foliconf: configuration-schema generator

    A shallow embedding of [foliconf/__init__.py] and the properties of its
    type renderer, section registry, schema-tree builder, stub emitter,
    discovery visitor and runtime helpers. *)

From Stdlib Require Import List String Ascii Bool Arith NArith Lia Permutation Sorted.
Import ListNotations.
Local Open Scope string_scope.
Local Open Scope list_scope.

Set Implicit Arguments.
Set Warnings "-register-all".

(** String concatenation, Python's [+] on [str]. *)
Infix "+++" := String.append (right associativity, at level 60).

(* ================================================================== *)
(** * Python built-ins used by the module *)
(* ================================================================== *)

Module Py.

(** [sep.join(l)] *)
Fixpoint join (sep : string) (l : list string) : string :=
  match l with
  | [] => EmptyString
  | [s] => s
  | s :: rest => s +++ sep +++ join sep rest
  end.

(** [s.startswith(p)] *)
Definition startswith (p s : string) : bool := String.prefix p s.

(** [s.split(".")]: cut at every dot; the result is never empty. *)
Fixpoint split_dot (s : string) : list string :=
  match s with
  | EmptyString => [EmptyString]
  | String c rest =>
      if Ascii.eqb c "."%char then EmptyString :: split_dot rest
      else match split_dot rest with
           | h :: t => String c h :: t
           | [] => [String c EmptyString]
           end
  end.

(** ["    " * n] *)
Fixpoint indent (n : nat) : string :=
  match n with
  | O => EmptyString
  | S k => "    " +++ indent k
  end.

Definition nl : string := String (ascii_of_nat 10) EmptyString.

(** Python compares strings by code point, lexicographically. *)
Definition str_le (a b : string) : bool := String.leb a b.

(** [sorted(l, key=key)]: Python's sort is stable, so its result is the one
    stable arrangement of [l] in ascending key order.  Insertion from the
    right, placing an element before the first one whose key is not smaller,
    computes that arrangement. *)
Section Sorted.
Variable A : Type.
Variable key : A -> string.

Fixpoint insert_sorted (x : A) (l : list A) : list A :=
  match l with
  | [] => [x]
  | y :: l' =>
      if str_le (key x) (key y) then x :: y :: l'
      else y :: insert_sorted x l'
  end.

Fixpoint sorted (l : list A) : list A :=
  match l with
  | [] => []
  | x :: l' => insert_sorted x (sorted l')
  end.

(** The order [sorted] establishes between the keys of two elements. *)
Definition key_le (x y : A) : Prop := str_le (key x) (key y) = true.
End Sorted.

(** [set(l)]: the members of [l], each once.  The iteration order of a set
    is unspecified; [sorted] erases it. *)
Fixpoint dedup (l : list string) : list string :=
  match l with
  | [] => []
  | x :: l' => if existsb (String.eqb x) l' then dedup l' else x :: dedup l'
  end.

(** [sorted(set(l))] *)
Definition sorted_set (l : list string) : list string :=
  sorted (fun s => s) (dedup l).

(** A [dict] keeps its keys in insertion order; assigning to a key that is
    present replaces the value in place. *)
Section Dict.
Variable V : Type.

Definition dict := list (string * V).

Fixpoint get (d : dict) (k : string) : option V :=
  match d with
  | [] => None
  | (k', v) :: d' => if String.eqb k k' then Some v else get d' k
  end.

Fixpoint set (d : dict) (k : string) (v : V) : dict :=
  match d with
  | [] => [(k, v)]
  | (k', v') :: d' =>
      if String.eqb k k' then (k', v) :: d' else (k', v') :: set d' k v
  end.

Definition contains (d : dict) (k : string) : bool :=
  match get d k with Some _ => true | None => false end.

Definition keys (d : dict) : list string := map fst d.
End Dict.

End Py.

(* ================================================================== *)
(** * Type renderer: [get_typing_imports] and [type_to_code_str] *)
(* ================================================================== *)

(** The [__origin__] of a parameterised type that is neither [Union] nor
    [Dict]: either [Any] or some class with a module and a name. *)
Inductive origin : Type :=
| OAny
| OClass (o_module o_name : string).

Definition origin_name (o : origin) : string :=
  match o with OAny => "Any" | OClass _ n => n end.

Definition origin_module (o : origin) : string :=
  match o with OAny => "typing" | OClass m _ => m end.

(** A type descriptor as the renderer observes it.  The descriptors are
    those on which the two functions below return: an alias that has an
    [__origin__] but no [__args__] (a bare [typing.List]) and an argument
    with none of [__origin__], [_name] and [__name__] (the [Ellipsis] of
    [Tuple[int, ...]]) make the source raise [AttributeError] and have no
    value here. *)
Inductive ann : Type :=
| Union (args : list ann)                  (* __origin__ is Union *)
| Dict (key value : ann)                   (* __origin__ is Dict, two __args__ *)
| Generic (o : origin) (args : list ann)   (* any other __origin__ *)
| NoneType                                 (* type(None) *)
| AnyType                                  (* typing.Any *)
| Special (_name : string)                 (* no __origin__, has _name *)
| Class (__name__ : string).               (* a bare class *)

Definition is_NoneType (a : ann) : bool :=
  match a with NoneType => true | _ => false end.

(** [type(None) in args and len(args) == 2] *)
Definition is_optional (args : list ann) : bool :=
  existsb is_NoneType args && Nat.eqb (List.length args) 2.

Fixpoint get_typing_imports (a : ann) : list string :=
  match a with
  | Union args =>
      (if is_optional args then ["Optional"] else ["Union"])
        ++ List.concat (map get_typing_imports args)
  | Dict k v => ["Dict"] ++ get_typing_imports k ++ get_typing_imports v
  | Generic o elements =>
      (if String.eqb (origin_module o) "builtins" then [] else [origin_name o])
        ++ List.concat (map get_typing_imports elements)
  | AnyType => ["Any"]
  | _ => []
  end.

Fixpoint type_to_code_str (t : ann) : string :=
  match t with
  | Union args =>
      let which_union := negb (is_optional args) in
      let which := if which_union then "Union" else "Optional" in
      which +++ "["
        +++ Py.join ", "
             ((fix comprehension (l : list ann) : list string :=
                 match l with
                 | [] => []
                 | arg :: l' =>
                     if which_union || negb (is_NoneType arg)
                     then type_to_code_str arg :: comprehension l'
                     else comprehension l'
                 end) args)
        +++ "]"
  | Dict k v =>
      "Dict[" +++ type_to_code_str k +++ ", " +++ type_to_code_str v +++ "]"
  | Generic OAny _ => "Any"
  | Generic o elements =>
      origin_name o +++ "[" +++ Py.join ", " (map type_to_code_str elements) +++ "]"
  | NoneType => "None"
  | AnyType => "Any"
  | Special n => n
  | Class n => n
  end.

(* ================================================================== *)
(** * Exceptions *)
(* ================================================================== *)

(** A class as a type object: identity, [__module__], [__name__] and the
    identities of its proper ancestors. *)
Record pytype : Type := {
  ty_id : nat;
  ty_module : string;
  ty_name : string;
  ty_bases : list nat
}.

(** Positional arguments of a raised exception. *)
Inductive exn_arg : Type :=
| EStr (s : string)
| ECls (c : pytype).

Inductive exn : Type :=
| ValueError (args : list exn_arg)
| TypeError
| AttributeError
| IndexError.

Inductive result (A : Type) : Type :=
| Ok (a : A)
| Raise (e : exn).

Arguments Ok {A} a.
Arguments Raise {A} e.

Definition bind {A B : Type} (r : result A) (k : A -> result B) : result B :=
  match r with
  | Ok a => k a
  | Raise e => Raise e
  end.

Notation "x <- c1 ;; c2" := (bind c1 (fun x => c2))
  (at level 61, c1 at next level, right associativity).
Notation "' p <- c1 ;; c2" := (bind c1 (fun p => c2))
  (at level 61, p pattern, c1 at next level, right associativity).

(** A [for] loop whose body may raise, threading the loop state. *)
Fixpoint for_each {A S : Type} (l : list A) (body : A -> S -> result S) (s : S)
  : result S :=
  match l with
  | [] => Ok s
  | x :: l' => s' <- body x s ;; for_each l' body s'
  end.

(* ================================================================== *)
(** * Runtime objects *)
(* ================================================================== *)

(** A runtime object as the helpers observe it: its type, whether [setattr]
    is accepted (instances of user classes) or refused (built-in data), a
    payload that tells data values apart, and the attributes that [dir] and
    [getattr] expose (instance and class attributes merged, an instance
    attribute shadowing the class one).  Objects are modelled as trees: an
    object reachable along two attribute paths is two equal subtrees. *)
Inductive value : Type :=
| Obj (ty : pytype) (settable : bool) (payload : string)
      (attrs : list (string * value)).

Definition type_of (o : value) : pytype := let (t, _, _, _) := o in t.
Definition attrs_of (o : value) : list (string * value) :=
  let (_, _, _, a) := o in a.
Definition settable_of (o : value) : bool := let (_, s, _, _) := o in s.

Definition hasattr (o : value) (name : string) : bool :=
  Py.contains (attrs_of o) name.

Definition getattr (o : value) (name : string) : result value :=
  match Py.get (attrs_of o) name with
  | Some v => Ok v
  | None => Raise AttributeError
  end.

(** The attribute store of [o] with [name] bound to [v]. *)
Definition with_attr (o : value) (name : string) (v : value) : value :=
  let (t, s, p, a) := o in Obj t s p (Py.set a name v).

Definition setattr (o : value) (name : string) (v : value) : result value :=
  if settable_of o then Ok (with_attr o name v) else Raise AttributeError.

(** [dir(o)]: the attribute names, sorted. *)
Definition dir (attrs : list (string * value)) : list string :=
  Py.sorted (fun s => s) (Py.keys attrs).

(** An entry of [__annotations__]: a class, or any other object with its
    [str()], its [__module__] when it has one, and its view as a typing
    descriptor. *)
Inductive annotation : Type :=
| AnnType (t : pytype)
| AnnObj (tstr : string) (t_module : option string) (desc : ann).

(** A section class: its type object, the attributes [dir(cobj)] lists with
    the values [getattr] gives, [__annotations__] when present, and the
    [Attributes] entries NumpyDocString extracts from [__doc__] (name and
    description lines) when [__doc__] is not [None]. *)
Record pyclass : Type := {
  cls_type : pytype;
  cls_attrs : list (string * value);
  cls_annotations : option (list (string * annotation));
  cls_doc_attrs : option (list (string * list string))
}.

(** [cobj()]: a fresh instance; it sees the class attributes. *)
Definition instantiate (c : pyclass) : value :=
  Obj (cls_type c) true EmptyString (cls_attrs c).

(** Calling [default] where it may still be [None]. *)
Definition call (default : option pyclass) : result value :=
  match default with
  | Some c => Ok (instantiate c)
  | None => Raise TypeError
  end.

Definition is_instance (o : value) (c : pytype) : bool :=
  Nat.eqb (ty_id (type_of o)) (ty_id c)
  || existsb (Nat.eqb (ty_id c)) (ty_bases (type_of o)).

(** [isinstance(o, classes)] for a tuple: the entries are tried in order,
    the first match answers [True], an entry that is not a class raises. *)
Fixpoint isinstance (o : value) (classes : list (option pyclass)) : result bool :=
  match classes with
  | [] => Ok false
  | None :: _ => Raise TypeError
  | Some c :: rest =>
      if is_instance o (cls_type c) then Ok true else isinstance o rest
  end.

(* ================================================================== *)
(** * Section registry: [_name_to_config], [_Config_cls], [config_class] *)
(* ================================================================== *)

Record globals : Type := {
  _name_to_config : Py.dict pyclass;
  _Config_cls : option pyclass
}.

Definition set_Config (cls : pyclass) (g : globals) : globals :=
  {| _name_to_config := _name_to_config g; _Config_cls := Some cls |}.

(** [config_class(name)(c)]: the registry after the call and its outcome.
    The assertion that [name] is a [str] holds by typing. *)
Definition config_class (name : string) (c : pyclass) (g : globals)
  : globals * result pyclass :=
  match Py.get (_name_to_config g) name with
  | Some prior =>
      (g, Raise (ValueError [EStr "Redefining"; EStr name;
                             EStr "is not allowed; found"; ECls (cls_type c);
                             EStr "and"; ECls (cls_type prior)]))
  | None =>
      ({| _name_to_config := Py.set (_name_to_config g) name c;
          _Config_cls := _Config_cls g |}, Ok c)
  end.

(* ================================================================== *)
(** * Schema tree and stub emitter: [StubMaker.output_stub] *)
(* ================================================================== *)

(** A value stored in the schema tree: a [ConfigAttr] named tuple or a
    nested [defaultdict]. *)
Inductive node : Type :=
| ConfigAttr (type_ docstring : string)
| Namespace (items : list (string * node)).

Definition dq : string := String (ascii_of_nat 34) EmptyString.

(** [DISCLAIMER.format(base_path)] *)
Definition DISCLAIMER (base_path : string) : string :=
  "# This file was generated automatically" +++ Py.nl +++
  "# Do not edit by hand, your changes will be lost" +++ Py.nl +++
  "# Regenerate by running `python -m foliconf " +++ base_path +++ "`" +++ Py.nl.

Definition STUB_BASE : string :=
  "def config_class(name): ..." +++ Py.nl +++
  "def config_from_dict(config_dict: dict[str, Any]) -> Config: ..." +++ Py.nl +++
  "def make_config() -> Config: ..." +++ Py.nl +++
  "def update_config(config: Config, config_dict: dict[str, Any]) -> Config: ..." +++ Py.nl +++
  "def config_to_dict(config: Config) -> dict[str, Any]: ..." +++ Py.nl.

Definition CONFIG_PY_BASE : string :=
  "from foliconf import config_class, config_from_dict, config_to_dict, make_config, update_config, set_Config" +++ Py.nl +++
  Py.nl +++
  "__all__ = [" +++ Py.nl +++
  "    " +++ dq +++ "Config" +++ dq +++ "," +++ Py.nl +++
  "    " +++ dq +++ "config_class" +++ dq +++ "," +++ Py.nl +++
  "    " +++ dq +++ "config_from_dict" +++ dq +++ "," +++ Py.nl +++
  "    " +++ dq +++ "config_to_dict" +++ dq +++ "," +++ Py.nl +++
  "    " +++ dq +++ "make_config" +++ dq +++ "," +++ Py.nl +++
  "    " +++ dq +++ "update_config" +++ dq +++ "," +++ Py.nl +++
  "]" +++ Py.nl +++
  Py.nl +++ Py.nl +++
  "class Config:" +++ Py.nl +++
  "    pass" +++ Py.nl +++
  Py.nl +++ Py.nl +++
  "set_Config(Config)" +++ Py.nl.

(** [attr_dict[k] = v]: a [ConfigAttr] tuple supports no item assignment. *)
Definition setitem (attr_dict : node) (k : string) (v : node) : result node :=
  match attr_dict with
  | Namespace items => Ok (Namespace (Py.set items k v))
  | ConfigAttr _ _ => Raise TypeError
  end.

(** [_recursive_dd_get(d, keys)] hands out a reference into the tree and the
    caller mutates through it.  Here the statements run on the referenced
    value are passed as [body] and the outcome is written back along the
    path.  Indexing a [defaultdict] with a missing key first inserts an
    empty one; indexing a [ConfigAttr] with a string raises. *)
Fixpoint _recursive_dd_get {B : Type} (d : node) (keys : list string)
    (body : node -> result (node * B)) : result (node * B) :=
  match keys with
  | [] => body d
  | k :: keys' =>
      match d with
      | ConfigAttr _ _ => Raise TypeError
      | Namespace items =>
          let child := match Py.get items k with
                       | Some c => c
                       | None => Namespace []
                       end in
          '(child', b) <- _recursive_dd_get child keys' body ;;
          Ok (Namespace (Py.set items k child'), b)
      end
  end.

(** The [docstrings] default dict of one section. *)
Definition docstrings_of (cobj : pyclass) : Py.dict string :=
  match cls_doc_attrs cobj with
  | None => []
  | Some doc_attrs =>
      fold_left (fun d a => Py.set d (fst a) (Py.join Py.nl (snd a))) doc_attrs []
  end.

Definition docstring (docstrings : Py.dict string) (name : string) : string :=
  match Py.get docstrings name with Some s => s | None => EmptyString end.

(** What the two loops over one section update. *)
Record acc : Type := {
  attr_dict : node;
  imports : list string;
  typing_imports : list string
}.

Definition import_line (module name : string) : string :=
  "from " +++ module +++ " import " +++ name.

(** Body of [for attr_name in dir(cobj)]. *)
Definition infer_attr (cobj : pyclass) (docstrings : Py.dict string)
    (attr_name : string) (a : acc) : result acc :=
  if Py.startswith "__" attr_name then Ok a
  else
    match Py.get (cls_attrs cobj) attr_name with
    | None => Raise AttributeError
    | Some v =>
        let t := type_of v in
        d <- setitem (attr_dict a) attr_name
               (ConfigAttr (ty_name t) (docstring docstrings attr_name)) ;;
        Ok {| attr_dict := d;
              imports :=
                if String.eqb (ty_module t) "builtins" then imports a
                else imports a ++ [import_line (ty_module t) (ty_name t)];
              typing_imports := typing_imports a |}
    end.

(** The name shown for an annotation, the name to import (if any) and the
    typing names it needs. *)
Definition annotation_names (t : annotation)
  : string * option string * list string :=
  match t with
  | AnnType ty => (ty_name ty, Some (ty_name ty), [])
  | AnnObj tstr _ desc =>
      if Py.startswith "typing." tstr
      then (type_to_code_str desc, None, get_typing_imports desc)
      else (tstr, Some tstr, [])
  end.

(** [t.__module__] *)
Definition annotation_module (t : annotation) : result string :=
  match t with
  | AnnType ty => Ok (ty_module ty)
  | AnnObj _ (Some m) _ => Ok m
  | AnnObj _ None _ => Raise AttributeError
  end.

(** Body of [for attr_name, t in cobj.__annotations__.items()]. *)
Definition declare_attr (docstrings : Py.dict string)
    (entry : string * annotation) (a : acc) : result acc :=
  let (attr_name, t) := entry in
  let '(tname, iname, timports) := annotation_names t in
  d <- setitem (attr_dict a) attr_name
         (ConfigAttr tname (docstring docstrings attr_name)) ;;
  m <- annotation_module t ;;
  Ok {| attr_dict := d;
        imports :=
          match iname with
          | Some i =>
              if String.eqb m "builtins" then imports a
              else imports a ++ [import_line m i]
          | None => imports a
          end;
        typing_imports := typing_imports a ++ timports |}.

Definition annotations_items (cobj : pyclass) : list (string * annotation) :=
  match cls_annotations cobj with Some l => l | None => [] end.

(** The two loops of one section, run on its [attr_dict]. *)
Definition section_fields (cobj : pyclass) (a : acc) : result acc :=
  let docstrings := docstrings_of cobj in
  a1 <- for_each (dir (cls_attrs cobj)) (infer_attr cobj docstrings) a ;;
  for_each (annotations_items cobj) (declare_attr docstrings) a1.

(** The path of a section in the tree; ["@base"] is the root. *)
Definition section_path (cname : string) : list string :=
  if String.eqb cname "@base" then [] else Py.split_dot cname.

(** The three accumulators of [output_stub]'s first loop. *)
Definition schema : Type := (node * list string * list string)%type.

(** One iteration of [for cname, cobj in _name_to_config.items()]. *)
Definition add_section (entry : string * pyclass) (s : schema) : result schema :=
  let (cname, cobj) := entry in
  let '(config, imps, timps) := s in
  '(config', (imps', timps')) <-
    _recursive_dd_get config (section_path cname)
      (fun attr_dict0 =>
         a <- section_fields cobj
                {| attr_dict := attr_dict0; imports := imps;
                   typing_imports := timps |} ;;
         Ok (attr_dict a, (imports a, typing_imports a))) ;;
  Ok (config', imps', timps').

Definition build_schema (registry : Py.dict pyclass) (config : node)
  : result schema :=
  for_each registry add_section (config, [], []).

(** The sort key of an entry of a block: the lambda passed to [sorted]. *)
Definition sort_key (x : string * node) : string :=
  match snd x with
  | Namespace _ => fst x
  | ConfigAttr _ _ => "_" +++ fst x
  end.

Definition str_concat (l : list string) : string :=
  fold_right String.append EmptyString l.

(** The lines of a leaf entry, [k: v.type] and its docstring if it has one,
    written with [level] indentation steps. *)
Definition field_lines (k type_ docstring : string) (level : nat) : string :=
  Py.indent level +++ k +++ ": " +++ type_ +++ Py.nl +++
  match docstring with
  | EmptyString => EmptyString
  | _ => Py.indent level +++ dq +++ dq +++ dq +++ docstring
           +++ dq +++ dq +++ dq +++ Py.nl
  end.

(** The local function [f] of [output_stub], by recursion on the tree: the
    text of every entry is prepared as a function of its indentation level,
    and the entries are then written in the order [sorted] gives.  The
    diagnostic printed for an empty block goes to standard output and is not
    part of the text.  [f_eq] below restates it in the source's shape. *)
Fixpoint emit (name : string) (v : node) (indentlevel : nat) {struct v} : string :=
  match v with
  | ConfigAttr type_ docstring =>
      field_lines name type_ docstring indentlevel
  | Namespace d =>
      Py.indent indentlevel +++ "class " +++ name +++ ":" +++ Py.nl +++
      str_concat
        (map (fun e => snd e (indentlevel + 1))
           (Py.sorted (fun e => sort_key (fst e))
              (map (fun kv => (kv, emit (fst kv) (snd kv))) d))) +++
      match d with
      | [] => Py.indent (indentlevel + 1) +++ "..." +++ Py.nl
      | _ => EmptyString
      end
  end.

Definition f (name : string) (d : list (string * node)) (indentlevel : nat)
  : string :=
  emit name (Namespace d) indentlevel.

(** The state of a [StubMaker]. *)
Record StubMaker : Type := {
  config : list (string * node);
  _base_path : string;
  _verbose : bool;
  _should_import : bool
}.

(** [StubMaker(base_path, verbose)] *)
Definition StubMaker_init (base_path : string) (verbose : bool) : StubMaker :=
  {| config := []; _base_path := base_path; _verbose := verbose;
     _should_import := false |}.

Definition config_of (n : node) : list (string * node) :=
  match n with Namespace d => d | ConfigAttr _ _ => [] end.

(** The text of the stub for a built schema. *)
Definition stub_text (base_path : string) (s : schema) : string :=
  let '(config, imps, timps) := s in
  DISCLAIMER base_path +++
  "from typing import " +++ Py.join ", " (Py.sorted_set timps) +++ Py.nl +++
  Py.join Py.nl (Py.sorted_set imps) +++ Py.nl +++ Py.nl +++
  f "Config" (config_of config) 0 +++
  STUB_BASE.

(** [output_stub]: the maker afterwards, the text written to [config.pyi]
    and the text written to [base_path]. *)
Definition output_stub (self : StubMaker) (g : globals)
  : result (StubMaker * string * string) :=
  s <- build_schema (_name_to_config g) (Namespace (config self)) ;;
  let '(config', _, _) := s in
  Ok ({| config := config_of config'; _base_path := _base_path self;
         _verbose := _verbose self; _should_import := _should_import self |},
      stub_text (_base_path self) s,
      DISCLAIMER (_base_path self) +++ CONFIG_PY_BASE).

(* ================================================================== *)
(** * Discovery visitor: [StubMaker.visit_ClassDef] *)
(* ================================================================== *)

(** The value of an [ast.Constant]. *)
Inductive constant : Type :=
| CStr (s : string)
| CBytes (s : string)
| CNum (literal : string)
| CBool (b : bool)
| CNone
| CEllipsis.

(** Expression nodes, as far as the visitor inspects them. *)
Inductive expr : Type :=
| Call (func : expr) (args : list expr) (keywords : list (option string * expr))
| Name (id : string)
| Constant (value : constant)
| OtherExpr (children : list expr).

(** Statement nodes: class declarations, and every other statement with the
    statements nested in it. *)
Inductive stmt : Type :=
| ClassDef (name : string) (bases : list expr)
           (keywords : list (option string * expr))
           (body : list stmt) (decorator_list : list expr)
| OtherStmt (exprs : list expr) (body : list stmt).

(** The condition tested on each decorator. *)
Definition is_config_class_call (dec : expr) : bool :=
  match dec with
  | Call (Name id) [Constant _] _ => String.eqb id "config_class"
  | _ => false
  end.

(** [visit(node)] on a statement, threading [_should_import].  Expressions
    hold no class declaration, so visiting them changes nothing.  A class
    declaration runs the loop over its decorators and then visits its
    children; any other statement is handled by [generic_visit]. *)
Fixpoint visit (node : stmt) (should_import : bool) {struct node} : bool :=
  match node with
  | ClassDef _ _ _ body decorator_list =>
      let marked :=
        fold_left (fun s dec => if is_config_class_call dec then true else s)
          decorator_list should_import in
      fold_left (fun s child => visit child s) body marked
  | OtherStmt _ body =>
      fold_left (fun s child => visit child s) body should_import
  end.

(** [start_module] followed by the visit of the parsed module. *)
Definition visit_module (self : StubMaker) (body : list stmt) : StubMaker :=
  {| config := config self; _base_path := _base_path self;
     _verbose := _verbose self;
     _should_import := fold_left (fun s child => visit child s) body false |}.

(* ================================================================== *)
(** * Runtime helpers *)
(* ================================================================== *)

(** [_recursive_creative_setattr(o, keys, default, value)]; the result is
    [o] after the mutation.  The object reached through [getattr] is changed
    in place, so the attribute of [o] that holds it shows the change. *)
Fixpoint _recursive_creative_setattr (o : value) (keys : list string)
    (default : option pyclass) (v : value) {struct keys} : result value :=
  match keys with
  | [] => Raise IndexError
  | [k] => setattr o k v
  | k :: keys' =>
      o1 <- (if hasattr o k then Ok o
             else (fresh <- call default ;; setattr o k fresh)) ;;
      child <- getattr o1 k ;;
      child' <- _recursive_creative_setattr child keys' default v ;;
      Ok (with_attr o1 k child')
  end.

Fixpoint _recursive_getattr (o : value) (keys : list string) : result value :=
  match keys with
  | [] => Raise IndexError
  | [k] => getattr o k
  | k :: keys' => child <- getattr o k ;; _recursive_getattr child keys'
  end.

(** [sorted(_name_to_config.items())]: the names are the keys of a dict, so
    the order is decided by the names. *)
Definition sorted_items (registry : Py.dict pyclass) : list (string * pyclass) :=
  Py.sorted fst registry.

Definition make_config (g : globals) : result value :=
  config <- call (match Py.get (_name_to_config g) "@base" with
                  | Some c => Some c
                  | None => _Config_cls g
                  end) ;;
  for_each (sorted_items (_name_to_config g))
    (fun entry config =>
       let (cname, cobj) := entry in
       if String.eqb cname "@base" then Ok config
       else _recursive_creative_setattr config (Py.split_dot cname)
              (_Config_cls g) (instantiate cobj))
    config.

(** [update_config] returns nothing and changes [config]; the result here is
    the changed [config]. *)
Definition update_config (g : globals) (config : value)
    (config_dict : Py.dict value) : result value :=
  for_each config_dict
    (fun entry config =>
       let (cname, val) := entry in
       _recursive_creative_setattr config (Py.split_dot cname)
         (_Config_cls g) val)
    config.

(** [check_config]; the result is the list of warnings printed. *)
Definition check_config (g : globals) (config : value) : result (list string) :=
  for_each (_name_to_config g)
    (fun entry printed =>
       let (cname, cobj) := entry in
       if String.eqb cname "@base" then Ok printed
       else
         subcfg <- _recursive_getattr config (Py.split_dot cname) ;;
         Ok (fold_left
               (fun printed a =>
                  if hasattr subcfg (fst a) then printed
                  else printed ++
                       ["Warning, setting " +++ cname +++ "." +++ fst a +++
                        " was declared but not defined in created config"])
               (annotations_items cobj) printed))
    [].

Definition config_from_dict (g : globals) (config_dict : Py.dict value)
  : result value :=
  config <- make_config g ;;
  config <- update_config g config config_dict ;;
  _ <- check_config g config ;;
  Ok config.

(** [tuple(_name_to_config.values()) + (_Config_cls,)] *)
Definition config_classes (g : globals) : list (option pyclass) :=
  map (fun e => Some (snd e)) (_name_to_config g) ++ [_Config_cls g].

Definition config_to_dict (g : globals) (config : value)
  : result (Py.dict value) :=
  for_each (_name_to_config g)
    (fun entry d =>
       let cname := fst entry in
       '(csplit, subcfg) <-
         (if String.eqb cname "@base" then Ok ([], config)
          else (sub <- _recursive_getattr config (Py.split_dot cname) ;;
                Ok (Py.split_dot cname, sub))) ;;
       for_each (dir (attrs_of subcfg))
         (fun i d =>
            if Py.startswith "__" i then Ok d
            else
              o <- getattr subcfg i ;;
              skip <- isinstance o (config_classes g) ;;
              if skip then Ok d
              else Ok (Py.set d (Py.join "." (csplit ++ [i])) o))
         d)
    [].

(* ================================================================== *)
(** * Vocabulary of the statements *)
(* ================================================================== *)


(** The text [f] writes for one entry of a block at [indentlevel]. *)
Definition entry (indentlevel : nat) (kv : string * node) : string :=
  match snd kv with
  | Namespace d' => f (fst kv) d' (indentlevel + 1)
  | ConfigAttr type_ docstring =>
      field_lines (fst kv) type_ docstring (indentlevel + 1)
  end.

Definition is_leaf (x : string * node) : bool :=
  match snd x with ConfigAttr _ _ => true | Namespace _ => false end.

(** [x] occurs before [y] in [l]. *)
Definition precedes {A : Type} (x y : A) (l : list A) : Prop :=
  exists l1 l2 l3, l = l1 ++ x :: l2 ++ y :: l3.

(** The name starts with a character above the underscore, as every
    lower-case letter is. *)
Definition above_marker (name : string) : bool :=
  match name with
  | String c _ => Ascii.ltb "_"%char c
  | EmptyString => false
  end.

(** Some class declaration of the statement, at any depth, has a decorator
    satisfying [p]. *)
Fixpoint has_class_with (p : expr -> bool) (node : stmt) {struct node} : bool :=
  match node with
  | ClassDef _ _ _ body decorator_list =>
      existsb p decorator_list || existsb (has_class_with p) body
  | OtherStmt _ body => existsb (has_class_with p) body
  end.

(** A call of the marker whose only argument is a string literal. *)
Definition is_string_marker (dec : expr) : bool :=
  match dec with
  | Call (Name id) [Constant (CStr _)] [] => String.eqb id "config_class"
  | _ => false
  end.

(** Induction over statements and the statements nested in them. *)
Section StmtInd.
Variable P : stmt -> Prop.
Hypothesis HClassDef : forall name bases keywords body decorator_list,
  Forall P body -> P (ClassDef name bases keywords body decorator_list).
Hypothesis HOther : forall exprs body, Forall P body -> P (OtherStmt exprs body).

Fixpoint stmt_nested_ind (s : stmt) : P s :=
  let all := fix all (l : list stmt) : Forall P l :=
    match l with
    | [] => Forall_nil P
    | x :: l' => Forall_cons x (stmt_nested_ind x) (all l')
    end in
  match s with
  | ClassDef name bases keywords body decorator_list =>
      HClassDef name bases keywords decorator_list (all body)
  | OtherStmt exprs body => HOther exprs (all body)
  end.
End StmtInd.

(** The node found in the tree by following [keys] from [d]. *)
Fixpoint tree_get (d : node) (keys : list string) : option node :=
  match keys with
  | [] => Some d
  | k :: keys' =>
      match d with
      | Namespace items =>
          match Py.get items k with
          | Some c => tree_get c keys'
          | None => None
          end
      | ConfigAttr _ _ => None
      end
  end.

(** The import line the first loop records for one attribute name. *)
Definition inferred_import (cobj : pyclass) (attr_name : string) : list string :=
  if Py.startswith "__" attr_name then []
  else match Py.get (cls_attrs cobj) attr_name with
       | Some v =>
           if String.eqb (ty_module (type_of v)) "builtins" then []
           else [import_line (ty_module (type_of v)) (ty_name (type_of v))]
       | None => []
       end.

Definition inferred_imports (cobj : pyclass) : list string :=
  flat_map (inferred_import cobj) (dir (cls_attrs cobj)).

(** The type text an annotation gives to its field. *)
Definition annotation_type (t : annotation) : string :=
  fst (fst (annotation_names t)).

(** Whether the walk of [_recursive_creative_setattr] along [keys] from [o]
    meets only objects it can work on: the object that receives the final
    attribute, and every object that must receive a missing intermediate
    one, accept [setattr]. *)
Fixpoint accepts_walk (o : value) (keys : list string) (base : pyclass) : bool :=
  match keys with
  | [] => false
  | [k] => settable_of o
  | k :: keys' =>
      match Py.get (attrs_of o) k with
      | Some child => accepts_walk child keys' base
      | None => settable_of o && accepts_walk (instantiate base) keys' base
      end
  end.

(** The name holds no dot, as every identifier does. *)
Fixpoint no_dot (s : string) : bool :=
  match s with
  | EmptyString => true
  | String c rest => negb (Ascii.eqb c "."%char) && no_dot rest
  end.

(** The object [config_to_dict] and [check_config] look into for the
    section [cname]: the root for ["@base"], else the object at its path. *)
Definition section_object (config : value) (cname : string) : result value :=
  if String.eqb cname "@base" then Ok config
  else _recursive_getattr config (Py.split_dot cname).

(** Where an entry of the flat mapping comes from. *)
Definition emitted_from (g : globals) (config : value) (key : string) (val : value)
  : Prop :=
  exists cname i sub,
    In cname (Py.keys (_name_to_config g))
    /\ section_object config cname = Ok sub
    /\ key = Py.join "." (section_path cname ++ [i])
    /\ getattr sub i = Ok val
    /\ Py.startswith "__" i = false
    /\ isinstance val (config_classes g) = Ok false.

Definition sourced (g : globals) (config : value) (d : Py.dict value) : Prop :=
  forall key val, In (key, val) d -> emitted_from g config key val.

(** [descend o keys] follows [keys] from [o] with [getattr]; on a path that
    is not empty it is [_recursive_getattr]. *)
Fixpoint descend (o : value) (keys : list string) : result value :=
  match keys with
  | [] => Ok o
  | k :: keys' => child <- getattr o k ;; descend child keys'
  end.

(** [q] is an initial part of [p]. *)
Definition is_prefix (q p : list string) : Prop := exists rest, p = q ++ rest.

(** The object at [keys] exists, accepts [setattr], and has attribute names
    free of dots. *)
Definition good_obj (o : value) (keys : list string) : Prop :=
  exists sub,
    descend o keys = Ok sub
    /\ settable_of sub = true
    /\ Forall (fun i => no_dot i = true) (Py.keys (attrs_of sub)).

(** What [make_config] has reached after the sections [done]: the root is
    in order if it is the instance of the ["@base"] section, and so is the
    object of every section handled so far. *)
Definition made (g : globals) (done : list (string * pyclass)) (c : value) : Prop :=
  (forall cb, Py.get (_name_to_config g) "@base" = Some cb -> good_obj c [])
  /\ (forall cname cobj, In (cname, cobj) done -> cname <> "@base" ->
        good_obj c (Py.split_dot cname)).

(** Induction over a schema tree and the trees nested in it. *)
Section NodeInd.
Variable P : node -> Prop.
Hypothesis HAttr : forall type_ docstring, P (ConfigAttr type_ docstring).
Hypothesis HNamespace : forall items,
  Forall (fun kv => P (snd kv)) items -> P (Namespace items).

Fixpoint node_nested_ind (n : node) : P n :=
  match n with
  | ConfigAttr type_ docstring => HAttr type_ docstring
  | Namespace items =>
      HNamespace
        ((fix all (l : list (string * node)) : Forall (fun kv => P (snd kv)) l :=
            match l with
            | [] => Forall_nil _
            | kv :: l' => Forall_cons kv (node_nested_ind (snd kv)) (all l')
            end) items)
  end.
End NodeInd.

(** What is found at a place of the tree, whatever the insertion order: a
    leaf with its type and docstring, a namespace, or nothing. *)
Definition shape (o : option node) : option (option (string * string)) :=
  match o with
  | None => None
  | Some (ConfigAttr t d) => Some (Some (t, d))
  | Some (Namespace _) => Some None
  end.

(** Two trees hold the same leaves and the same namespaces. *)
Definition tree_sim (a b : node) : Prop :=
  forall path, shape (tree_get a path) = shape (tree_get b path).

(** Every dict of the tree has each key once. *)
Inductive wf_tree : node -> Prop :=
| wf_attr : forall t d, wf_tree (ConfigAttr t d)
| wf_namespace : forall items,
    NoDup (Py.keys items) ->
    Forall (fun kv => wf_tree (snd kv)) items ->
    wf_tree (Namespace items).

(** No two entries of one block of the tree share a sort key. *)
Inductive distinct_sort_keys : node -> Prop :=
| dk_attr : forall t d, distinct_sort_keys (ConfigAttr t d)
| dk_namespace : forall items,
    NoDup (map sort_key items) ->
    Forall (fun kv => distinct_sort_keys (snd kv)) items ->
    distinct_sort_keys (Namespace items).

(** The text of the stub [output_stub] writes, when it does. *)
Definition stub_of (self : StubMaker) (g : globals) : option string :=
  match output_stub self g with
  | Ok (_, stub, _) => Some stub
  | Raise _ => None
  end.

(** The field a section gives to the name [x]: the declared one if [x] is
    annotated, else the inferred one if [x] is a listed attribute whose name
    does not start with two underscores. *)
Definition inferred_field (cobj : pyclass) (x : string) : option node :=
  match Py.get (cls_attrs cobj) x with
  | Some v =>
      if Py.startswith "__" x then None
      else Some (ConfigAttr (ty_name (type_of v)) (docstring (docstrings_of cobj) x))
  | None => None
  end.

Definition field_of (cobj : pyclass) (x : string) : option node :=
  match Py.get (annotations_items cobj) x with
  | Some t => Some (ConfigAttr (annotation_type t) (docstring (docstrings_of cobj) x))
  | None => inferred_field cobj x
  end.

(** The import line the second loop records for one annotation. *)
Definition declared_import (entry : string * annotation) : list string :=
  match annotation_module (snd entry), snd (fst (annotation_names (snd entry))) with
  | Ok m, Some i => if String.eqb m "builtins" then [] else [import_line m i]
  | _, _ => []
  end.

Definition section_imports (cobj : pyclass) : list string :=
  inferred_imports cobj ++ flat_map declared_import (annotations_items cobj).

Definition section_typing_imports (cobj : pyclass) : list string :=
  flat_map (fun e => snd (annotation_names (snd e))) (annotations_items cobj).

(** Every annotation of the section has a [__module__]. *)
Definition annotations_ok (cobj : pyclass) : Prop :=
  Forall (fun e => exists m, annotation_module (snd e) = Ok m)
    (annotations_items cobj).

(** The content of the tree built from the sections [r]. *)
Definition has_leaf (r : Py.dict pyclass) (path : list string) (t d : string)
  : Prop :=
  exists p cp x,
    In (p, cp) r /\ path = section_path p ++ [x]
    /\ field_of cp x = Some (ConfigAttr t d).

Definition has_namespace (r : Py.dict pyclass) (path : list string) : Prop :=
  path = [] \/ exists p cp, In (p, cp) r /\ is_prefix path (section_path p).

Definition built (r : Py.dict pyclass) (T : node) : Prop :=
  wf_tree T
  /\ (forall path t d,
        tree_get T path = Some (ConfigAttr t d) <-> has_leaf r path t d)
  /\ (forall path,
        (exists l, tree_get T path = Some (Namespace l)) <-> has_namespace r path).

(** No field of a section sits where another section, or a namespace above
    it, has to go. *)
Definition no_collision (r : Py.dict pyclass) : Prop :=
  forall p cp q cq x,
    In (p, cp) r -> In (q, cq) r -> field_of cp x <> None ->
    ~ is_prefix (section_path p ++ [x]) (section_path q).

(** [items'] is [items] with the fields [fo] gives put over it. *)
Definition patched (fo : string -> option node) (items items' : list (string * node))
  : Prop :=
  forall x, Py.get items' x
            = match fo x with Some n => Some n | None => Py.get items x end.

(* ================================================================== *)
(** * Sample classes, registries and objects *)
(* ================================================================== *)

(** A file whose only class is decorated with [@config_class(42)]. *)
Definition file_numeric_marker : list stmt :=
  [ClassDef "A" [] [] []
     [Call (Name "config_class") [Constant (CNum "42")] []]].

(** The root block of the registry [{"@base": B, "Net": N}] where [B] has
    [debug = False] and [N] has [port = 8080]. *)
Definition tree_upper_case : list (string * node) :=
  [("debug", ConfigAttr "bool" EmptyString);
   ("Net", Namespace [("port", ConfigAttr "int" EmptyString)])].

(** Built-in types and a few values. *)
Definition int_t : pytype :=
  {| ty_id := 1; ty_module := "builtins"; ty_name := "int"; ty_bases := [0] |}.
Definition float_t : pytype :=
  {| ty_id := 2; ty_module := "builtins"; ty_name := "float"; ty_bases := [0] |}.
Definition bool_t : pytype :=
  {| ty_id := 3; ty_module := "builtins"; ty_name := "bool"; ty_bases := [1; 0] |}.
Definition str_t : pytype :=
  {| ty_id := 5; ty_module := "builtins"; ty_name := "str"; ty_bases := [0] |}.
Definition path_t : pytype :=
  {| ty_id := 4; ty_module := "pathlib"; ty_name := "PosixPath"; ty_bases := [0] |}.

Definition data (t : pytype) (payload : string) : value := Obj t false payload [].

(** A section class [Http] with [port = 8080], [root = Path(...)] and the
    annotations [port: float] and [timeout: Optional[float]]. *)
Definition Http : pyclass :=
  {| cls_type := {| ty_id := 10; ty_module := "app.net"; ty_name := "Http";
                    ty_bases := [0] |};
     cls_attrs := [("__module__", data str_t "app.net");
                   ("root", data path_t "/srv");
                   ("port", data int_t "8080")];
     cls_annotations :=
       Some [("port", AnnType float_t);
             ("timeout", AnnObj "typing.Optional[float]" (Some "typing")
                           (Union [Class "float"; NoneType]))];
     cls_doc_attrs := Some [("port", ["Port to listen on."])] |}.

(** The generated [class Config: pass] and a module state that has it
    installed and nothing registered. *)
Definition Config_class : pyclass :=
  {| cls_type := {| ty_id := 20; ty_module := "config"; ty_name := "Config";
                    ty_bases := [0] |};
     cls_attrs := [];
     cls_annotations := None;
     cls_doc_attrs := None |}.

Definition globals_empty : globals :=
  {| _name_to_config := []; _Config_cls := Some Config_class |}.

(** A configuration object whose attribute [a] holds the integer 3. *)
Definition config_with_leaf : value :=
  with_attr (instantiate Config_class) "a" (data int_t "3").

(** A registry with one section [net]. *)
Definition Net : pyclass :=
  {| cls_type := {| ty_id := 11; ty_module := "app.net"; ty_name := "Net";
                    ty_bases := [0] |};
     cls_attrs := [("port", data int_t "8080")];
     cls_annotations := None;
     cls_doc_attrs := None |}.

Definition globals_net : globals :=
  {| _name_to_config := [("net", Net)]; _Config_cls := Some Config_class |}.

(** A configuration for [globals_net], before and after storing 5 under
    ["x.y.z"], and its flat mapping. *)
Definition config_net : value :=
  with_attr (instantiate Config_class) "net" (instantiate Net).

Definition config_net_xyz : value :=
  with_attr config_net "x"
    (with_attr (instantiate Config_class) "y"
       (with_attr (instantiate Config_class) "z" (data int_t "5"))).

Definition dict_net : Py.dict value := [("net.port", data int_t "8080")].

(** A root section with [debug = False], and a registry holding it and the
    section [net.http]. *)
Definition Base : pyclass :=
  {| cls_type := {| ty_id := 12; ty_module := "app"; ty_name := "Base";
                    ty_bases := [0] |};
     cls_attrs := [("debug", data bool_t "False")];
     cls_annotations := None;
     cls_doc_attrs := None |}.

Definition globals_app : globals :=
  {| _name_to_config := [("net.http", Http); ("@base", Base)];
     _Config_cls := Some Config_class |}.

Definition config_app : value :=
  Obj (cls_type Base) true EmptyString
    [("debug", data bool_t "False");
     ("net", Obj (cls_type Config_class) true EmptyString
        [("http", instantiate Http)])].

Definition dict_app : Py.dict value :=
  [("net.http.port", data int_t "8080");
   ("net.http.root", data path_t "/srv");
   ("debug", data bool_t "False")].

(** The root section has [x = 1] and the section [_x] has [y = 2]: the leaf
    [x] and the namespace [_x] share the sort key ["_x"]. *)
Definition BaseX : pyclass :=
  {| cls_type := {| ty_id := 13; ty_module := "app"; ty_name := "BaseX";
                    ty_bases := [0] |};
     cls_attrs := [("x", data int_t "1")];
     cls_annotations := None;
     cls_doc_attrs := None |}.

Definition SecY : pyclass :=
  {| cls_type := {| ty_id := 14; ty_module := "app"; ty_name := "SecY";
                    ty_bases := [0] |};
     cls_attrs := [("y", data int_t "2")];
     cls_annotations := None;
     cls_doc_attrs := None |}.

Definition globals_tie_1 : globals :=
  {| _name_to_config := [("@base", BaseX); ("_x", SecY)];
     _Config_cls := Some Config_class |}.

Definition globals_tie_2 : globals :=
  {| _name_to_config := [("_x", SecY); ("@base", BaseX)];
     _Config_cls := Some Config_class |}.

(** [globals_app] with its two sections registered the other way round, and
    what [output_stub] leaves and writes for either. *)
Definition globals_app_rev : globals :=
  {| _name_to_config := [("@base", Base); ("net.http", Http)];
     _Config_cls := Some Config_class |}.

Definition tree_http : node :=
  Namespace [("port", ConfigAttr "float" "Port to listen on.");
             ("root", ConfigAttr "PosixPath" EmptyString);
             ("timeout", ConfigAttr "Optional[float]" EmptyString)].

Definition maker_app : StubMaker :=
  {| config := [("net", Namespace [("http", tree_http)]);
                ("debug", ConfigAttr "bool" EmptyString)];
     _base_path := "config.py"; _verbose := false; _should_import := false |}.

Definition stub_app : string :=
  stub_text "config.py"
    (Namespace (config maker_app), ["from pathlib import PosixPath"], ["Optional"]).


(* ================================================================== *)
(** * Module loading: [start_module] and [finalize_module] *)
(* ================================================================== *)

(** What [start_module] stores: the path of the file and the components of
    its path relative to the scanned tree, [Path(local_path).parts]. *)
Record module_ctx : Type := {
  _mod_path : string;
  _local_mod_path : list string
}.

(** The interpreter state [finalize_module] reads and changes: the names
    bound in [sys.modules], and the modules handed to
    [spec.loader.exec_module], with their file, in the order of execution. *)
Record interp : Type := {
  sys_modules : list string;
  executed : list (string * string)
}.

(** [path.name]: the last component, empty when there is none. *)
Definition path_name (parts : list string) : string :=
  last parts EmptyString.

(** [s[:-n]] *)
Definition drop_last (n : nat) (s : string) : string :=
  String.substring 0 (String.length s - n) s.

(** [parts[1:-1]] *)
Definition middle (parts : list string) : list string :=
  removelast (tl parts).

(** [start_module(path, local_path)]: the flag of the previous file is
    dropped, and the two paths are kept for [finalize_module]. *)
Definition start_module (self : StubMaker) (path : string)
    (local_path : list string) : StubMaker * module_ctx :=
  ({| config := config self; _base_path := _base_path self;
      _verbose := _verbose self; _should_import := false |},
   {| _mod_path := path; _local_mod_path := local_path |}).

(** Position of the last dot of a name. *)
Fixpoint rfind_dot (s : string) : option nat :=
  match s with
  | EmptyString => None
  | String c rest =>
      match rfind_dot rest with
      | Some i => Some (S i)
      | None => if Ascii.eqb c "."%char then Some 0 else None
      end
  end.

(** The suffix pathlib gives a file name: the part from the last dot on,
    and nothing when the name has no dot, or only a leading or a final
    one. *)
Definition pathlib_suffix (name : string) : string :=
  match rfind_dot name with
  | Some i =>
      if Nat.ltb 0 i && Nat.ltb i (String.length name - 1)
      then String.substring i (String.length name - i) name
      else EmptyString
  | None => EmptyString
  end.

Section Loading.
(** [path.suffix] is pathlib's; only its value on the file name matters. *)
Variable suffix : string -> string.

(** The assertion and the module name computed from the path; a failed
    assertion raises.  [parts[0]] is read only when the suffix test holds. *)
Definition module_name (parts : list string) : option string :=
  if String.eqb (suffix (path_name parts)) ".py"
     && match parts with
        | first :: _ => String.eqb first "src"
        | [] => false
        end
  then Some (Py.join "." (middle parts) +++ "." +++ drop_last 3 (path_name parts))
  else None.

(** [finalize_module]: [None] stands for the exception of a failed
    assertion.  What the module does while it is executed is not followed:
    [executed] records that it was handed to [exec_module]. *)
Definition finalize_module (self : StubMaker) (m : module_ctx) (st : interp)
  : option interp :=
  if _should_import self then
    match module_name (_local_mod_path m) with
    | None => None
    | Some name =>
        if existsb (String.eqb name) (sys_modules st) then Some st
        else Some {| sys_modules := sys_modules st ++ [name];
                     executed := executed st ++ [(name, _mod_path m)] |}
    end
  else Some st.
End Loading.

(* ================================================================== *)
(** * More vocabulary *)
(* ================================================================== *)

(** Induction over a type descriptor and the descriptors nested in it. *)
Section AnnInd.
Variable P : ann -> Prop.
Hypothesis HUnion : forall args, Forall P args -> P (Union args).
Hypothesis HDict : forall k v, P k -> P v -> P (Dict k v).
Hypothesis HGeneric : forall o args, Forall P args -> P (Generic o args).
Hypothesis HNone : P NoneType.
Hypothesis HAny : P AnyType.
Hypothesis HSpecial : forall n, P (Special n).
Hypothesis HClass : forall n, P (Class n).

Fixpoint ann_nested_ind (t : ann) : P t :=
  let all := fix all (l : list ann) : Forall P l :=
    match l with
    | [] => Forall_nil P
    | x :: l' => Forall_cons x (ann_nested_ind x) (all l')
    end in
  match t with
  | Union args => HUnion (all args)
  | Dict k v => HDict (ann_nested_ind k) (ann_nested_ind v)
  | Generic o args => HGeneric o (all args)
  | NoneType => HNone
  | AnyType => HAny
  | Special n => HSpecial n
  | Class n => HClass n
  end.
End AnnInd.

(** Every parameterised type in the descriptor has its origin in
    [builtins], as [list[int]] has. *)
Fixpoint builtin_origins (t : ann) : bool :=
  match t with
  | Union args => forallb builtin_origins args
  | Dict k v => builtin_origins k && builtin_origins v
  | Generic o args =>
      String.eqb (origin_module o) "builtins" && forallb builtin_origins args
  | _ => true
  end.

(** Neither path is an initial part of the other. *)
Definition unrelated (p q : list string) : Prop :=
  ~ is_prefix p q /\ ~ is_prefix q p.

(** The node [_recursive_dd_get] hands out at [keys]: the one of the tree,
    or a fresh empty dict where the tree had none. *)
Definition found (T : node) (keys : list string) : node :=
  match tree_get T keys with Some n => n | None => Namespace [] end.

(** A name that starts with an underscore, by convention not public. *)
Definition non_public (name : string) : bool := Py.startswith "_" name.

(** A section class whose body sets [__token], [_private] and [port]; the
    class stores the first under its mangled name [_Http2__token]. *)
Definition Http2 : pyclass :=
  {| cls_type := {| ty_id := 16; ty_module := "app.api"; ty_name := "Http2";
                    ty_bases := [0] |};
     cls_attrs := [("__module__", data str_t "app.api");
                   ("_Http2__token", data str_t "secret");
                   ("_private", data int_t "1");
                   ("port", data int_t "8080")];
     cls_annotations := None;
     cls_doc_attrs := None |}.

(* ================================================================== *)
(** * Properties *)
(* ================================================================== *)

Unset Implicit Arguments.

Lemma ascii_compare_refl a : Ascii.compare a a = Eq.
Proof. unfold Ascii.compare. apply N.compare_refl. Qed.

Lemma string_compare_refl s : String.compare s s = Eq.
Proof. induction s as [|a s IH]; simpl; [reflexivity|]. now rewrite ascii_compare_refl. Qed.

Lemma ascii_compare_trans a b c o :
  Ascii.compare a b = o -> Ascii.compare b c = o -> Ascii.compare a c = o.
Proof.
  unfold Ascii.compare. destruct o; intros H1 H2.
  - apply N.compare_eq_iff in H1, H2. rewrite H1, H2. apply N.compare_refl.
  - rewrite N.compare_lt_iff in *. lia.
  - rewrite N.compare_gt_iff in *. lia.
Qed.

Lemma string_compare_lt_trans s1 : forall s2 s3,
  String.compare s1 s2 = Lt -> String.compare s2 s3 = Lt -> String.compare s1 s3 = Lt.
Proof.
  induction s1 as [|a s1 IH]; intros [|b s2] [|c s3]; simpl; try congruence.
  destruct (Ascii.compare a b) eqn:Eab; try discriminate;
  destruct (Ascii.compare b c) eqn:Ebc; try discriminate; intros H1 H2.
  - rewrite (ascii_compare_trans _ _ _ _ Eab Ebc). eauto.
  - apply Ascii.compare_eq_iff in Eab. subst. now rewrite Ebc.
  - apply Ascii.compare_eq_iff in Ebc. subst. now rewrite Eab.
  - now rewrite (ascii_compare_trans _ _ _ _ Eab Ebc).
Qed.

Lemma str_le_refl s : Py.str_le s s = true.
Proof. unfold Py.str_le, String.leb. now rewrite string_compare_refl. Qed.

Lemma str_le_trans a b c :
  Py.str_le a b = true -> Py.str_le b c = true -> Py.str_le a c = true.
Proof.
  unfold Py.str_le, String.leb.
  destruct (String.compare a b) eqn:Eab; try discriminate;
  destruct (String.compare b c) eqn:Ebc; try discriminate; intros _ _.
  - apply String.compare_eq_iff in Eab, Ebc. subst. now rewrite string_compare_refl.
  - apply String.compare_eq_iff in Eab. subst. now rewrite Ebc.
  - apply String.compare_eq_iff in Ebc. subst. now rewrite Eab.
  - now rewrite (string_compare_lt_trans _ _ _ Eab Ebc).
Qed.

Lemma str_le_total a b : Py.str_le a b = true \/ Py.str_le b a = true.
Proof. apply String.leb_total. Qed.

Lemma str_le_antisym a b :
  Py.str_le a b = true -> Py.str_le b a = true -> a = b.
Proof. apply String.leb_antisym. Qed.

Section SortedFacts.
Variable A : Type.
Variable key : A -> string.

Lemma insert_sorted_perm x l : Permutation (x :: l) (Py.insert_sorted key x l).
Proof.
  induction l as [|y l IH]; simpl; [reflexivity|].
  destruct (Py.str_le (key x) (key y)); [reflexivity|].
  rewrite perm_swap. now constructor.
Qed.

Lemma sorted_perm l : Permutation l (Py.sorted key l).
Proof.
  induction l as [|x l IH]; simpl; [constructor|].
  rewrite <- insert_sorted_perm. now constructor.
Qed.

Lemma insert_sorted_sorted x l :
  StronglySorted (Py.key_le key) l -> StronglySorted (Py.key_le key) (Py.insert_sorted key x l).
Proof.
  induction 1 as [|y l Hs IH Hall]; simpl.
  - repeat constructor.
  - destruct (Py.str_le (key x) (key y)) eqn:E.
    + constructor; [now constructor|]. constructor; [exact E|].
      eapply Forall_impl; [|exact Hall]. intros z Hz.
      unfold Py.key_le in *. eapply str_le_trans; eauto.
    + constructor; [exact IH|].
      apply (Permutation_Forall (insert_sorted_perm x l)).
      constructor; [|exact Hall].
      destruct (str_le_total (key x) (key y)) as [H|H]; [congruence|exact H].
Qed.

Lemma sorted_sorted l : StronglySorted (Py.key_le key) (Py.sorted key l).
Proof.
  induction l as [|x l IH]; simpl; [constructor|].
  now apply insert_sorted_sorted.
Qed.

Lemma strongly_sorted_split l1 x l2 y l3 :
  StronglySorted (Py.key_le key) (l1 ++ x :: l2 ++ y :: l3) -> Py.key_le key x y.
Proof.
  induction l1 as [|z l1 IH]; simpl; intros H.
  - inversion H as [|? ? _ Hall]; subst.
    rewrite Forall_forall in Hall. apply Hall.
    apply in_or_app. right. now left.
  - inversion H; subst. auto.
Qed.

Lemma sorted_order l l1 x l2 y l3 :
  Py.sorted key l = l1 ++ x :: l2 ++ y :: l3 -> Py.key_le key x y.
Proof.
  intros E. apply (strongly_sorted_split l1 x l2 y l3). rewrite <- E. apply sorted_sorted.
Qed.
End SortedFacts.

Section SortedMap.
Variables A B : Type.
Variable g : A -> B.
Variable keyA : A -> string.
Variable keyB : B -> string.
Hypothesis key_g : forall a, keyB (g a) = keyA a.

Lemma insert_sorted_map x l :
  Py.insert_sorted keyB (g x) (map g l) = map g (Py.insert_sorted keyA x l).
Proof.
  induction l as [|y l IH]; simpl; [reflexivity|].
  rewrite !key_g. destruct (Py.str_le (keyA x) (keyA y)); simpl; [reflexivity|].
  now rewrite IH.
Qed.

Lemma sorted_map l : Py.sorted keyB (map g l) = map g (Py.sorted keyA l).
Proof.
  induction l as [|x l IH]; simpl; [reflexivity|].
  now rewrite IH, insert_sorted_map.
Qed.
End SortedMap.

(* ================================================================== *)
(** * The type renderer *)
(* ================================================================== *)

Example render_optional :
  type_to_code_str (Union [Class "float"; NoneType]) = "Optional[float]".
Proof. reflexivity. Qed.

Example render_union3 :
  type_to_code_str (Union [Class "int"; Class "str"; NoneType])
  = "Union[int, str, None]".
Proof. reflexivity. Qed.

Example render_nested :
  type_to_code_str
    (Generic (OClass "builtins" "list") [Union [NoneType; Dict (Class "str") AnyType]])
  = "list[Optional[Dict[str, Any]]]".
Proof. reflexivity. Qed.

Example imports_nested :
  get_typing_imports
    (Generic (OClass "builtins" "list") [Union [NoneType; Dict (Class "str") AnyType]])
  = ["Optional"; "Dict"; "Any"].
Proof. reflexivity. Qed.

(** The comprehension of the [Union] branch: the arguments that pass the
    filter, rendered in order. *)
Lemma union_comprehension (which_union : bool) (args : list ann) :
  (fix comprehension (l : list ann) : list string :=
     match l with
     | [] => []
     | arg :: l' =>
         if which_union || negb (is_NoneType arg)
         then type_to_code_str arg :: comprehension l'
         else comprehension l'
     end) args
  = map type_to_code_str
      (filter (fun arg => which_union || negb (is_NoneType arg)) args).
Proof.
  induction args as [|a args IH]; [reflexivity|].
  cbn [filter]. destruct (which_union || negb (is_NoneType a)).
  - cbn [map]. now rewrite <- IH.
  - exact IH.
Qed.

Lemma filter_all_true {A : Type} (l : list A) : filter (fun _ => true) l = l.
Proof. induction l as [|a l IH]; simpl; [reflexivity|]. now rewrite IH. Qed.

Lemma is_optional_three (args : list ann) :
  3 <= List.length args -> is_optional args = false.
Proof.
  intros H. unfold is_optional.
  destruct (Nat.eqb_spec (List.length args) 2); [lia|]. apply andb_false_r.
Qed.

Lemma render_plain_union (args : list ann) :
  is_optional args = false ->
  type_to_code_str (Union args)
  = "Union[" +++ Py.join ", " (map type_to_code_str args) +++ "]".
Proof.
  intros H. cbn [type_to_code_str]. rewrite H. cbn [negb].
  rewrite union_comprehension. cbn [orb]. now rewrite filter_all_true.
Qed.

(** C2: a union of two variants, one of them the absence type, renders as
    [Optional[<inner>]] without the absence type; a union of three or more
    variants, or of two variants none of which is the absence type, renders
    as [Union[...]] listing every variant in order, the absence type
    rendering as [None]. *)
Theorem type_to_code_str_union (args : list ann) :
  (forall inner,
      is_NoneType inner = false ->
      args = [inner; NoneType] \/ args = [NoneType; inner] ->
      type_to_code_str (Union args)
      = "Optional[" +++ type_to_code_str inner +++ "]")
  /\ (3 <= List.length args
      \/ (List.length args = 2 /\ existsb is_NoneType args = false) ->
      type_to_code_str (Union args)
      = "Union[" +++ Py.join ", " (map type_to_code_str args) +++ "]")
  /\ type_to_code_str NoneType = "None".
Proof.
  split; [|split; [|reflexivity]].
  - intros inner Hinner [-> | ->]; cbn [type_to_code_str];
      unfold is_optional; cbn [existsb is_NoneType List.length Nat.eqb];
      rewrite Hinner; reflexivity.
  - intros [H | [H1 H2]]; apply render_plain_union.
    + now apply is_optional_three.
    + unfold is_optional. now rewrite H2.
Qed.

Lemma type_to_code_str_union_witness :
  type_to_code_str (Union [Class "float"; NoneType]) = "Optional[float]"
  /\ type_to_code_str (Union [Class "int"; NoneType; Class "str"])
     = "Union[int, None, str]".
Proof.
  split.
  - apply (proj1 (type_to_code_str_union [Class "float"; NoneType]) (Class "float")).
    + reflexivity.
    + left. reflexivity.
  - apply (proj1 (proj2 (type_to_code_str_union
                           [Class "int"; NoneType; Class "str"]))).
    left. simpl. lia.
Defined.

(* ================================================================== *)
(** * The section registry *)
(* ================================================================== *)

Section DictFacts.
Variable V : Type.

Lemma get_set_same (d : Py.dict V) k v : Py.get (Py.set d k v) k = Some v.
Proof.
  induction d as [|[k' v'] d IH]; simpl.
  - now rewrite String.eqb_refl.
  - destruct (String.eqb k k') eqn:E; simpl; rewrite E; [reflexivity|exact IH].
Qed.

Lemma get_set_other (d : Py.dict V) k k' v :
  k' <> k -> Py.get (Py.set d k v) k' = Py.get d k'.
Proof.
  intros Hne. induction d as [|[k0 v0] d IH]; simpl.
  - destruct (String.eqb_spec k' k); [contradiction|reflexivity].
  - destruct (String.eqb_spec k k0); simpl.
    + subst. destruct (String.eqb_spec k' k0); [contradiction|reflexivity].
    + destruct (String.eqb k' k0); [reflexivity|exact IH].
Qed.

Lemma set_present (d : Py.dict V) k v :
  Py.get d k = Some v -> Py.set d k v = d.
Proof.
  induction d as [|[k0 v0] d IH]; simpl; [discriminate|].
  destruct (String.eqb_spec k k0).
  - intros [= ->]. now subst.
  - intros H. now rewrite IH.
Qed.

Lemma keys_set_absent (d : Py.dict V) k v :
  Py.get d k = None -> Py.set d k v = d ++ [(k, v)].
Proof.
  induction d as [|[k0 v0] d IH]; simpl; [reflexivity|].
  destruct (String.eqb k k0); [discriminate|]. intros H. now rewrite IH.
Qed.
End DictFacts.

(** C3: registering at a path that is present raises a [ValueError] whose
    arguments carry the new definition and the prior owner, and leaves the
    registry as it was; registering at a path that is absent succeeds and
    binds the path to the definition (appended after the existing entries,
    every other path keeping its binding). *)
Theorem config_class_register (g : globals) (name : string) (c : pyclass) :
  (forall prior,
      Py.get (_name_to_config g) name = Some prior ->
      config_class name c g
      = (g, Raise (ValueError [EStr "Redefining"; EStr name;
                               EStr "is not allowed; found"; ECls (cls_type c);
                               EStr "and"; ECls (cls_type prior)])))
  /\ (Py.get (_name_to_config g) name = None ->
      exists g',
        config_class name c g = (g', Ok c)
        /\ _name_to_config g' = _name_to_config g ++ [(name, c)]
        /\ Py.get (_name_to_config g') name = Some c
        /\ (forall other, other <> name ->
              Py.get (_name_to_config g') other = Py.get (_name_to_config g) other)
        /\ _Config_cls g' = _Config_cls g).
Proof.
  unfold config_class. split.
  - intros prior H. now rewrite H.
  - intros H. rewrite H. eexists. split; [reflexivity|]. cbn.
    repeat split.
    + now apply keys_set_absent.
    + apply get_set_same.
    + intros other Hne. now apply get_set_other.
Qed.

Lemma config_class_register_witness :
  config_class "db" Http
    {| _name_to_config := [("db", Config_class)]; _Config_cls := None |}
  = ({| _name_to_config := [("db", Config_class)]; _Config_cls := None |},
     Raise (ValueError [EStr "Redefining"; EStr "db";
                        EStr "is not allowed; found"; ECls (cls_type Http);
                        EStr "and"; ECls (cls_type Config_class)]))
  /\ exists g',
       config_class "db" Http globals_empty = (g', Ok Http)
       /\ _name_to_config g' = [("db", Http)].
Proof.
  split.
  - apply (proj1 (config_class_register
                    {| _name_to_config := [("db", Config_class)];
                       _Config_cls := None |} "db" Http)).
    reflexivity.
  - destruct (proj2 (config_class_register globals_empty "db" Http) eq_refl)
      as (g' & Hrun & Hreg & _).
    exists g'. split; [exact Hrun|exact Hreg].
Defined.

(* ================================================================== *)
(** * The discovery visitor *)
(* ================================================================== *)

Lemma fold_decorators (p : expr -> bool) (decs : list expr) (s : bool) :
  fold_left (fun s dec => if p dec then true else s) decs s = s || existsb p decs.
Proof.
  revert s. induction decs as [|d decs IH]; intros s; simpl.
  - now rewrite orb_false_r.
  - rewrite IH. destruct (p d), s; reflexivity.
Qed.

Lemma fold_children (body : list stmt) (s : bool) :
  Forall (fun c => forall s, visit c s = s || has_class_with is_config_class_call c)
    body ->
  fold_left (fun s child => visit child s) body s
  = s || existsb (has_class_with is_config_class_call) body.
Proof.
  intros H. revert s. induction H as [|c body Hc _ IH]; intros s; simpl.
  - now rewrite orb_false_r.
  - rewrite IH, Hc. now rewrite orb_assoc.
Qed.

Lemma visit_marks (node : stmt) :
  forall s, visit node s = s || has_class_with is_config_class_call node.
Proof.
  induction node as [name bases keywords body decs IH | exprs body IH]
    using stmt_nested_ind; intros s; cbn [visit has_class_with].
  - rewrite (fold_children body _ IH), fold_decorators. now rewrite orb_assoc.
  - now rewrite (fold_children body _ IH).
Qed.

Lemma is_config_class_call_shape (dec : expr) :
  is_config_class_call dec = true
  <-> exists c keywords, dec = Call (Name "config_class") [Constant c] keywords.
Proof.
  split.
  - destruct dec as [func args keywords| | |]; try discriminate.
    destruct func as [| id | |]; try discriminate.
    destruct args as [|a [|b args]]; try discriminate;
      destruct a; try discriminate.
    simpl. intros H. apply String.eqb_eq in H. subst. eauto.
  - intros (c & keywords & ->). reflexivity.
Qed.

(** C8, as the code has it: a file is marked for loading exactly when some
    class declaration in it, at any depth, has a decorator that calls the
    bare name [config_class] with exactly one positional argument that is a
    literal constant of any kind; keyword arguments are not looked at.  Every
    other decorator is a non-match, and the visit, being a total function of
    the syntax tree, raises nothing. *)
Theorem visit_module_marks (self : StubMaker) (file : list stmt) :
  _should_import (visit_module self file)
  = existsb (has_class_with is_config_class_call) file
  /\ (forall dec,
        is_config_class_call dec = true
        <-> exists c keywords,
              dec = Call (Name "config_class") [Constant c] keywords).
Proof.
  split; [|exact is_config_class_call_shape].
  unfold visit_module; cbn [_should_import].
  rewrite fold_children; [reflexivity|].
  apply Forall_forall. intros c _. apply visit_marks.
Qed.

Lemma visit_module_marks_witness :
  _should_import
    (visit_module (StubMaker_init "config.py" false)
       [OtherStmt [] [ClassDef "Inner" [] [] []
                        [Call (Name "config_class") [Constant (CStr "a.b")] []]]])
  = true.
Proof.
  rewrite (proj1 (visit_module_marks _ _)). reflexivity.
Defined.

(** C8 as stated fails: a class decorated with [@config_class(42)] marks its
    file although no class in it carries the marker with a string literal. *)
Lemma visit_module_numeric_literal :
  _should_import
    (visit_module (StubMaker_init "config.py" false) file_numeric_marker) = true
  /\ existsb (has_class_with is_string_marker) file_numeric_marker = false.
Proof. split; reflexivity. Qed.

(* ================================================================== *)
(** * The stub emitter *)
(* ================================================================== *)

(** [f] in the shape of the source: the header, then the entries in sorted
    order, leaves as field lines and nested dicts through [f] one level
    deeper, then the placeholder of an empty block. *)
Lemma f_eq (name : string) (d : list (string * node)) (indentlevel : nat) :
  f name d indentlevel
  = Py.indent indentlevel +++ "class " +++ name +++ ":" +++ Py.nl +++
    str_concat (map (entry indentlevel) (Py.sorted sort_key d)) +++
    match d with
    | [] => Py.indent (indentlevel + 1) +++ "..." +++ Py.nl
    | _ => EmptyString
    end.
Proof.
  unfold f. cbn [emit].
  rewrite (sorted_map _ _ (fun kv => (kv, emit (fst kv) (snd kv)))
             sort_key (fun e => sort_key (fst e))) by reflexivity.
  rewrite map_map.
  rewrite (map_ext _ (entry indentlevel)); [reflexivity|].
  intros [k v]. unfold entry. cbn [fst snd]. destruct v; reflexivity.
Qed.

Lemma in_precedes {A : Type} (x y : A) (l : list A) :
  In x l -> In y l -> x <> y -> precedes x y l \/ precedes y x l.
Proof.
  intros Hx Hy Hne. apply in_split in Hx. destruct Hx as (l1 & l2 & ->).
  apply in_app_or in Hy. destruct Hy as [Hy | [Hy | Hy]].
  - right. apply in_split in Hy. destruct Hy as (m1 & m2 & ->).
    exists m1, m2, l2. now rewrite <- app_assoc.
  - congruence.
  - left. apply in_split in Hy. destruct Hy as (m1 & m2 & ->).
    exists l1, m1, m2. reflexivity.
Qed.

Lemma above_marker_key (x y : string * node) :
  is_leaf x = true -> is_leaf y = false -> above_marker (fst y) = true ->
  Py.str_le (sort_key y) (sort_key x) = false.
Proof.
  destruct x as [kx vx], y as [ky vy]; unfold is_leaf, sort_key; cbn [fst snd].
  destruct vx; [|discriminate]. destruct vy; [discriminate|]. intros _ _.
  destruct ky as [|c ky]; [discriminate|]. cbn [above_marker].
  unfold Py.str_le, String.leb, Ascii.ltb. cbn [String.append String.compare].
  rewrite (Ascii.compare_antisym c).
  destruct (Ascii.compare "_" c); cbn [CompOpp]; congruence.
Qed.

Lemma leaf_keys_le (x y : string * node) :
  is_leaf x = true -> is_leaf y = true ->
  Py.str_le (sort_key x) (sort_key y) = Py.str_le (fst x) (fst y).
Proof.
  destruct x as [kx vx], y as [ky vy]; unfold is_leaf, sort_key; cbn [fst snd].
  destruct vx; [|discriminate]. destruct vy; [|discriminate]. intros _ _.
  unfold Py.str_le, String.leb. cbn [String.append String.compare].
  now rewrite ascii_compare_refl.
Qed.

Lemma namespace_keys_le (x y : string * node) :
  is_leaf x = false -> is_leaf y = false ->
  Py.str_le (sort_key x) (sort_key y) = Py.str_le (fst x) (fst y).
Proof.
  destruct x as [kx vx], y as [ky vy]; unfold is_leaf, sort_key; cbn [fst snd].
  destruct vx; [discriminate|]. destruct vy; [discriminate|]. reflexivity.
Qed.

(** C1, as the code has it: a block is written as its header followed by its
    entries in ascending order of sort key, each entry once, a leaf shown
    under its own name (the marker is part of the sort key only).  Leaves are
    in ascending order of name, nested namespaces are in ascending order of
    name, and every namespace whose name starts with a character above the
    underscore comes after every leaf of the block. *)
Theorem f_block_order (name : string) (d : list (string * node)) (indentlevel : nat) :
  let block := Py.sorted sort_key d in
  f name d indentlevel
  = Py.indent indentlevel +++ "class " +++ name +++ ":" +++ Py.nl +++
    str_concat (map (entry indentlevel) block) +++
    match d with
    | [] => Py.indent (indentlevel + 1) +++ "..." +++ Py.nl
    | _ => EmptyString
    end
  /\ Permutation d block
  /\ (forall k type_ docstring,
        entry indentlevel (k, ConfigAttr type_ docstring)
        = Py.indent (indentlevel + 1) +++ k +++ ": " +++ type_ +++ Py.nl +++
          match docstring with
          | EmptyString => EmptyString
          | _ => Py.indent (indentlevel + 1) +++ dq +++ dq +++ dq +++ docstring
                   +++ dq +++ dq +++ dq +++ Py.nl
          end)
  /\ (forall x y, precedes x y block ->
        Py.str_le (sort_key x) (sort_key y) = true)
  /\ (forall x y, precedes x y block -> is_leaf x = true -> is_leaf y = true ->
        Py.str_le (fst x) (fst y) = true)
  /\ (forall x y, precedes x y block -> is_leaf x = false -> is_leaf y = false ->
        Py.str_le (fst x) (fst y) = true)
  /\ (forall x y, In x d -> In y d ->
        is_leaf x = true -> is_leaf y = false -> above_marker (fst y) = true ->
        precedes x y block).
Proof.
  intros block. split; [apply f_eq|]. split; [apply sorted_perm|].
  split; [reflexivity|]. split; [|split; [|split]].
  - intros x y (l1 & l2 & l3 & E).
    exact (sorted_order _ sort_key d l1 x l2 y l3 E).
  - intros x y (l1 & l2 & l3 & E) Hx Hy.
    rewrite <- leaf_keys_le by assumption.
    exact (sorted_order _ sort_key d l1 x l2 y l3 E).
  - intros x y (l1 & l2 & l3 & E) Hx Hy.
    rewrite <- namespace_keys_le by assumption.
    exact (sorted_order _ sort_key d l1 x l2 y l3 E).
  - intros x y Hx Hy Lx Ly Hy'.
    assert (Hne : x <> y) by (intros ->; congruence).
    destruct (in_precedes x y block) as [H | (l1 & l2 & l3 & E)]; auto.
    + apply (Permutation_in _ (sorted_perm _ sort_key d)), Hx.
    + apply (Permutation_in _ (sorted_perm _ sort_key d)), Hy.
    + pose proof (sorted_order _ sort_key d l1 y l2 x l3 E) as Hle.
      unfold Py.key_le in Hle. rewrite above_marker_key in Hle by assumption.
      discriminate.
Qed.

Lemma f_block_order_witness :
  precedes ("port", ConfigAttr "int" EmptyString)
           ("http", Namespace [("timeout", ConfigAttr "float" EmptyString)])
    (Py.sorted sort_key
       [("http", Namespace [("timeout", ConfigAttr "float" EmptyString)]);
        ("port", ConfigAttr "int" EmptyString)]).
Proof.
  apply (proj2 (proj2 (proj2 (proj2 (proj2 (proj2
    (f_block_order "net"
       [("http", Namespace [("timeout", ConfigAttr "float" EmptyString)]);
        ("port", ConfigAttr "int" EmptyString)] 1))))))).
  - right. left. reflexivity.
  - left. reflexivity.
  - reflexivity.
  - reflexivity.
  - reflexivity.
Defined.

(** C1 as stated fails: in the block of [tree_upper_case] the namespace
    [Net] is written before the leaf [debug]. *)
Lemma f_namespace_before_leaf :
  f "Config" tree_upper_case 0
  = "class Config:" +++ Py.nl +++
    "    class Net:" +++ Py.nl +++
    "        port: int" +++ Py.nl +++
    "    debug: bool" +++ Py.nl
  /\ Py.sorted sort_key tree_upper_case
     = [("Net", Namespace [("port", ConfigAttr "int" EmptyString)]);
        ("debug", ConfigAttr "bool" EmptyString)]
  /\ ~ (forall x y, In x tree_upper_case -> In y tree_upper_case ->
          is_leaf x = true -> is_leaf y = false ->
          precedes x y (Py.sorted sort_key tree_upper_case)).
Proof.
  split; [reflexivity|]. split; [reflexivity|].
  intros H.
  destruct (H ("debug", ConfigAttr "bool" EmptyString)
              ("Net", Namespace [("port", ConfigAttr "int" EmptyString)]))
    as (l1 & l2 & l3 & E); try reflexivity.
  - left. reflexivity.
  - right. left. reflexivity.
  - cbv in E.
    destruct l1 as [|a [|b l1]]; try discriminate.
    + destruct l2 as [|c l2]; discriminate.
    + cbn in E. injection E as _ E. destruct l1; discriminate.
Qed.

(* ================================================================== *)
(** * The schema-tree builder *)
(* ================================================================== *)

Lemma get_some_in_keys {V : Type} (d : Py.dict V) (k : string) :
  In k (Py.keys d) <-> Py.get d k <> None.
Proof.
  induction d as [|[k0 v0] d IH]; simpl.
  - split; [tauto|congruence].
  - destruct (String.eqb_spec k k0).
    + split; [congruence|auto].
    + rewrite <- IH. split; [intros [H|H]; [congruence|exact H]|auto].
Qed.

Lemma get_in {V : Type} (d : Py.dict V) (k : string) (v : V) :
  Py.get d k = Some v -> In (k, v) d.
Proof.
  induction d as [|[k0 v0] d IH]; simpl; [discriminate|].
  destruct (String.eqb_spec k k0).
  - intros [= ->]. subst. now left.
  - auto.
Qed.

Lemma get_nodup_in {V : Type} (d : Py.dict V) (k : string) (v : V) :
  NoDup (Py.keys d) -> In (k, v) d -> Py.get d k = Some v.
Proof.
  induction d as [|[k0 v0] d IH]; simpl; [tauto|].
  intros Hnd [H | H].
  - injection H as -> ->. now rewrite String.eqb_refl.
  - inversion Hnd as [|? ? Hnotin Hnd']; subst.
    destruct (String.eqb_spec k k0).
    + subst. exfalso. apply Hnotin. apply (in_map fst) in H. exact H.
    + auto.
Qed.

Lemma in_dir (attrs : list (string * value)) (name : string) :
  In name (dir attrs) <-> Py.get attrs name <> None.
Proof.
  unfold dir. rewrite <- get_some_in_keys. split; intros H.
  - eapply Permutation_in; [symmetry; apply sorted_perm|exact H].
  - eapply Permutation_in; [apply sorted_perm|exact H].
Qed.

(** The first loop, run over any list of names the class has. *)
Lemma infer_loop (cobj : pyclass) (names : list string) :
  Forall (fun n => Py.get (cls_attrs cobj) n <> None) names ->
  forall items imps timps,
  exists items',
    for_each names (infer_attr cobj (docstrings_of cobj))
      {| attr_dict := Namespace items; imports := imps; typing_imports := timps |}
    = Ok {| attr_dict := Namespace items';
            imports := imps ++ flat_map (inferred_import cobj) names;
            typing_imports := timps |}
    /\ forall name,
         Py.get items' name
         = match Py.get (cls_attrs cobj) name with
           | Some v =>
               if existsb (String.eqb name) names && negb (Py.startswith "__" name)
               then Some (ConfigAttr (ty_name (type_of v))
                            (docstring (docstrings_of cobj) name))
               else Py.get items name
           | None => Py.get items name
           end.
Proof.
  induction 1 as [|n names Hn _ IH]; intros items imps timps.
  - exists items. cbn [for_each flat_map]. rewrite app_nil_r. split; [reflexivity|].
    intros name. cbn [existsb andb]. now destruct (Py.get (cls_attrs cobj) name).
  - cbn [for_each flat_map]. unfold infer_attr at 1, inferred_import at 1.
    destruct (Py.startswith "__" n) eqn:Edunder.
    + cbn [bind]. destruct (IH items imps timps) as (items' & Hrun & Hget).
      exists items'. split; [exact Hrun|].
      intros name. rewrite Hget. cbn [existsb].
      destruct (Py.get (cls_attrs cobj) name); [|reflexivity].
      destruct (String.eqb_spec name n); [|reflexivity].
      subst. rewrite Edunder. cbn. now rewrite andb_false_r.
    + destruct (Py.get (cls_attrs cobj) n) as [v|] eqn:Ev; [|contradiction].
      cbn [setitem attr_dict bind imports typing_imports].
      match goal with
      | |- context [for_each names _ {| attr_dict := Namespace ?i; imports := ?m;
                                        typing_imports := _ |}] =>
          destruct (IH i m timps) as (items' & Hrun & Hget)
      end.
      exists items'. split.
      * rewrite Hrun. f_equal. f_equal.
        destruct (String.eqb (ty_module (type_of v)) "builtins");
          cbn [app]; [reflexivity|now rewrite <- app_assoc].
      * intros name. rewrite Hget. cbn [existsb].
        destruct (String.eqb_spec name n).
        -- subst. rewrite Ev, Edunder. cbn [orb negb andb].
           rewrite get_set_same.
           now destruct (existsb (String.eqb n) names).
        -- cbn [orb]. rewrite get_set_other by assumption. reflexivity.
Qed.

Lemma existsb_eqb_in (name : string) (names : list string) :
  existsb (String.eqb name) names = true <-> In name names.
Proof.
  rewrite existsb_exists. split.
  - intros (x & Hin & E). apply String.eqb_eq in E. now subst.
  - intros H. exists name. split; [exact H|apply String.eqb_refl].
Qed.

(** The first loop over [dir(cobj)]. *)
Lemma infer_loop_dir (cobj : pyclass) (items : list (string * node))
    (imps timps : list string) :
  exists items',
    for_each (dir (cls_attrs cobj)) (infer_attr cobj (docstrings_of cobj))
      {| attr_dict := Namespace items; imports := imps; typing_imports := timps |}
    = Ok {| attr_dict := Namespace items';
            imports := imps ++ inferred_imports cobj;
            typing_imports := timps |}
    /\ (forall name,
          Py.get items' name
          = match Py.get (cls_attrs cobj) name with
            | Some v =>
                if Py.startswith "__" name then Py.get items name
                else Some (ConfigAttr (ty_name (type_of v))
                             (docstring (docstrings_of cobj) name))
            | None => Py.get items name
            end).
Proof.
  destruct (infer_loop cobj (dir (cls_attrs cobj))) with (items := items)
    (imps := imps) (timps := timps) as (items' & Hrun & Hget).
  { apply Forall_forall. intros n Hn. now apply in_dir. }
  exists items'. split; [exact Hrun|].
  intros name. rewrite Hget.
  destruct (Py.get (cls_attrs cobj) name) as [v|] eqn:Ev; [|reflexivity].
  assert (Hin : existsb (String.eqb name) (dir (cls_attrs cobj)) = true).
  { apply existsb_eqb_in, in_dir. congruence. }
  rewrite Hin. cbn [andb]. now destruct (Py.startswith "__" name).
Qed.

Lemma inferred_imports_spec (cobj : pyclass) (line : string) :
  In line (inferred_imports cobj)
  <-> exists name v,
        Py.get (cls_attrs cobj) name = Some v
        /\ Py.startswith "__" name = false
        /\ ty_module (type_of v) <> "builtins"
        /\ line = import_line (ty_module (type_of v)) (ty_name (type_of v)).
Proof.
  unfold inferred_imports. rewrite in_flat_map. split.
  - intros (name & Hin & Hline). unfold inferred_import in Hline.
    destruct (Py.startswith "__" name) eqn:Ed; [contradiction|].
    destruct (Py.get (cls_attrs cobj) name) as [v|] eqn:Ev; [|contradiction].
    destruct (String.eqb_spec (ty_module (type_of v)) "builtins");
      [contradiction|].
    destruct Hline as [<- | []]. exists name, v. auto.
  - intros (name & v & Ev & Ed & Hm & ->). exists name. split.
    + apply in_dir. congruence.
    + unfold inferred_import. rewrite Ed, Ev.
      destruct (String.eqb_spec (ty_module (type_of v)) "builtins");
        [contradiction|now left].
Qed.

Example inferred_fields_Http :
  for_each (dir (cls_attrs Http)) (infer_attr Http (docstrings_of Http))
    {| attr_dict := Namespace []; imports := []; typing_imports := [] |}
  = Ok {| attr_dict :=
            Namespace [("port", ConfigAttr "int" "Port to listen on.");
                       ("root", ConfigAttr "PosixPath" EmptyString)];
          imports := ["from pathlib import PosixPath"];
          typing_imports := [] |}.
Proof. reflexivity. Qed.

(** The second loop on a dict: every annotated name ends up with the type
    text of its annotation. *)
Lemma declare_loop (ds : Py.dict string) (l : list (string * annotation)) :
  NoDup (Py.keys l) ->
  forall a a' items,
    attr_dict a = Namespace items ->
    for_each l (declare_attr ds) a = Ok a' ->
    exists items',
      attr_dict a' = Namespace items'
      /\ forall name,
           Py.get items' name
           = match Py.get l name with
             | Some t => Some (ConfigAttr (annotation_type t) (docstring ds name))
             | None => Py.get items name
             end.
Proof.
  induction l as [|[n t] l IH]; intros Hnd a a' items Ha Hrun.
  - cbn in Hrun. injection Hrun as <-. exists items. split; [exact Ha|reflexivity].
  - inversion Hnd as [|? ? Hnotin Hnd']; subst.
    cbn [for_each] in Hrun. unfold declare_attr at 1 in Hrun.
    unfold annotation_type in *.
    destruct (annotation_names t) as [[tname iname] timports] eqn:En.
    rewrite Ha in Hrun. cbn [setitem bind] in Hrun.
    destruct (annotation_module t) as [m|e]; [|discriminate].
    cbn [bind] in Hrun.
    eapply IH in Hrun; [|exact Hnd'|reflexivity].
    destruct Hrun as (items' & Ha' & Hget). exists items'. split; [exact Ha'|].
    intros name. rewrite Hget. cbn [Py.get].
    destruct (String.eqb_spec name n).
    + subst. destruct (Py.get l n) eqn:El.
      * exfalso. apply Hnotin. apply get_some_in_keys. congruence.
      * rewrite get_set_same. now rewrite En.
    + destruct (Py.get l name); [reflexivity|].
      now rewrite get_set_other.
Qed.

(** On a [ConfigAttr] the second loop raises as soon as it has an entry. *)
Lemma declare_loop_tuple (ds : Py.dict string) (l : list (string * annotation))
    (a : acc) (type_ docstring_ : string) :
  attr_dict a = ConfigAttr type_ docstring_ -> l <> [] ->
  for_each l (declare_attr ds) a = Raise TypeError.
Proof.
  intros Ha Hl. destruct l as [|[n t] l]; [contradiction|].
  cbn [for_each]. unfold declare_attr.
  destruct (annotation_names t) as [[tname iname] timports].
  rewrite Ha. reflexivity.
Qed.

(** The first loop keeps a dict a dict and a tuple a tuple. *)
Lemma infer_loop_shape (cobj : pyclass) (ds : Py.dict string) (names : list string) :
  forall a a',
    for_each names (infer_attr cobj ds) a = Ok a' ->
    match attr_dict a with
    | Namespace _ => exists items', attr_dict a' = Namespace items'
    | ConfigAttr _ _ => attr_dict a' = attr_dict a
    end.
Proof.
  induction names as [|n names IH]; intros a a' Hrun.
  - cbn in Hrun. injection Hrun as <-. destruct (attr_dict a); eauto.
  - cbn [for_each] in Hrun. unfold infer_attr at 1 in Hrun.
    destruct (Py.startswith "__" n).
    + cbn [bind] in Hrun. now apply IH.
    + destruct (Py.get (cls_attrs cobj) n) as [v|]; [|discriminate].
      destruct (attr_dict a) as [ty doc|items] eqn:Ha; [discriminate|].
      cbn [setitem bind] in Hrun. apply IH in Hrun. exact Hrun.
Qed.

Lemma section_fields_declared (cobj : pyclass) (a a' : acc) (x : string)
    (t : annotation) :
  NoDup (Py.keys (annotations_items cobj)) ->
  Py.get (annotations_items cobj) x = Some t ->
  section_fields cobj a = Ok a' ->
  exists items',
    attr_dict a' = Namespace items'
    /\ Py.get items' x
       = Some (ConfigAttr (annotation_type t) (docstring (docstrings_of cobj) x)).
Proof.
  intros Hnd Hx Hrun. unfold section_fields in Hrun.
  destruct (for_each (dir (cls_attrs cobj)) (infer_attr cobj (docstrings_of cobj)) a)
    as [a1|e] eqn:H1; [|discriminate].
  cbn [bind] in Hrun. pose proof (infer_loop_shape _ _ _ _ _ H1) as Hshape.
  destruct (attr_dict a1) as [ty doc|items1] eqn:Ha1.
  - rewrite (declare_loop_tuple _ _ _ ty doc Ha1) in Hrun; [discriminate|].
    intros E. rewrite E in Hx. discriminate.
  - destruct (declare_loop _ _ Hnd _ _ _ Ha1 Hrun) as (items' & Ha' & Hget).
    exists items'. split; [exact Ha'|]. now rewrite Hget, Hx.
Qed.

Lemma tree_get_app (d : node) (p q : list string) :
  tree_get d (p ++ q)
  = match tree_get d p with Some n => tree_get n q | None => None end.
Proof.
  revert d. induction p as [|k p IH]; intros d; [reflexivity|].
  cbn [app tree_get]. destruct d as [|items]; [reflexivity|].
  destruct (Py.get items k); [apply IH|reflexivity].
Qed.

(** What runs through the reference ends up at the path in the tree. *)
Lemma _recursive_dd_get_ok {B : Type} (keys : list string)
    (body : node -> result (node * B)) :
  forall d d' b,
    _recursive_dd_get d keys body = Ok (d', b) ->
    exists a0 a', body a0 = Ok (a', b) /\ tree_get d' keys = Some a'.
Proof.
  induction keys as [|k keys IH]; intros d d' b Hrun.
  - cbn in Hrun. exists d, d'. split; [exact Hrun|reflexivity].
  - cbn [_recursive_dd_get] in Hrun. destruct d as [|items]; [discriminate|].
    destruct (_recursive_dd_get
                match Py.get items k with Some c => c | None => Namespace [] end
                keys body) as [[child' b']|e] eqn:Hc; [|discriminate].
    cbn [bind] in Hrun. injection Hrun as <- <-.
    apply IH in Hc. destruct Hc as (a0 & a' & Hbody & Hget).
    exists a0, a'. split; [exact Hbody|].
    cbn [tree_get]. now rewrite get_set_same.
Qed.

(** The field a section's turn leaves under an annotated name. *)
Lemma add_section_declared (cname : string) (cobj : pyclass)
    (s s' : schema) (x : string) (t : annotation) :
  NoDup (Py.keys (annotations_items cobj)) ->
  Py.get (annotations_items cobj) x = Some t ->
  add_section (cname, cobj) s = Ok s' ->
  tree_get (fst (fst s')) (section_path cname ++ [x])
  = Some (ConfigAttr (annotation_type t) (docstring (docstrings_of cobj) x)).
Proof.
  intros Hnd Ht Hrun. destruct s as [[config imps] timps].
  unfold add_section in Hrun.
  match type of Hrun with
  | bind ?r _ = _ => destruct r as [[config' [imps' timps']]|e] eqn:Hget;
                       [|discriminate]
  end.
  cbn [bind] in Hrun. injection Hrun as <-. cbn [fst].
  apply _recursive_dd_get_ok in Hget. destruct Hget as (a0 & a' & Hbody & Hpath).
  destruct (section_fields cobj
              {| attr_dict := a0; imports := imps; typing_imports := timps |})
    as [a|e] eqn:Hfields; [|discriminate].
  cbn [bind] in Hbody. injection Hbody as <- _ _.
  destruct (section_fields_declared _ _ _ x t Hnd Ht Hfields) as (items' & Ha & Hx).
  rewrite tree_get_app, Hpath, Ha. cbn [tree_get]. now rewrite Hx.
Qed.

Example add_section_Http :
  add_section ("net.http", Http) (Namespace [], [], [])
  = Ok (Namespace
          [("net", Namespace
             [("http", Namespace
                [("port", ConfigAttr "float" "Port to listen on.");
                 ("root", ConfigAttr "PosixPath" EmptyString);
                 ("timeout", ConfigAttr "Optional[float]" EmptyString)])])],
        ["from pathlib import PosixPath"], ["Optional"]).
Proof. reflexivity. Qed.

(* ================================================================== *)
(** * Runtime helpers: the creative walk *)
(* ================================================================== *)

Lemma attrs_with_attr (o : value) (k : string) (v : value) :
  attrs_of (with_attr o k v) = Py.set (attrs_of o) k v.
Proof. now destruct o. Qed.

Lemma settable_with_attr (o : value) (k : string) (v : value) :
  settable_of (with_attr o k v) = settable_of o.
Proof. now destruct o. Qed.

Lemma type_with_attr (o : value) (k : string) (v : value) :
  type_of (with_attr o k v) = type_of o.
Proof. now destruct o. Qed.

Lemma getattr_with_attr_same (o : value) (k : string) (v : value) :
  getattr (with_attr o k v) k = Ok v.
Proof. unfold getattr. now rewrite attrs_with_attr, get_set_same. Qed.

Lemma with_attr_present (o : value) (k : string) (v : value) :
  Py.get (attrs_of o) k = Some v -> with_attr o k v = o.
Proof. destruct o as [t s p a]. cbn. intros H. now rewrite set_present. Qed.

Lemma hasattr_get (o : value) (k : string) :
  hasattr o k = match Py.get (attrs_of o) k with Some _ => true | None => false end.
Proof. reflexivity. Qed.

(** One step of the walk when more than one key is left. *)
Lemma walk_step (o : value) (k k2 : string) (ks : list string)
    (default : option pyclass) (v : value) :
  _recursive_creative_setattr o (k :: k2 :: ks) default v
  = (o1 <- (if hasattr o k then Ok o
            else (fresh <- call default ;; setattr o k fresh)) ;;
     child <- getattr o1 k ;;
     child' <- _recursive_creative_setattr child (k2 :: ks) default v ;;
     Ok (with_attr o1 k child')).
Proof. reflexivity. Qed.

Lemma walk_present (o c0 : value) (k : string) (ks : list string)
    (default : option pyclass) (v : value) :
  ks <> [] -> Py.get (attrs_of o) k = Some c0 ->
  _recursive_creative_setattr o (k :: ks) default v
  = (child' <- _recursive_creative_setattr c0 ks default v ;; Ok (with_attr o k child')).
Proof.
  intros Hks Hget. destruct ks as [|k2 ks]; [contradiction|].
  rewrite walk_step, hasattr_get, Hget. cbn [bind]. unfold getattr.
  now rewrite Hget.
Qed.

Lemma with_attr_twice (o : value) (k : string) (v w : value) :
  with_attr (with_attr o k v) k w = with_attr o k w.
Proof.
  destruct o as [t s p a]. cbn. f_equal.
  induction a as [|[k0 v0] a IH]; cbn.
  - now rewrite String.eqb_refl.
  - destruct (String.eqb_spec k k0); cbn.
    + subst. now rewrite String.eqb_refl.
    + destruct (String.eqb_spec k k0); [contradiction|]. now rewrite IH.
Qed.

Lemma walk_missing (o : value) (k : string) (ks : list string)
    (base : pyclass) (v : value) :
  ks <> [] -> Py.get (attrs_of o) k = None ->
  _recursive_creative_setattr o (k :: ks) (Some base) v
  = if settable_of o
    then (child' <- _recursive_creative_setattr (instantiate base) ks (Some base) v ;;
          Ok (with_attr o k child'))
    else Raise AttributeError.
Proof.
  intros Hks Hget. destruct ks as [|k2 ks]; [contradiction|].
  rewrite walk_step, hasattr_get, Hget. cbn [call bind]. unfold setattr.
  destruct (settable_of o); [|reflexivity]. cbn [bind].
  rewrite getattr_with_attr_same. cbn [bind].
  destruct (_recursive_creative_setattr (instantiate base) (k2 :: ks) (Some base) v); [|reflexivity].
  cbn [bind]. now rewrite with_attr_twice.
Qed.

Lemma accepts_step (o : value) (k k2 : string) (ks : list string)
    (base : pyclass) :
  accepts_walk o (k :: k2 :: ks) base
  = match Py.get (attrs_of o) k with
    | Some child => accepts_walk child (k2 :: ks) base
    | None => settable_of o && accepts_walk (instantiate base) (k2 :: ks) base
    end.
Proof. reflexivity. Qed.

Lemma walk_accepts (base : pyclass) (v : value) (keys : list string) :
  forall o,
    (exists o', _recursive_creative_setattr o keys (Some base) v = Ok o') <-> accepts_walk o keys base = true.
Proof.
  induction keys as [|k ks IH]; intros o.
  - cbn. split; [intros [o' H]; discriminate|discriminate].
  - destruct ks as [|k2 ks].
    + cbn. unfold setattr. destruct (settable_of o).
      * split; eauto.
      * split; [intros [o' H]; discriminate|discriminate].
    + assert (Hne : k2 :: ks <> []) by discriminate.
      rewrite accepts_step. destruct (Py.get (attrs_of o) k) as [c0|] eqn:Hget.
      * rewrite (walk_present _ c0) by assumption. rewrite <- IH.
        split; intros [o' H].
        -- destruct (_recursive_creative_setattr c0 (k2 :: ks) (Some base) v); [eauto|discriminate].
        -- rewrite H. cbn. eauto.
      * rewrite walk_missing by assumption.
        destruct (settable_of o); cbn [andb].
        -- rewrite <- IH. split; intros [o' H].
           ++ destruct (_recursive_creative_setattr (instantiate base) (k2 :: ks) (Some base) v);
                [eauto|discriminate].
           ++ rewrite H. cbn. eauto.
        -- split; [intros [o' H]; discriminate|discriminate].
Qed.

Lemma getattr_step (o : value) (k : string) (ks : list string) :
  ks <> [] ->
  _recursive_getattr o (k :: ks)
  = (child <- getattr o k ;; _recursive_getattr child ks).
Proof. intros H. destruct ks; [contradiction|reflexivity]. Qed.

Lemma walk_sets (default : option pyclass) (v : value) (keys : list string) :
  forall o o',
    _recursive_creative_setattr o keys default v = Ok o' ->
    _recursive_getattr o' keys = Ok v
    /\ (forall k', hd_error keys <> Some k' ->
          Py.get (attrs_of o') k' = Py.get (attrs_of o) k')
    /\ type_of o' = type_of o.
Proof.
  induction keys as [|k ks IH]; intros o o' Hrun; [discriminate|].
  destruct ks as [|k2 ks].
  - cbn in Hrun. unfold setattr in Hrun.
    destruct (settable_of o); [|discriminate]. injection Hrun as <-.
    split; [apply getattr_with_attr_same|]. split; [|apply type_with_attr].
    intros k' Hk'. rewrite attrs_with_attr. apply get_set_other.
    cbn in Hk'. congruence.
  - rewrite walk_step in Hrun.
    destruct (if hasattr o k then Ok o
              else (fresh <- call default ;; setattr o k fresh))
      as [o1|e] eqn:Ho1; [|discriminate].
    cbn [bind] in Hrun.
    destruct (getattr o1 k) as [child|e]; [|discriminate]. cbn [bind] in Hrun.
    destruct (_recursive_creative_setattr child (k2 :: ks) default v) as [child'|e] eqn:Hc;
      [|discriminate].
    cbn [bind] in Hrun. injection Hrun as <-.
    apply IH in Hc. destruct Hc as (Hget & _).
    assert (Ho1' : (forall k', k' <> k ->
                      Py.get (attrs_of o1) k' = Py.get (attrs_of o) k')
                   /\ type_of o1 = type_of o).
    { destruct (hasattr o k).
      - injection Ho1 as <-. auto.
      - destruct (call default) as [fresh|e]; [|discriminate].
        cbn [bind] in Ho1. unfold setattr in Ho1.
        destruct (settable_of o); [|discriminate]. injection Ho1 as <-.
        split; [|apply type_with_attr].
        intros k' Hk'. rewrite attrs_with_attr. now apply get_set_other. }
    destruct Ho1' as (Hframe & Hty).
    split; [|split].
    + rewrite getattr_step by discriminate.
      rewrite getattr_with_attr_same. exact Hget.
    + intros k' Hk'. rewrite attrs_with_attr.
      assert (k' <> k) by (cbn in Hk'; congruence).
      rewrite get_set_other by assumption. now apply Hframe.
    + now rewrite type_with_attr.
Qed.

(** C7, as the code has it: [update_config] handles the entries in order,
    and stops at the first walk that raises.  A walk succeeds exactly when
    the object that receives the final attribute, and every object that
    must receive a missing intermediate attribute, accept [setattr].  When
    it succeeds the final attribute holds the given value, whatever it held
    before; every other attribute of the instance is as it was; an
    intermediate attribute that was missing now holds the result of the
    remaining walk on a fresh instance of the generic base class, and one
    that was present holds the result of the remaining walk on its old
    value.  Updating ["a.b.c"] on an instance that accepts [setattr] and has
    no attribute [a] hangs two fresh base instances at [a] and [a.b] and
    sets [c] on the inner one. *)
Theorem update_config_walk (g : globals) (base : pyclass) :
  _Config_cls g = Some base ->
  (forall config, update_config g config [] = Ok config)
  /\ (forall config cname v rest,
        update_config g config ((cname, v) :: rest)
        = (config1 <- _recursive_creative_setattr config (Py.split_dot cname) (Some base) v ;;
           update_config g config1 rest))
  /\ (forall o keys v,
        (exists o', _recursive_creative_setattr o keys (Some base) v = Ok o')
        <-> accepts_walk o keys base = true)
  /\ (forall o keys v o',
        _recursive_creative_setattr o keys (Some base) v = Ok o' ->
        _recursive_getattr o' keys = Ok v
        /\ (forall k', hd_error keys <> Some k' ->
              Py.get (attrs_of o') k' = Py.get (attrs_of o) k')
        /\ type_of o' = type_of o)
  /\ (forall o k ks v o',
        ks <> [] -> hasattr o k = false ->
        _recursive_creative_setattr o (k :: ks) (Some base) v = Ok o' ->
        exists child,
          _recursive_creative_setattr (instantiate base) ks (Some base) v = Ok child
          /\ o' = with_attr o k child)
  /\ (forall o k ks v o',
        ks <> [] -> hasattr o k = true ->
        _recursive_creative_setattr o (k :: ks) (Some base) v = Ok o' ->
        exists old child,
          getattr o k = Ok old
          /\ _recursive_creative_setattr old ks (Some base) v = Ok child
          /\ o' = with_attr o k child)
  /\ (forall config v,
        settable_of config = true ->
        hasattr config "a" = false ->
        hasattr (instantiate base) "b" = false ->
        update_config g config [("a.b.c", v)]
        = Ok (with_attr config "a"
                (with_attr (instantiate base) "b"
                   (with_attr (instantiate base) "c" v)))).
Proof.
  intros Hbase. split; [reflexivity|]. split.
  { intros config cname v rest. unfold update_config. cbn [for_each].
    now rewrite Hbase. }
  split; [intros o keys v; apply walk_accepts|].
  split; [intros o keys v o'; apply walk_sets|].
  split; [|split].
  - intros o k ks v o' Hks Hk Hrun. rewrite hasattr_get in Hk.
    destruct (Py.get (attrs_of o) k) eqn:Hget; [discriminate|].
    rewrite walk_missing in Hrun by assumption.
    destruct (settable_of o); [|discriminate].
    destruct (_recursive_creative_setattr (instantiate base) ks (Some base) v) as [child|e];
      [|discriminate].
    injection Hrun as <-. eauto.
  - intros o k ks v o' Hks Hk Hrun. rewrite hasattr_get in Hk.
    destruct (Py.get (attrs_of o) k) as [old|] eqn:Hget; [|discriminate].
    rewrite (walk_present _ old) in Hrun by assumption.
    destruct (_recursive_creative_setattr old ks (Some base) v) as [child|e] eqn:Hc;
      [|discriminate].
    injection Hrun as <-. exists old, child. unfold getattr. rewrite Hget. auto.
  - intros config v Hset Ha Hb. unfold update_config. cbn [for_each].
    rewrite Hbase.
    change (Py.split_dot "a.b.c") with ["a"; "b"; "c"].
    rewrite hasattr_get in Ha, Hb.
    destruct (Py.get (attrs_of config) "a") eqn:Ea; [discriminate|].
    destruct (Py.get (attrs_of (instantiate base)) "b") eqn:Eb; [discriminate|].
    rewrite walk_missing by (discriminate || assumption). rewrite Hset.
    rewrite walk_missing by (discriminate || assumption).
    cbn. reflexivity.
Qed.

Lemma update_config_walk_witness :
  update_config globals_empty (instantiate Config_class)
    [("a.b.c", data int_t "5")]
  = Ok (Obj (cls_type Config_class) true EmptyString
          [("a", Obj (cls_type Config_class) true EmptyString
             [("b", Obj (cls_type Config_class) true EmptyString
                [("c", data int_t "5")])])]).
Proof.
  rewrite (proj2 (proj2 (proj2 (proj2 (proj2 (proj2
    (update_config_walk globals_empty Config_class eq_refl))))))
    (instantiate Config_class) (data int_t "5"));
    reflexivity.
Defined.

(** C7 as stated fails: when [a] already holds an integer, updating
    ["a.b"] raises and sets nothing. *)
Lemma update_config_through_leaf :
  update_config globals_empty config_with_leaf [("a.b", data int_t "5")]
  = Raise AttributeError.
Proof. reflexivity. Qed.

(* ================================================================== *)
(** * Dotted names *)
(* ================================================================== *)

Lemma split_dot_cons (s t : string) :
  no_dot s = true ->
  Py.split_dot (s +++ String "."%char t) = s :: Py.split_dot t.
Proof.
  induction s as [|c s IH]; intros H; [reflexivity|].
  cbn [no_dot] in H. apply andb_prop in H. destruct H as [Hc Hs].
  cbn [String.append Py.split_dot]. apply negb_true_iff in Hc. rewrite Hc.
  now rewrite (IH Hs).
Qed.

Lemma split_dot_single (s : string) :
  no_dot s = true -> Py.split_dot s = [s].
Proof.
  induction s as [|c s IH]; intros H; [reflexivity|].
  cbn [no_dot] in H. apply andb_prop in H. destruct H as [Hc Hs].
  cbn [Py.split_dot]. apply negb_true_iff in Hc. rewrite Hc.
  now rewrite (IH Hs).
Qed.

Lemma split_dot_join (l : list string) :
  l <> [] -> Forall (fun s => no_dot s = true) l ->
  Py.split_dot (Py.join "." l) = l.
Proof.
  induction l as [|s l IH]; intros Hne Hall; [contradiction|].
  inversion Hall as [|? ? Hs Hl]; subst.
  destruct l as [|s2 l].
  - cbn [Py.join]. now apply split_dot_single.
  - change (Py.join "." (s :: s2 :: l))
      with (s +++ String "."%char (Py.join "." (s2 :: l))).
    rewrite split_dot_cons by assumption. f_equal. apply IH; [discriminate|exact Hl].
Qed.

Lemma split_dot_no_dot (s : string) :
  Forall (fun x => no_dot x = true) (Py.split_dot s).
Proof.
  induction s as [|c s IH]; [repeat constructor|].
  cbn [Py.split_dot]. destruct (Ascii.eqb c ".") eqn:Ec.
  - constructor; [reflexivity|exact IH].
  - destruct (Py.split_dot s) as [|h t]; [repeat constructor; cbn; now rewrite Ec|].
    inversion IH; subst. constructor; [|assumption].
    cbn [no_dot]. rewrite Ec. assumption.
Qed.

Lemma split_dot_nonempty (s : string) : Py.split_dot s <> [].
Proof.
  destruct s as [|c s]; [discriminate|]. cbn [Py.split_dot].
  destruct (Ascii.eqb c "."); [discriminate|].
  destruct (Py.split_dot s); discriminate.
Qed.

Lemma section_path_no_dot (cname : string) :
  Forall (fun x => no_dot x = true) (section_path cname).
Proof.
  unfold section_path. destruct (String.eqb cname "@base"); [constructor|].
  apply split_dot_no_dot.
Qed.

(* ================================================================== *)
(** * Runtime helpers: flattening *)
(* ================================================================== *)

Lemma for_each_inv {A S : Type} (P : S -> Prop) (l : list A)
    (body : A -> S -> result S) :
  (forall x s s', In x l -> P s -> body x s = Ok s' -> P s') ->
  forall s s', P s -> for_each l body s = Ok s' -> P s'.
Proof.
  induction l as [|x l IH]; intros Hstep s s' Hs Hrun.
  - cbn in Hrun. now injection Hrun as <-.
  - cbn [for_each] in Hrun. destruct (body x s) as [s1|e] eqn:Hx; [|discriminate].
    cbn [bind] in Hrun. eapply IH; [| |exact Hrun].
    + intros y t t' Hy. apply Hstep. now right.
    + eapply Hstep; [now left|exact Hs|exact Hx].
Qed.

Lemma in_set {V : Type} (d : Py.dict V) (k k' : string) (v v' : V) :
  In (k', v') (Py.set d k v) -> (k', v') = (k, v) \/ In (k', v') d.
Proof.
  induction d as [|[k0 v0] d IH]; cbn [Py.set].
  - intros [H | []]. left. now symmetry.
  - destruct (String.eqb_spec k k0).
    + subst. intros [H | H]; [left; now symmetry|right; now right].
    + intros [H | H]; [right; now left|].
      destruct (IH H); [now left|right; now right].
Qed.

Lemma config_to_dict_inner (g : globals) (config sub : value) (cname : string)
    (names : list string) (d d' : Py.dict value) :
  In cname (Py.keys (_name_to_config g)) ->
  section_object config cname = Ok sub ->
  sourced g config d ->
  for_each names
    (fun i d =>
       if Py.startswith "__" i then Ok d
       else
         o <- getattr sub i ;;
         skip <- isinstance o (config_classes g) ;;
         if skip then Ok d
         else Ok (Py.set d (Py.join "." (section_path cname ++ [i])) o))
    d = Ok d' ->
  sourced g config d'.
Proof.
  intros Hin Hsub Hd Hloop.
  refine (for_each_inv (sourced g config) names _ _ d d' Hd Hloop).
  clear d d' Hd Hloop. intros i d d' _ Hd Hbody.
  destruct (Py.startswith "__" i) eqn:Edunder.
  - now injection Hbody as <-.
  - destruct (getattr sub i) as [o|e] eqn:Ho; [|discriminate].
    cbn [bind] in Hbody.
    destruct (isinstance o (config_classes g)) as [skip|e] eqn:Hskip;
      [|discriminate].
    cbn [bind] in Hbody. destruct skip.
    + now injection Hbody as <-.
    + injection Hbody as <-. intros key val Hget.
      apply in_set in Hget. destruct Hget as [Hget | Hget]; [|now apply Hd].
      injection Hget as -> ->.
      exists cname, i, sub. repeat split; assumption.
Qed.

Lemma config_to_dict_source (g : globals) (config : value) (d : Py.dict value) :
  config_to_dict g config = Ok d -> sourced g config d.
Proof.
  unfold config_to_dict. intros Hrun.
  refine (for_each_inv (sourced g config) (_name_to_config g) _ _ [] d _ Hrun);
    [|intros key val []].
  clear d Hrun. intros [cname cobj] d d' Hin Hd Hbody. cbn [fst] in Hbody.
  apply (in_map fst) in Hin. cbn [fst] in Hin.
  unfold section_path in Hbody.
  destruct (String.eqb cname "@base") eqn:Ebase.
  - cbn [bind] in Hbody.
    apply (config_to_dict_inner g config config cname
             (dir (attrs_of config)) d d' Hin); auto.
    + unfold section_object. now rewrite Ebase.
    + unfold section_path. now rewrite Ebase.
  - destruct (_recursive_getattr config (Py.split_dot cname)) as [sub|e] eqn:Hsub;
      [|discriminate].
    cbn [bind] in Hbody.
    apply (config_to_dict_inner g config sub cname
             (dir (attrs_of sub)) d d' Hin); auto.
    + unfold section_object. now rewrite Ebase.
    + unfold section_path. now rewrite Ebase.
Qed.

Lemma getattr_in_keys (o : value) (i : string) (v : value) :
  getattr o i = Ok v -> In i (Py.keys (attrs_of o)).
Proof.
  unfold getattr. intros H. apply get_some_in_keys.
  destruct (Py.get (attrs_of o) i); [discriminate|discriminate].
Qed.

(** C10: every entry of the mapping [config_to_dict] returns was read from
    the root (for ["@base"]) or from the object at the path of a registered
    section, under an attribute name that does not start with two
    underscores, and its value is not an instance of a registered class or
    of the generic base class.  So, attribute names being free of dots, a
    value stored by [update_config] under a dotted path whose prefix is the
    path of no registered section has no entry in the mapping. *)
Theorem config_to_dict_registered_only (g : globals) (config : value)
    (d : Py.dict value) :
  config_to_dict g config = Ok d ->
  (forall key val,
      Py.get d key = Some val ->
      exists cname i sub,
        In cname (Py.keys (_name_to_config g))
        /\ section_object config cname = Ok sub
        /\ key = Py.join "." (section_path cname ++ [i])
        /\ getattr sub i = Ok val
        /\ Py.startswith "__" i = false
        /\ isinstance val (config_classes g) = Ok false)
  /\ (forall config0 path v,
        update_config g config0 [(path, v)] = Ok config ->
        (forall cname, In cname (Py.keys (_name_to_config g)) ->
                       section_path cname <> removelast (Py.split_dot path)) ->
        (forall cname sub i,
            In cname (Py.keys (_name_to_config g)) ->
            section_object config cname = Ok sub ->
            In i (Py.keys (attrs_of sub)) -> no_dot i = true) ->
        Py.get d path = None).
Proof.
  intros Hrun. pose proof (config_to_dict_source g config d Hrun) as Hsrc.
  split; [intros key val Hget; apply (Hsrc key val), get_in, Hget|].
  intros config0 path v _ Hprefix Hnames.
  destruct (Py.get d path) as [val|] eqn:Hget; [|reflexivity].
  exfalso.
  destruct (Hsrc path val (get_in _ _ _ Hget))
    as (cname & i & sub & Hin & Hsub & Hkey & Hattr & _).
  apply (Hprefix cname Hin).
  assert (Hi : no_dot i = true).
  { apply (Hnames cname sub i Hin Hsub). eapply getattr_in_keys; eauto. }
  rewrite Hkey. rewrite split_dot_join.
  - now rewrite removelast_last.
  - intros E. apply app_eq_nil in E. destruct E; discriminate.
  - apply Forall_app. split; [apply section_path_no_dot|]. now repeat constructor.
Qed.

Lemma config_to_dict_registered_only_witness :
  update_config globals_net config_net [("x.y.z", data int_t "5")]
  = Ok config_net_xyz
  /\ config_to_dict globals_net config_net_xyz = Ok dict_net
  /\ Py.get dict_net "x.y.z" = None.
Proof.
  split; [reflexivity|]. split; [reflexivity|].
  apply (proj2 (config_to_dict_registered_only globals_net config_net_xyz
                  dict_net eq_refl)
           config_net "x.y.z" (data int_t "5")).
  - reflexivity.
  - intros cname [<- | []]. cbv. discriminate.
  - intros cname sub i [<- | []]. cbv. intros [= <-]. cbv.
    intros [<- | []]. reflexivity.
Defined.

(* ================================================================== *)
(** * Section names and their paths *)
(* ================================================================== *)

Lemma append_assoc (a b c : string) : (a +++ b) +++ c = a +++ b +++ c.
Proof. induction a as [|x a IH]; cbn; [reflexivity|now rewrite IH]. Qed.

Lemma join_split_dot (s : string) : Py.join "." (Py.split_dot s) = s.
Proof.
  induction s as [|c s IH]; [reflexivity|].
  cbn [Py.split_dot]. destruct (Ascii.eqb_spec c ".").
  - subst. pose proof (split_dot_nonempty s) as Hne.
    destruct (Py.split_dot s) as [|h t]; [contradiction|].
    change (Py.join "." (EmptyString :: h :: t))
      with (String "."%char (Py.join "." (h :: t))).
    now rewrite IH.
  - pose proof (split_dot_nonempty s) as Hne.
    destruct (Py.split_dot s) as [|h t]; [contradiction|].
    assert (E : Py.join "." (String c h :: t) = String c (Py.join "." (h :: t)))
      by (destruct t; reflexivity).
    now rewrite E, IH.
Qed.

Lemma join_app (sep : string) (l1 l2 : list string) :
  l1 <> [] -> l2 <> [] ->
  Py.join sep (l1 ++ l2) = Py.join sep l1 +++ sep +++ Py.join sep l2.
Proof.
  intros H1 H2. induction l1 as [|a l1 IH]; [contradiction|].
  destruct l1 as [|b l1].
  - cbn [app]. destruct l2; [contradiction|reflexivity].
  - change (Py.join sep ((a :: b :: l1) ++ l2))
      with (a +++ sep +++ Py.join sep ((b :: l1) ++ l2)).
    rewrite IH by discriminate.
    change (Py.join sep (a :: b :: l1)) with (a +++ sep +++ Py.join sep (b :: l1)).
    now rewrite !append_assoc.
Qed.

Lemma str_le_append (s t : string) : Py.str_le s (s +++ t) = true.
Proof.
  unfold Py.str_le, String.leb. induction s as [|c s IH]; cbn.
  - now destruct t.
  - now rewrite ascii_compare_refl.
Qed.

Lemma prefix_str_le (q p : string) :
  is_prefix (Py.split_dot q) (Py.split_dot p) -> Py.str_le q p = true.
Proof.
  intros [rest E].
  rewrite <- (join_split_dot p), E, <- (join_split_dot q) at 1.
  destruct rest as [|r rest].
  - rewrite app_nil_r. apply str_le_refl.
  - rewrite join_app by (apply split_dot_nonempty || discriminate).
    rewrite join_split_dot. apply str_le_append.
Qed.

(* ================================================================== *)
(** * Paths in a configuration object *)
(* ================================================================== *)

Lemma descend_getattr (o : value) (keys : list string) :
  keys <> [] -> _recursive_getattr o keys = descend o keys.
Proof.
  revert o. induction keys as [|k ks IH]; intros o H; [contradiction|].
  destruct ks as [|k2 ks].
  - cbn. now destruct (getattr o k).
  - rewrite getattr_step by discriminate. cbn [descend].
    destruct (getattr o k); [|reflexivity]. cbn [bind]. apply IH. discriminate.
Qed.

Lemma section_object_descend (c : value) (cname : string) :
  section_object c cname = descend c (section_path cname).
Proof.
  unfold section_object, section_path.
  destruct (String.eqb cname "@base"); [reflexivity|].
  apply descend_getattr, split_dot_nonempty.
Qed.

Lemma descend_app (o : value) (p q : list string) :
  descend o (p ++ q) = (x <- descend o p ;; descend x q).
Proof.
  revert o. induction p as [|k p IH]; intros o; [reflexivity|].
  cbn [app descend]. destruct (getattr o k); [|reflexivity]. cbn [bind]. apply IH.
Qed.

Lemma keys_set {V : Type} (d : Py.dict V) (k : string) (v : V) (i : string) :
  In i (Py.keys (Py.set d k v)) -> In i (Py.keys d) \/ i = k.
Proof.
  induction d as [|[k0 v0] d IH]; cbn.
  - intros [H | []]. now right.
  - destruct (String.eqb_spec k k0); cbn.
    + tauto.
    + intros [H | H]; [tauto|]. destruct (IH H); tauto.
Qed.

(** What a walk that succeeds does to the object it starts from. *)
Lemma walk_shape (default : option pyclass) (v : value) (k : string)
    (ks : list string) (o o' : value) :
  _recursive_creative_setattr o (k :: ks) default v = Ok o' ->
  exists child, o' = with_attr o k child
    /\ match ks with
       | [] => child = v
       | _ => exists old,
                _recursive_creative_setattr old ks default v = Ok child
                /\ (hasattr o k = true -> getattr o k = Ok old)
       end.
Proof.
  intros Hrun. destruct ks as [|k2 ks].
  - cbn in Hrun. unfold setattr in Hrun.
    destruct (settable_of o); [|discriminate]. injection Hrun as <-. eauto.
  - rewrite walk_step in Hrun. rewrite hasattr_get in *.
    destruct (Py.get (attrs_of o) k) as [old|] eqn:Hget.
    + cbn [bind] in Hrun. unfold getattr in Hrun. rewrite Hget in Hrun.
      cbn [bind] in Hrun.
      destruct (_recursive_creative_setattr old (k2 :: ks) default v)
        as [child|e] eqn:Hc; [|discriminate].
      injection Hrun as <-. exists child. split; [reflexivity|].
      exists old. split; [exact Hc|]. intros _. unfold getattr. now rewrite Hget.
    + destruct (call default) as [fresh|e]; [|discriminate].
      cbn [bind] in Hrun. unfold setattr in Hrun.
      destruct (settable_of o); [|discriminate]. cbn [bind] in Hrun.
      rewrite getattr_with_attr_same in Hrun. cbn [bind] in Hrun.
      destruct (_recursive_creative_setattr fresh (k2 :: ks) default v)
        as [child|e] eqn:Hc; [|discriminate].
      injection Hrun as <-. exists child. split; [apply with_attr_twice|].
      exists fresh. split; [exact Hc|discriminate].
Qed.

Lemma walk_settable (default : option pyclass) (v : value) (keys : list string)
    (o o' : value) :
  _recursive_creative_setattr o keys default v = Ok o' ->
  settable_of o' = settable_of o.
Proof.
  destruct keys as [|k ks]; [discriminate|]. intros Hrun.
  apply walk_shape in Hrun. destruct Hrun as (child & -> & _).
  apply settable_with_attr.
Qed.

Lemma walk_names (default : option pyclass) (v : value) (k : string)
    (ks : list string) (o o' : value) :
  _recursive_creative_setattr o (k :: ks) default v = Ok o' ->
  forall i, In i (Py.keys (attrs_of o')) -> In i (Py.keys (attrs_of o)) \/ i = k.
Proof.
  intros Hrun. apply walk_shape in Hrun. destruct Hrun as (child & -> & _).
  intros i. rewrite attrs_with_attr. apply keys_set.
Qed.

Lemma walk_descend (default : option pyclass) (v : value) (keys : list string)
    (o o' : value) :
  _recursive_creative_setattr o keys default v = Ok o' -> descend o' keys = Ok v.
Proof.
  intros Hrun. pose proof (walk_sets default v keys o o' Hrun) as (H & _).
  rewrite <- descend_getattr; [exact H|]. intros ->. discriminate.
Qed.

(** A walk leaves alone every path that does not start with its own. *)
Lemma walk_frame (default : option pyclass) (v : value) (keys_q : list string) :
  Forall (fun i => no_dot i = true) keys_q ->
  forall o o' keys_p,
    _recursive_creative_setattr o keys_q default v = Ok o' ->
    ~ is_prefix keys_q keys_p ->
    good_obj o keys_p -> good_obj o' keys_p.
Proof.
  induction keys_q as [|k ks IH]; intros Hdots o o' keys_p Hrun Hpre Hgood;
    [discriminate|].
  inversion Hdots as [|? ? Hk Hks]; subst.
  destruct keys_p as [|kp ps].
  - destruct Hgood as (sub & Hsub & Hset & Hnames). cbn in Hsub.
    injection Hsub as <-. exists o'. split; [reflexivity|]. split.
    + now rewrite (walk_settable _ _ _ _ _ Hrun).
    + apply Forall_forall. intros i Hi.
      destruct (walk_names _ _ _ _ _ _ Hrun i Hi) as [Hold | ->]; [|exact Hk].
      rewrite Forall_forall in Hnames. now apply Hnames.
  - destruct (String.eqb_spec kp k) as [-> | Hne].
    + destruct Hgood as (sub & Hsub & Hset & Hnames). cbn [descend] in Hsub.
      destruct (getattr o k) as [old0|e] eqn:Hold; [|discriminate].
      cbn [bind] in Hsub.
      pose proof (walk_shape _ _ _ _ _ _ Hrun) as (child & -> & Hchild).
      destruct ks as [|k2 ks].
      * exfalso. apply Hpre. exists ps. reflexivity.
      * destruct Hchild as (old & Hc & Hgetold).
        assert (Hhas : hasattr o k = true).
        { rewrite hasattr_get. unfold getattr in Hold.
          destruct (Py.get (attrs_of o) k); [reflexivity|discriminate]. }
        specialize (Hgetold Hhas). rewrite Hold in Hgetold.
        injection Hgetold as <-.
        assert (Hg : good_obj child ps).
        { apply (IH Hks old0 child ps Hc).
          - intros [rest E]. apply Hpre. exists rest. cbn. now rewrite E.
          - exists sub. auto. }
        destruct Hg as (sub' & Hsub' & Hset' & Hnames').
        exists sub'. split; [|auto]. cbn [descend].
        rewrite getattr_with_attr_same. exact Hsub'.
    + destruct Hgood as (sub & Hsub & Hset & Hnames). exists sub.
      split; [|auto]. cbn [descend] in *.
      pose proof (walk_sets default v (k :: ks) o o' Hrun) as (_ & Hframe & _).
      unfold getattr in *. rewrite (Hframe kp); [exact Hsub|].
      cbn. congruence.
Qed.

(** Writing back the value an attribute already has changes nothing. *)
Lemma walk_idem (default : option pyclass) (keys : list string) :
  forall o sub i val,
    descend o keys = Ok sub -> settable_of sub = true ->
    getattr sub i = Ok val ->
    _recursive_creative_setattr o (keys ++ [i]) default val = Ok o.
Proof.
  induction keys as [|k ks IH]; intros o sub i val Hsub Hset Hval.
  - cbn in Hsub. injection Hsub as <-. cbn. unfold setattr. rewrite Hset.
    f_equal. apply with_attr_present. unfold getattr in Hval.
    destruct (Py.get (attrs_of o) i); [congruence|discriminate].
  - cbn [descend] in Hsub. unfold getattr in Hsub at 1.
    destruct (Py.get (attrs_of o) k) as [child|] eqn:Hget; [|discriminate].
    cbn [bind] in Hsub. cbn [app].
    rewrite (walk_present o child) by
      (assumption || (intros E; apply app_eq_nil in E; destruct E; discriminate)).
    rewrite (IH child sub i val Hsub Hset Hval). cbn [bind].
    f_equal. now apply with_attr_present.
Qed.

(* ================================================================== *)
(** * Runtime helpers: construction and the round trip *)
(* ================================================================== *)

Lemma for_each_prefix_inv {A S : Type} (P : list A -> S -> Prop) (l : list A)
    (body : A -> S -> result S) :
  (forall l1 x l2 s s',
      l = l1 ++ x :: l2 -> P l1 s -> body x s = Ok s' -> P (l1 ++ [x]) s') ->
  forall s s', P [] s -> for_each l body s = Ok s' -> P l s'.
Proof.
  intros Hstep.
  assert (H : forall rest done s s',
             l = done ++ rest -> P done s -> for_each rest body s = Ok s' -> P l s').
  { induction rest as [|x rest IH]; intros done s s' El Hs Hrun.
    - cbn in Hrun. injection Hrun as <-. rewrite app_nil_r in El. now subst.
    - cbn [for_each] in Hrun. destruct (body x s) as [s1|e] eqn:Hx; [|discriminate].
      cbn [bind] in Hrun. apply (IH (done ++ [x]) s1 s').
      + now rewrite <- app_assoc.
      + now apply (Hstep done x rest s s1).
      + exact Hrun. }
  intros s s'. now apply (H l []).
Qed.

Lemma for_each_total {A S : Type} (l : list A) (body : A -> S -> result S) :
  (forall x s, In x l -> exists s', body x s = Ok s') ->
  forall s, exists s', for_each l body s = Ok s'.
Proof.
  induction l as [|x l IH]; intros Hbody s; [now exists s|].
  cbn [for_each]. destruct (Hbody x s (or_introl eq_refl)) as (s1 & ->).
  cbn [bind]. apply IH. intros y t Hy. apply Hbody. now right.
Qed.

Lemma sorted_items_before (reg : Py.dict pyclass) (l1 l2 : list (string * pyclass))
    (x y : string * pyclass) :
  NoDup (Py.keys reg) ->
  sorted_items reg = l1 ++ x :: l2 -> In y l1 ->
  Py.str_le (fst y) (fst x) = true /\ fst y <> fst x.
Proof.
  intros Hnd E Hy. apply in_split in Hy. destruct Hy as (a & b & ->). split.
  - apply (sorted_order _ fst reg a y b x l2). unfold sorted_items in E.
    rewrite E. now rewrite <- app_assoc.
  - assert (Hnd' : NoDup (map fst (sorted_items reg))).
    { eapply Permutation_NoDup; [|exact Hnd].
      apply Permutation_map, sorted_perm. }
    rewrite E, map_app in Hnd'. cbn [map] in Hnd'.
    apply NoDup_remove_2 in Hnd'. intros Heq. apply Hnd'.
    apply in_or_app. left. rewrite <- Heq. apply in_map, in_or_app.
    right. now left.
Qed.

Lemma good_instantiate (cobj : pyclass) :
  Forall (fun i => no_dot i = true) (Py.keys (cls_attrs cobj)) ->
  good_obj (instantiate cobj) [].
Proof. intros H. exists (instantiate cobj). repeat split. exact H. Qed.

(** Every section of the registry has its object in what [make_config]
    returns. *)
Lemma make_config_good (g : globals) (base : pyclass) (c : value) :
  _Config_cls g = Some base ->
  NoDup (Py.keys (_name_to_config g)) ->
  (forall cname cobj, In (cname, cobj) (_name_to_config g) ->
     Forall (fun i => no_dot i = true) (Py.keys (cls_attrs cobj))) ->
  make_config g = Ok c ->
  forall cname cobj, In (cname, cobj) (_name_to_config g) ->
    good_obj c (section_path cname).
Proof.
  intros Hbase Hnd Hnames Hrun. unfold make_config in Hrun.
  match type of Hrun with
  | bind ?r _ = _ => destruct r as [c0|e] eqn:Hc0; [|discriminate]
  end.
  cbn [bind] in Hrun.
  assert (Hinv : made g (sorted_items (_name_to_config g)) c).
  { refine (for_each_prefix_inv (made g) _ _ _ c0 c _ Hrun).
    - clear c Hrun. intros l1 [q cq] l2 c c' El [Hroot Hdone] Hbody.
      assert (Hq : In (q, cq) (_name_to_config g)).
      { eapply Permutation_in; [symmetry; apply sorted_perm|].
        unfold sorted_items in El. rewrite El. apply in_or_app. right. now left. }
      destruct (String.eqb_spec q "@base") as [-> | Hqb].
      + injection Hbody as <-. split; [exact Hroot|].
        intros cname cobj Hin Hne. apply in_app_or in Hin.
        destruct Hin as [Hin | [Hin | []]]; [now apply (Hdone cname cobj)|].
        injection Hin as <- _. contradiction.
      + rewrite Hbase in Hbody.
        assert (Hdots : Forall (fun i => no_dot i = true) (Py.split_dot q))
          by apply split_dot_no_dot.
        split.
        * intros cb Hcb. apply (walk_frame _ _ _ Hdots c c' [] Hbody).
          -- intros [rest E]. symmetry in E. apply app_eq_nil in E.
             destruct E as [E _]. now apply split_dot_nonempty in E.
          -- now apply (Hroot cb).
        * intros cname cobj Hin Hne. apply in_app_or in Hin.
          destruct Hin as [Hin | [Hin | []]].
          -- apply (walk_frame _ _ _ Hdots c c' _ Hbody);
               [|now apply (Hdone cname cobj)].
             intros Hpre. apply prefix_str_le in Hpre.
             destruct (sorted_items_before _ l1 l2 (q, cq) (cname, cobj) Hnd El Hin)
               as [Hle Hneq].
             cbn [fst] in *. apply Hneq. now apply str_le_antisym.
          -- injection Hin as <- <-. exists (instantiate cq).
             split; [exact (walk_descend _ _ _ _ _ Hbody)|].
             split; [reflexivity|]. now apply (Hnames q cq).
    - split; [|intros ? ? []].
      intros cb Hcb. rewrite Hcb in Hc0. cbn in Hc0. injection Hc0 as <-.
      apply good_instantiate. apply (Hnames "@base" cb). now apply get_in. }
  destruct Hinv as [Hroot Hdone]. intros cname cobj Hin.
  unfold section_path. destruct (String.eqb_spec cname "@base") as [-> | Hne].
  - destruct (Py.get (_name_to_config g) "@base") as [cb|] eqn:Hcb.
    + now apply (Hroot cb).
    + exfalso. apply (in_map fst) in Hin. apply get_some_in_keys in Hin.
      contradiction.
  - apply (Hdone cname cobj); [|exact Hne].
    eapply Permutation_in; [apply sorted_perm|exact Hin].
Qed.

Lemma isinstance_total (o : value) (classes : list pyclass) :
  exists b, isinstance o (map Some classes) = Ok b.
Proof.
  induction classes as [|c classes IH]; cbn; [eauto|].
  destruct (is_instance o (cls_type c)); eauto.
Qed.

Lemma config_classes_some (g : globals) (base : pyclass) :
  _Config_cls g = Some base ->
  config_classes g = map Some (map snd (_name_to_config g) ++ [base]).
Proof.
  intros H. unfold config_classes. rewrite H, map_app, map_map. reflexivity.
Qed.

Lemma config_to_dict_total (g : globals) (base : pyclass) (c : value) :
  _Config_cls g = Some base ->
  (forall cname cobj, In (cname, cobj) (_name_to_config g) ->
     exists sub, section_object c cname = Ok sub) ->
  exists d, config_to_dict g c = Ok d.
Proof.
  intros Hbase Hsub. unfold config_to_dict. apply for_each_total.
  intros [cname cobj] d Hin. cbn [fst].
  destruct (Hsub cname cobj Hin) as (sub & Hs). unfold section_object in Hs.
  assert (Hloop : forall csplit, exists d',
             for_each (dir (attrs_of sub))
               (fun i d =>
                  if Py.startswith "__" i then Ok d
                  else
                    o <- getattr sub i ;;
                    skip <- isinstance o (config_classes g) ;;
                    if skip then Ok d
                    else Ok (Py.set d (Py.join "." (csplit ++ [i])) o))
               d = Ok d').
  { intros csplit. apply for_each_total. intros i d0 Hi.
    destruct (Py.startswith "__" i); [eauto|].
    apply in_dir in Hi. unfold getattr.
    destruct (Py.get (attrs_of sub) i) as [o|]; [|contradiction].
    cbn [bind]. rewrite (config_classes_some g base Hbase).
    destruct (isinstance_total o (map snd (_name_to_config g) ++ [base]))
      as (b & ->).
    cbn [bind]. destruct b; eauto. }
  destruct (String.eqb cname "@base").
  - injection Hs as <-. cbn [bind]. apply Hloop.
  - rewrite Hs. cbn [bind]. apply Hloop.
Qed.

Lemma update_config_idem (g : globals) (c : value) (d : Py.dict value) :
  (forall key val, In (key, val) d ->
     _recursive_creative_setattr c (Py.split_dot key) (_Config_cls g) val = Ok c) ->
  update_config g c d = Ok c.
Proof.
  unfold update_config. induction d as [|[key val] d IH]; intros H; [reflexivity|].
  cbn [for_each]. rewrite (H key val) by now left. cbn [bind].
  apply IH. intros k v Hin. apply H. now right.
Qed.

Lemma check_config_total (g : globals) (c : value) :
  (forall cname cobj, In (cname, cobj) (_name_to_config g) ->
     exists sub, section_object c cname = Ok sub) ->
  exists printed, check_config g c = Ok printed.
Proof.
  intros Hsub. unfold check_config. apply for_each_total.
  intros [cname cobj] printed Hin.
  destruct (Hsub cname cobj Hin) as (sub & Hs). unfold section_object in Hs.
  destruct (String.eqb cname "@base"); [eauto|]. rewrite Hs. cbn [bind]. eauto.
Qed.

(** C5: with the generic base class installed, every section registered
    once and the attribute names of the section classes free of dots, the
    flat mapping of what [make_config] returns is produced without error,
    and [config_from_dict] on that mapping returns the very same instance,
    so every value found along a path in the original is found there in the
    reconstruction. *)
Theorem config_round_trip (g : globals) (base : pyclass) (c : value) :
  _Config_cls g = Some base ->
  NoDup (Py.keys (_name_to_config g)) ->
  (forall cname cobj, In (cname, cobj) (_name_to_config g) ->
     Forall (fun i => no_dot i = true) (Py.keys (cls_attrs cobj))) ->
  make_config g = Ok c ->
  exists d c',
    config_to_dict g c = Ok d
    /\ config_from_dict g d = Ok c'
    /\ c' = c
    /\ (forall keys v,
          _recursive_getattr c keys = Ok v -> _recursive_getattr c' keys = Ok v).
Proof.
  intros Hbase Hnd Hnames Hmake.
  pose proof (make_config_good g base c Hbase Hnd Hnames Hmake) as Hgood.
  assert (Hsub : forall cname cobj, In (cname, cobj) (_name_to_config g) ->
                   exists sub, section_object c cname = Ok sub).
  { intros cname cobj Hin. destruct (Hgood cname cobj Hin) as (sub & Hs & _).
    exists sub. now rewrite section_object_descend. }
  destruct (config_to_dict_total g base c Hbase Hsub) as (d & Hd).
  exists d, c. split; [exact Hd|]. split; [|auto].
  unfold config_from_dict. rewrite Hmake. cbn [bind].
  assert (Hupd : update_config g c d = Ok c).
  { apply update_config_idem. intros key val Hin.
    destruct (config_to_dict_source g c d Hd key val Hin)
      as (cname & i & sub & Hreg & Hobj & -> & Hval & _).
    apply in_map_iff in Hreg. destruct Hreg as ([cname' cobj] & E & Hreg).
    cbn in E. subst cname'.
    destruct (Hgood cname cobj Hreg) as (sub' & Hs & Hset & Hdots).
    rewrite section_object_descend, Hs in Hobj. injection Hobj as ->.
    assert (Hi : no_dot i = true).
    { rewrite Forall_forall in Hdots. apply Hdots.
      eapply getattr_in_keys; eauto. }
    rewrite split_dot_join.
    - now apply (walk_idem _ _ c sub i val).
    - intros E. apply app_eq_nil in E. destruct E; discriminate.
    - apply Forall_app. split; [apply section_path_no_dot|].
      now repeat constructor. }
  rewrite Hupd. cbn [bind].
  destruct (check_config_total g c Hsub) as (printed & ->). reflexivity.
Qed.

Lemma config_round_trip_witness :
  make_config globals_app = Ok config_app
  /\ config_to_dict globals_app config_app = Ok dict_app
  /\ config_from_dict globals_app dict_app = Ok config_app.
Proof.
  split; [reflexivity|]. split; [reflexivity|].
  destruct (config_round_trip globals_app Config_class config_app)
    as (d & c' & Hd & Hfrom & -> & _).
  - reflexivity.
  - repeat constructor; simpl; intuition discriminate.
  - intros cname cobj [[= <- <-] | [[= <- <-] | []]];
      repeat constructor.
  - reflexivity.
  - replace dict_app with d; [exact Hfrom|].
    cbv in Hd. injection Hd as <-. reflexivity.
Defined.

(* ================================================================== *)
(** * Determinism of the stub *)
(* ================================================================== *)

(** C6 as stated fails: the same two sections registered in the two
    possible orders give two different stubs, because the leaf [x] and the
    namespace [_x] tie on their sort key and the stable sort keeps them in
    insertion order. *)
Lemma output_stub_registration_order :
  Permutation (_name_to_config globals_tie_1) (_name_to_config globals_tie_2)
  /\ exists stub1 stub2,
       stub_of (StubMaker_init "config.py" false) globals_tie_1 = Some stub1
       /\ stub_of (StubMaker_init "config.py" false) globals_tie_2 = Some stub2
       /\ stub1 <> stub2.
Proof.
  split; [apply perm_swap|].
  eexists. eexists. split; [reflexivity|]. split; [reflexivity|].
  intros E. cbv in E. congruence.
Qed.

Example stub_tie_1 :
  f "Config" [("x", ConfigAttr "int" EmptyString);
              ("_x", Namespace [("y", ConfigAttr "int" EmptyString)])] 0
  = "class Config:" +++ Py.nl +++
    "    x: int" +++ Py.nl +++
    "    class _x:" +++ Py.nl +++
    "        y: int" +++ Py.nl.
Proof. reflexivity. Qed.

Example stub_tie_2 :
  f "Config" [("_x", Namespace [("y", ConfigAttr "int" EmptyString)]);
              ("x", ConfigAttr "int" EmptyString)] 0
  = "class Config:" +++ Py.nl +++
    "    class _x:" +++ Py.nl +++
    "        y: int" +++ Py.nl +++
    "    x: int" +++ Py.nl.
Proof. reflexivity. Qed.

Section SortedUnique.
Variable A : Type.
Variable key : A -> string.

Lemma sorted_map_in {B : Type} (g : A -> B) (keyB : B -> string) (l : list A) :
  (forall a, In a l -> keyB (g a) = key a) ->
  Py.sorted keyB (map g l) = map g (Py.sorted key l).
Proof.
  induction l as [|x l IH]; intros Hkey; [reflexivity|].
  cbn [map Py.sorted]. rewrite IH by (intros a Ha; apply Hkey; now right).
  assert (Hs : forall a, In a (Py.sorted key l) -> keyB (g a) = key a).
  { intros a Ha. apply Hkey. right.
    eapply Permutation_in; [symmetry; apply sorted_perm|exact Ha]. }
  assert (Hx : keyB (g x) = key x) by (apply Hkey; now left).
  clear IH Hkey. induction (Py.sorted key l) as [|y s IHs]; [reflexivity|].
  cbn [map Py.insert_sorted]. rewrite Hx, (Hs y) by now left.
  destruct (Py.str_le (key x) (key y)); [reflexivity|].
  cbn [map]. f_equal. apply IHs. intros a Ha. apply Hs. now right.
Qed.

Lemma strongly_sorted_unique (l : list A) :
  forall l',
    StronglySorted (Py.key_le key) l -> StronglySorted (Py.key_le key) l' ->
    Permutation l l' -> NoDup (map key l) -> l = l'.
Proof.
  induction l as [|a l IH]; intros l' Hs Hs' Hperm Hnd.
  - apply Permutation_nil in Hperm. now subst.
  - destruct l' as [|b l'].
    + symmetry in Hperm. apply Permutation_nil in Hperm. discriminate.
    + inversion Hs as [|? ? Hsl Hall]; subst.
      inversion Hs' as [|? ? Hsl' Hall']; subst.
      inversion Hnd as [|? ? Hnotin Hnd']; subst.
      assert (Hab : a = b).
      { pose proof (Permutation_in a Hperm (or_introl eq_refl)) as Ha.
        pose proof (Permutation_in b (Permutation_sym Hperm) (or_introl eq_refl))
          as Hb.
        destruct Ha as [Ha | Ha]; [now symmetry|].
        destruct Hb as [Hb | Hb]; [exact Hb|].
        exfalso. apply Hnotin.
        rewrite Forall_forall in Hall, Hall'.
        assert (E : key a = key b).
        { apply str_le_antisym; [apply (Hall b Hb)|apply (Hall' a Ha)]. }
        rewrite E. now apply in_map. }
      subst b. f_equal. apply IH; try assumption.
      now apply Permutation_cons_inv in Hperm.
Qed.

Lemma sorted_perm_unique (l l' : list A) :
  Permutation l l' -> NoDup (map key l) -> Py.sorted key l = Py.sorted key l'.
Proof.
  intros Hperm Hnd. apply strongly_sorted_unique.
  - apply sorted_sorted.
  - apply sorted_sorted.
  - rewrite <- (sorted_perm A key l), <- (sorted_perm A key l'). exact Hperm.
  - eapply Permutation_NoDup; [|exact Hnd].
    apply Permutation_map, sorted_perm.
Qed.
End SortedUnique.

Lemma dedup_in (l : list string) (x : string) : In x (Py.dedup l) <-> In x l.
Proof.
  induction l as [|a l IH]; [reflexivity|]. cbn [Py.dedup].
  destruct (existsb (String.eqb a) l) eqn:E.
  - rewrite IH. split; [now right|]. intros [<- | H]; [|exact H].
    now apply existsb_eqb_in.
  - cbn [In]. now rewrite IH.
Qed.

Lemma dedup_nodup (l : list string) : NoDup (Py.dedup l).
Proof.
  induction l as [|a l IH]; [constructor|]. cbn [Py.dedup].
  destruct (existsb (String.eqb a) l) eqn:E; [exact IH|].
  constructor; [|exact IH]. rewrite dedup_in. intros H.
  apply existsb_eqb_in in H. congruence.
Qed.

(** [sorted(set(l))] depends on the members of [l] only. *)
Lemma sorted_set_members (l1 l2 : list string) :
  (forall x, In x l1 <-> In x l2) -> Py.sorted_set l1 = Py.sorted_set l2.
Proof.
  intros H. unfold Py.sorted_set. apply sorted_perm_unique.
  - apply NoDup_Permutation; [apply dedup_nodup|apply dedup_nodup|].
    intros x. now rewrite !dedup_in.
  - rewrite map_id. apply dedup_nodup.
Qed.

(* ---------------------------------------------------------------- *)
(** ** Blocks with the same content are written alike *)

Lemma entry_emit (indentlevel : nat) (kv : string * node) :
  entry indentlevel kv = emit (fst kv) (snd kv) (indentlevel + 1).
Proof. destruct kv as [k [t d|items]]; reflexivity. Qed.

Lemma tree_sim_children (l1 l2 : list (string * node)) :
  tree_sim (Namespace l1) (Namespace l2) ->
  forall k,
    match Py.get l1 k, Py.get l2 k with
    | Some c1, Some c2 => tree_sim c1 c2
    | None, None => True
    | _, _ => False
    end.
Proof.
  intros Hsim k. pose proof (Hsim [k]) as H1. cbn [tree_get] in H1.
  destruct (Py.get l1 k) as [c1|] eqn:E1, (Py.get l2 k) as [c2|] eqn:E2;
    try exact I.
  - intros path. specialize (Hsim (k :: path)). cbn [tree_get] in Hsim.
    now rewrite E1, E2 in Hsim.
  - destruct c1; discriminate.
  - destruct c2; discriminate.
Qed.

Lemma tree_sim_kind (a b : node) :
  tree_sim a b ->
  match a, b with
  | ConfigAttr t d, ConfigAttr t' d' => t = t' /\ d = d'
  | Namespace _, Namespace _ => True
  | _, _ => False
  end.
Proof.
  intros H. specialize (H []). cbn in H.
  destruct a, b; try discriminate; [|exact I]. now injection H.
Qed.

Lemma wf_child (items : list (string * node)) (k : string) (c : node) :
  wf_tree (Namespace items) -> In (k, c) items -> wf_tree c.
Proof.
  intros H Hin. inversion H as [|? _ Hall]; subst.
  rewrite Forall_forall in Hall. apply (Hall (k, c) Hin).
Qed.

Lemma wf_keys (items : list (string * node)) :
  wf_tree (Namespace items) -> NoDup (Py.keys items).
Proof. intros H. now inversion H. Qed.

Lemma nodup_keys_nodup {V : Type} (d : Py.dict V) : NoDup (Py.keys d) -> NoDup d.
Proof. apply NoDup_map_inv. Qed.

(** The text of a tree depends on its content, not on the insertion order
    of its dicts, as long as no two entries of a block tie. *)
Lemma emit_sim (a : node) :
  wf_tree a -> distinct_sort_keys a ->
  forall b, wf_tree b -> tree_sim a b ->
  forall name indentlevel, emit name a indentlevel = emit name b indentlevel.
Proof.
  induction a as [t d | l1 IH] using node_nested_ind;
    intros Hwf Hdk b Hwfb Hsim name lvl.
  - pose proof (tree_sim_kind _ _ Hsim) as Hk. destruct b; [|contradiction].
    destruct Hk as [<- <-]. reflexivity.
  - pose proof (tree_sim_kind _ _ Hsim) as Hk.
    destruct b as [|l2]; [contradiction|]. clear Hk.
    pose proof (tree_sim_children l1 l2 Hsim) as Hch.
    pose proof (wf_keys l1 Hwf) as Hnd1. pose proof (wf_keys l2 Hwfb) as Hnd2.
    inversion Hdk as [|? Hdk1 Hdkall]; subst.
    change (f name l1 lvl = f name l2 lvl). rewrite !f_eq.
    set (g := fun kv : string * node =>
                (fst kv, match Py.get l2 (fst kv) with
                         | Some c => c
                         | None => snd kv
                         end)).
    assert (Hg : forall kv, In kv l1 ->
               exists c2, Py.get l2 (fst kv) = Some c2 /\ tree_sim (snd kv) c2).
    { intros [k c1] Hin. cbn [fst snd]. specialize (Hch k).
      rewrite (get_nodup_in l1 k c1 Hnd1 Hin) in Hch.
      destruct (Py.get l2 k) as [c2|]; [eauto|contradiction]. }
    assert (Hkey : forall kv, In kv l1 -> sort_key (g kv) = sort_key kv).
    { intros kv Hin. destruct (Hg kv Hin) as (c2 & E & Hs). unfold g. rewrite E.
      apply tree_sim_kind in Hs. destruct kv as [k c1]. cbn [fst snd] in *.
      unfold sort_key. cbn [fst snd]. destruct c1, c2; tauto. }
    assert (Hperm : Permutation (map g l1) l2).
    { apply NoDup_Permutation.
      - apply nodup_keys_nodup. unfold Py.keys. rewrite map_map. exact Hnd1.
      - now apply nodup_keys_nodup.
      - intros [k c]. rewrite in_map_iff. split.
        + intros (kv & E & Hin). destruct (Hg kv Hin) as (c2 & E2 & _).
          unfold g in E. rewrite E2 in E. injection E as <- <-.
          now apply get_in.
        + intros Hin. pose proof (get_nodup_in l2 k c Hnd2 Hin) as E2.
          specialize (Hch k). rewrite E2 in Hch.
          destruct (Py.get l1 k) as [c1|] eqn:E1; [|contradiction].
          exists (k, c1). split; [|now apply get_in].
          unfold g. cbn [fst snd]. now rewrite E2. }
    assert (Hsorted : Py.sorted sort_key l2 = map g (Py.sorted sort_key l1)).
    { rewrite <- (sorted_map_in _ sort_key g sort_key l1 Hkey).
      symmetry. apply sorted_perm_unique; [exact Hperm|].
      rewrite map_map. rewrite (map_ext_in _ sort_key l1 Hkey). exact Hdk1. }
    rewrite Hsorted, map_map.
    assert (Hentries :
              map (entry lvl) (Py.sorted sort_key l1)
              = map (fun x => entry lvl (g x)) (Py.sorted sort_key l1)).
    { apply map_ext_in. intros kv Hin.
      assert (Hin1 : In kv l1)
        by (eapply Permutation_in; [symmetry; apply sorted_perm|exact Hin]).
      destruct (Hg kv Hin1) as (c2 & E & Hs).
      rewrite !entry_emit. unfold g. rewrite E. cbn [fst snd].
      rewrite Forall_forall in IH, Hdkall.
      apply (IH kv Hin1).
      - destruct kv as [k c1]. exact (wf_child l1 k c1 Hwf Hin1).
      - exact (Hdkall kv Hin1).
      - apply (wf_child l2 (fst kv) c2 Hwfb). now apply get_in.
      - exact Hs. }
    rewrite Hentries. do 5 f_equal.
    destruct l1 as [|[k1 c1] l1'], l2 as [|[k2 c2] l2']; try reflexivity.
    + specialize (Hch k2). cbn in Hch. now rewrite String.eqb_refl in Hch.
    + specialize (Hch k1). cbn in Hch. now rewrite String.eqb_refl in Hch.
Qed.

(* ---------------------------------------------------------------- *)
(** ** What one section writes into its dict *)

Lemma set_keys_nodup {V : Type} (d : Py.dict V) (k : string) (v : V) :
  NoDup (Py.keys d) -> NoDup (Py.keys (Py.set d k v)).
Proof.
  induction d as [|[k0 v0] d IH]; cbn; intros H.
  - repeat constructor. tauto.
  - inversion H as [|? ? Hnotin Hnd]; subst.
    destruct (String.eqb_spec k k0); cbn; [now constructor|].
    constructor; [|now apply IH].
    intros Hin. apply keys_set in Hin. destruct Hin; [contradiction|congruence].
Qed.

Lemma declare_loop_total (ds : Py.dict string) (l : list (string * annotation)) :
  Forall (fun e => exists m, annotation_module (snd e) = Ok m) l ->
  forall items imps timps,
  exists items',
    for_each l (declare_attr ds)
      {| attr_dict := Namespace items; imports := imps; typing_imports := timps |}
    = Ok {| attr_dict := Namespace items';
            imports := imps ++ flat_map declared_import l;
            typing_imports :=
              timps ++ flat_map (fun e => snd (annotation_names (snd e))) l |}.
Proof.
  induction 1 as [|[n t] l [m Hm] _ IH]; intros items imps timps.
  - exists items. cbn. now rewrite !app_nil_r.
  - cbn [for_each flat_map]. unfold declare_attr at 1, declared_import at 1.
    cbn [snd] in *. destruct (annotation_names t) as [[tname iname] timports].
    cbn [setitem attr_dict bind fst snd imports typing_imports]. rewrite Hm.
    cbn [bind].
    match goal with
    | |- context [for_each l _ {| attr_dict := Namespace ?i; imports := ?a;
                                  typing_imports := ?b |}] =>
        destruct (IH i a b) as (items' & Hrun)
    end.
    exists items'. rewrite Hrun. f_equal. f_equal.
    + destruct iname as [i|]; [|reflexivity].
      destruct (String.eqb m "builtins"); [reflexivity|].
      now rewrite <- app_assoc.
    + now rewrite <- app_assoc.
Qed.

Lemma declare_loop_ok (ds : Py.dict string) (l : list (string * annotation)) :
  forall a a',
    for_each l (declare_attr ds) a = Ok a' ->
    Forall (fun e => exists m, annotation_module (snd e) = Ok m) l.
Proof.
  induction l as [|[n t] l IH]; intros a a' Hrun; [constructor|].
  cbn [for_each] in Hrun. unfold declare_attr at 1 in Hrun.
  destruct (annotation_names t) as [[tname iname] timports].
  destruct (setitem (attr_dict a) n (ConfigAttr tname (docstring ds n)))
    as [d|e]; [|discriminate].
  cbn [bind] in Hrun.
  destruct (annotation_module t) as [m|e] eqn:Hm; [|discriminate].
  cbn [bind] in Hrun. constructor; [cbn; eauto|]. eapply IH; eauto.
Qed.

Lemma section_fields_ok (cobj : pyclass) (a a' : acc) :
  section_fields cobj a = Ok a' -> annotations_ok cobj.
Proof.
  unfold section_fields. intros Hrun.
  destruct (for_each (dir (cls_attrs cobj)) (infer_attr cobj (docstrings_of cobj)) a)
    as [a1|e]; [|discriminate].
  cbn [bind] in Hrun. eapply declare_loop_ok; eauto.
Qed.

Lemma loops_keep_nodup {A : Type} (l : list A) (body : A -> acc -> result acc) :
  (forall x a a', body x a = Ok a' ->
     (forall items, attr_dict a = Namespace items -> NoDup (Py.keys items)) ->
     (forall items, attr_dict a' = Namespace items -> NoDup (Py.keys items))) ->
  forall a a',
    for_each l body a = Ok a' ->
    (forall items, attr_dict a = Namespace items -> NoDup (Py.keys items)) ->
    (forall items, attr_dict a' = Namespace items -> NoDup (Py.keys items)).
Proof.
  intros Hstep a a' Hrun Ha.
  refine (for_each_inv
            (fun a => forall items, attr_dict a = Namespace items ->
                                    NoDup (Py.keys items)) l body _ a a' Ha Hrun).
  intros x s s' _ Hs Hx. eapply Hstep; eauto.
Qed.

Lemma setitem_nodup (n : node) (k : string) (v n' : node) :
  setitem n k v = Ok n' ->
  (forall items, n = Namespace items -> NoDup (Py.keys items)) ->
  forall items, n' = Namespace items -> NoDup (Py.keys items).
Proof.
  destruct n as [|items0]; [discriminate|]. cbn. intros [= <-] H items [= <-].
  apply set_keys_nodup. now apply H.
Qed.

Lemma section_fields_nodup (cobj : pyclass) (a a' : acc) :
  section_fields cobj a = Ok a' ->
  (forall items, attr_dict a = Namespace items -> NoDup (Py.keys items)) ->
  forall items, attr_dict a' = Namespace items -> NoDup (Py.keys items).
Proof.
  unfold section_fields. intros Hrun Ha.
  destruct (for_each (dir (cls_attrs cobj)) (infer_attr cobj (docstrings_of cobj)) a)
    as [a1|e] eqn:H1; [|discriminate].
  cbn [bind] in Hrun.
  eapply loops_keep_nodup; [|exact Hrun|].
  - intros [n t] s s' Hbody Hs. unfold declare_attr in Hbody.
    destruct (annotation_names t) as [[tname iname] timports].
    destruct (setitem (attr_dict s) n (ConfigAttr tname (docstring (docstrings_of cobj) n)))
      as [d|e] eqn:Hd; [|discriminate].
    cbn [bind] in Hbody. destruct (annotation_module t); [|discriminate].
    cbn [bind] in Hbody. injection Hbody as <-. cbn [attr_dict].
    eapply setitem_nodup; eauto.
  - eapply loops_keep_nodup; [|exact H1|exact Ha].
    intros n s s' Hbody Hs. unfold infer_attr in Hbody.
    destruct (Py.startswith "__" n); [now injection Hbody as <-|].
    destruct (Py.get (cls_attrs cobj) n) as [v|]; [|discriminate].
    destruct (setitem (attr_dict s) n
                (ConfigAttr (ty_name (type_of v)) (docstring (docstrings_of cobj) n)))
      as [d|e] eqn:Hd; [|discriminate].
    cbn [bind] in Hbody. injection Hbody as <-. cbn [attr_dict].
    eapply setitem_nodup; eauto.
Qed.

(** The two loops of a section on a dict: they succeed when every
    annotation has a module, put the section's fields over the dict and
    append the section's imports. *)
Lemma section_fields_spec (cobj : pyclass) :
  NoDup (Py.keys (annotations_items cobj)) -> annotations_ok cobj ->
  forall items imps timps,
    NoDup (Py.keys items) ->
    exists items',
      section_fields cobj
        {| attr_dict := Namespace items; imports := imps; typing_imports := timps |}
      = Ok {| attr_dict := Namespace items';
              imports := imps ++ section_imports cobj;
              typing_imports := timps ++ section_typing_imports cobj |}
      /\ patched (field_of cobj) items items'
      /\ NoDup (Py.keys items').
Proof.
  intros Hnd Hok items imps timps Hitems.
  destruct (infer_loop_dir cobj items imps timps) as (items1 & H1 & Hget1).
  destruct (declare_loop_total (docstrings_of cobj) _ Hok items1
              (imps ++ inferred_imports cobj) timps) as (items' & H2).
  assert (Hrun : section_fields cobj
                   {| attr_dict := Namespace items; imports := imps;
                      typing_imports := timps |}
                 = Ok {| attr_dict := Namespace items';
                         imports := imps ++ section_imports cobj;
                         typing_imports := timps ++ section_typing_imports cobj |}).
  { unfold section_fields. rewrite H1. cbn [bind]. rewrite H2.
    unfold section_imports, section_typing_imports. now rewrite app_assoc. }
  exists items'. split; [exact Hrun|]. split.
  - destruct (declare_loop _ _ Hnd
                {| attr_dict := Namespace items1;
                   imports := imps ++ inferred_imports cobj;
                   typing_imports := timps |} _ items1 eq_refl H2)
      as (items2 & E & Hget2).
    cbn [attr_dict] in E. injection E as <-.
    intros x. rewrite Hget2. unfold field_of.
    destruct (Py.get (annotations_items cobj) x); [reflexivity|].
    rewrite Hget1. unfold inferred_field.
    destruct (Py.get (cls_attrs cobj) x); [|reflexivity].
    now destruct (Py.startswith "__" x).
  - apply (section_fields_nodup cobj _ _ Hrun); [|reflexivity].
    cbn [attr_dict]. now intros ? [= <-].
Qed.

(* ---------------------------------------------------------------- *)
(** ** Paths and their initial parts *)

Lemma is_prefix_nil (p : list string) : is_prefix [] p.
Proof. now exists p. Qed.

Lemma is_prefix_refl (p : list string) : is_prefix p p.
Proof. exists []. now rewrite app_nil_r. Qed.

Lemma is_prefix_cons (k : string) (q p : list string) :
  is_prefix (k :: q) (k :: p) <-> is_prefix q p.
Proof.
  split; intros [rest E]; exists rest.
  - now injection E.
  - cbn. now rewrite E.
Qed.

Lemma is_prefix_cons_inv (k k' : string) (q p : list string) :
  is_prefix (k :: q) (k' :: p) -> k = k'.
Proof. intros [rest E]. now injection E. Qed.

Lemma is_prefix_trans (a b c : list string) :
  is_prefix a b -> is_prefix b c -> is_prefix a c.
Proof.
  intros [r1 ->] [r2 ->]. exists (r1 ++ r2). now rewrite app_assoc.
Qed.

Lemma is_prefix_length (q p : list string) :
  is_prefix q p -> List.length q <= List.length p.
Proof. intros [rest ->]. rewrite length_app. lia. Qed.

Lemma prefix_cases (keys path : list string) :
  (exists x rest, path = keys ++ x :: rest)
  \/ is_prefix path keys
  \/ (~ is_prefix keys path /\ ~ is_prefix path keys).
Proof.
  revert path. induction keys as [|k ks IH]; intros path.
  - destruct path as [|x rest]; [right; left; apply is_prefix_nil|].
    left. now exists x, rest.
  - destruct path as [|k' p']; [right; left; apply is_prefix_nil|].
    destruct (String.eqb_spec k k') as [<- | Hne].
    + destruct (IH p') as [(x & rest & ->) | [H | [H1 H2]]].
      * left. now exists x, rest.
      * right. left. now apply is_prefix_cons.
      * right. right. now rewrite !is_prefix_cons.
    + right. right. split; intros H; apply is_prefix_cons_inv in H; congruence.
Qed.

Lemma prefix_of_snoc (a b : list string) (x y : string) :
  is_prefix (a ++ [x]) (b ++ [y]) -> is_prefix (a ++ [x]) b \/ (a = b /\ x = y).
Proof.
  intros [rest E]. destruct rest as [|r0 rest0].
  - rewrite app_nil_r in E. apply app_inj_tail in E. right. intuition.
  - destruct (@exists_last _ (r0 :: rest0)) as (rest' & z & E'); [discriminate|].
    rewrite E' in E. left. rewrite app_assoc in E. apply app_inj_tail in E.
    destruct E as [-> _]. now exists rest'.
Qed.

Lemma section_path_inj (p q : string) : section_path p = section_path q -> p = q.
Proof.
  unfold section_path.
  destruct (String.eqb_spec p "@base"), (String.eqb_spec q "@base"); subst;
    intros E.
  - reflexivity.
  - symmetry in E. now apply split_dot_nonempty in E.
  - now apply split_dot_nonempty in E.
  - rewrite <- (join_split_dot p), <- (join_split_dot q). now rewrite E.
Qed.

(* ---------------------------------------------------------------- *)
(** ** The effect of one section on the tree *)

Lemma tree_get_empty (path : list string) :
  path <> [] -> tree_get (Namespace []) path = None.
Proof. destruct path; [contradiction|reflexivity]. Qed.

Lemma wf_set (items : list (string * node)) (k : string) (c : node) :
  wf_tree (Namespace items) -> wf_tree c -> wf_tree (Namespace (Py.set items k c)).
Proof.
  intros H Hc. inversion H as [|? Hnd Hall]; subst. constructor.
  - now apply set_keys_nodup.
  - apply Forall_forall. intros [k' c'] Hin. cbn [snd].
    apply in_set in Hin. destruct Hin as [[= -> ->] | Hin]; [exact Hc|].
    rewrite Forall_forall in Hall. apply (Hall (k', c') Hin).
Qed.

Lemma wf_get (items : list (string * node)) (k : string) (c : node) :
  wf_tree (Namespace items) -> Py.get items k = Some c -> wf_tree c.
Proof. intros H E. apply (wf_child items k c H). now apply get_in. Qed.

Lemma wf_empty : wf_tree (Namespace []).
Proof. constructor; constructor. Qed.

Lemma wf_patched (fo : string -> option node) (items items' : list (string * node)) :
  (forall x n, fo x = Some n -> exists t d, n = ConfigAttr t d) ->
  wf_tree (Namespace items) -> patched fo items items' ->
  NoDup (Py.keys items') -> wf_tree (Namespace items').
Proof.
  intros Hfo Hwf Hp Hnd. constructor; [exact Hnd|].
  apply Forall_forall. intros [k c] Hin. cbn [snd].
  pose proof (get_nodup_in items' k c Hnd Hin) as E. rewrite Hp in E.
  destruct (fo k) as [n|] eqn:Ef.
  - injection E as <-. destruct (Hfo k n Ef) as (t & d & ->). constructor.
  - now apply (wf_get items k c).
Qed.

(** [_recursive_dd_get] on a tree with no leaf in the way, for statements
    that put fields over the dict they are given. *)
Lemma dd_get_spec {B : Type} (fo : string -> option node)
    (body : node -> result (node * B)) (b0 : B) :
  (forall x n, fo x = Some n -> exists t d, n = ConfigAttr t d) ->
  (forall items, NoDup (Py.keys items) ->
     exists items',
       body (Namespace items) = Ok (Namespace items', b0)
       /\ patched fo items items' /\ NoDup (Py.keys items')) ->
  forall keys T,
    wf_tree T ->
    (forall path t d, is_prefix path keys ->
                      tree_get T path <> Some (ConfigAttr t d)) ->
    exists T',
      _recursive_dd_get T keys body = Ok (T', b0)
      /\ wf_tree T'
      /\ (forall x rest,
            tree_get T' (keys ++ x :: rest)
            = match fo x with
              | Some n => tree_get n rest
              | None => tree_get T (keys ++ x :: rest)
              end)
      /\ (forall path, is_prefix path keys ->
                       exists l, tree_get T' path = Some (Namespace l))
      /\ (forall path, ~ is_prefix keys path -> ~ is_prefix path keys ->
                       tree_get T' path = tree_get T path).
Proof.
  intros Hfo Hbody. induction keys as [|k ks IH]; intros T Hwf Hfree.
  - destruct T as [t d|items].
    { exfalso. apply (Hfree [] t d); [apply is_prefix_nil|reflexivity]. }
    destruct (Hbody items (wf_keys items Hwf)) as (items' & Hrun & Hp & Hnd).
    exists (Namespace items'). split; [exact Hrun|].
    split; [now apply (wf_patched fo items items')|]. split; [|split].
    + intros x rest. cbn [app tree_get]. rewrite Hp.
      destruct (fo x) as [n|]; reflexivity.
    + intros path [rest E]. symmetry in E. apply app_eq_nil in E.
      destruct E as [-> _]. now exists items'.
    + intros path H. exfalso. apply H, is_prefix_nil.
  - destruct T as [t d|items].
    { exfalso. apply (Hfree [] t d); [apply is_prefix_nil|reflexivity]. }
    set (child := match Py.get items k with Some c => c | None => Namespace [] end).
    assert (Hchild : forall path, path <> [] \/ Py.get items k <> None ->
                        tree_get (Namespace items) (k :: path) = tree_get child path).
    { intros path Hp. cbn [tree_get]. unfold child.
      destruct (Py.get items k); [reflexivity|].
      destruct Hp as [Hp | Hp]; [|contradiction].
      now rewrite tree_get_empty. }
    assert (Hwfc : wf_tree child).
    { unfold child. destruct (Py.get items k) eqn:E; [|apply wf_empty].
      now apply (wf_get items k). }
    destruct (IH child Hwfc) as (child' & Hrun & Hwf' & Hin & Hpre & Hout).
    { intros path t d Hp E. unfold child in E.
      destruct (Py.get items k) as [c|] eqn:Ec.
      - apply (Hfree (k :: path) t d); [now apply is_prefix_cons|].
        cbn [tree_get]. now rewrite Ec.
      - destruct path; [discriminate|]. cbn in E. discriminate. }
    exists (Namespace (Py.set items k child')). split.
    { cbn [_recursive_dd_get]. fold child. rewrite Hrun. reflexivity. }
    split; [now apply wf_set|]. split; [|split].
    + intros x rest. cbn [app tree_get]. rewrite get_set_same, Hin.
      destruct (fo x); [reflexivity|].
      change (tree_get child (ks ++ x :: rest)
              = tree_get (Namespace items) (k :: ks ++ x :: rest)).
      rewrite Hchild; [reflexivity|]. left. intros E. apply app_eq_nil in E.
      destruct E; discriminate.
    + intros [|k' path'] Hp; [now exists (Py.set items k child')|].
      pose proof (is_prefix_cons_inv _ _ _ _ Hp) as <-.
      apply is_prefix_cons in Hp. cbn [tree_get]. rewrite get_set_same.
      now apply Hpre.
    + intros [|k' path'] H1 H2; [exfalso; apply H2, is_prefix_nil|].
      cbn [tree_get]. destruct (String.eqb_spec k' k) as [-> | Hne].
      * rewrite get_set_same. rewrite is_prefix_cons in H1, H2.
        rewrite (Hout path' H1 H2).
        change (tree_get child path' = tree_get (Namespace items) (k :: path')).
        rewrite Hchild; [reflexivity|]. left. intros ->. apply H2, is_prefix_nil.
      * now rewrite get_set_other.
Qed.

Lemma field_of_leaf (cobj : pyclass) (x : string) (n : node) :
  field_of cobj x = Some n -> exists t d, n = ConfigAttr t d.
Proof.
  unfold field_of, inferred_field.
  destruct (Py.get (annotations_items cobj) x); [intros [= <-]; eauto|].
  destruct (Py.get (cls_attrs cobj) x); [|discriminate].
  destruct (Py.startswith "__" x); [discriminate|]. intros [= <-]. eauto.
Qed.

Lemma has_leaf_app (done : Py.dict pyclass) (q : string) (cq : pyclass)
    (path : list string) (t d : string) :
  has_leaf (done ++ [(q, cq)]) path t d
  <-> has_leaf done path t d
      \/ exists x, path = section_path q ++ [x]
                   /\ field_of cq x = Some (ConfigAttr t d).
Proof.
  split.
  - intros (p & cp & x & Hin & E & Hf). apply in_app_or in Hin.
    destruct Hin as [Hin | [[= -> ->] | []]].
    + left. now exists p, cp, x.
    + right. now exists x.
  - intros [(p & cp & x & Hin & E & Hf) | (x & E & Hf)].
    + exists p, cp, x. split; [apply in_or_app; now left|auto].
    + exists q, cq, x. split; [apply in_or_app; right; now left|auto].
Qed.

Lemma has_namespace_app (done : Py.dict pyclass) (q : string) (cq : pyclass)
    (path : list string) :
  has_namespace (done ++ [(q, cq)]) path
  <-> has_namespace done path \/ is_prefix path (section_path q).
Proof.
  split.
  - intros [-> | (p & cp & Hin & Hp)]; [left; now left|].
    apply in_app_or in Hin. destruct Hin as [Hin | [[= -> ->] | []]].
    + left. right. now exists p, cp.
    + now right.
  - intros [[-> | (p & cp & Hin & Hp)] | Hp].
    + now left.
    + right. exists p, cp. split; [apply in_or_app; now left|exact Hp].
    + right. exists q, cq. split; [apply in_or_app; right; now left|exact Hp].
Qed.

Lemma not_prefix_longer (sq : list string) (x : string) (rest : list string) :
  ~ is_prefix (sq ++ x :: rest) sq.
Proof.
  intros H. apply is_prefix_length in H. rewrite length_app in H. cbn in H. lia.
Qed.

Lemma tree_get_leaf (t0 d0 : string) (rest : list string) (n : node) :
  tree_get (ConfigAttr t0 d0) rest = Some n -> rest = [] /\ n = ConfigAttr t0 d0.
Proof. destruct rest; [intros [= <-]; auto|discriminate]. Qed.

(** One turn of the loop of [output_stub] on a tree that holds the sections
    handled so far. *)
Lemma add_section_built (r done : Py.dict pyclass) (q : string) (cq : pyclass)
    (T : node) (imps timps : list string) :
  no_collision r ->
  incl (done ++ [(q, cq)]) r ->
  NoDup (Py.keys (done ++ [(q, cq)])) ->
  NoDup (Py.keys (annotations_items cq)) -> annotations_ok cq ->
  built done T ->
  exists T',
    add_section (q, cq) (T, imps, timps)
    = Ok (T', imps ++ section_imports cq, timps ++ section_typing_imports cq)
    /\ built (done ++ [(q, cq)]) T'.
Proof.
  intros Hnc Hincl Hnd Hann Hok (Hwf & Hleaf & Hns).
  set (sq := section_path q).
  assert (Hq : In (q, cq) r) by (apply Hincl, in_or_app; right; now left).
  assert (Hdone : forall p cp, In (p, cp) done -> In (p, cp) r)
    by (intros p cp H; apply Hincl, in_or_app; now left).
  assert (Hfresh : forall p cp, In (p, cp) done -> section_path p <> sq).
  { intros p cp Hin E. apply section_path_inj in E. subst p.
    unfold Py.keys in Hnd. rewrite map_app in Hnd. cbn in Hnd.
    apply NoDup_remove_2 in Hnd. apply Hnd. rewrite app_nil_r.
    apply (in_map fst) in Hin. exact Hin. }
  destruct (dd_get_spec (field_of cq)
              (fun attr_dict0 =>
                 a <- section_fields cq
                        {| attr_dict := attr_dict0; imports := imps;
                           typing_imports := timps |} ;;
                 Ok (attr_dict a, (imports a, typing_imports a)))
              (imps ++ section_imports cq, timps ++ section_typing_imports cq)
              (field_of_leaf cq)) with (keys := sq) (T := T)
    as (T' & Hrun & Hwf' & Hin & Hpre & Hout).
  { intros items Hitems.
    destruct (section_fields_spec cq Hann Hok items imps timps Hitems)
      as (items' & Hf & Hp & Hnd').
    exists items'. rewrite Hf. cbn. auto. }
  { exact Hwf. }
  { intros path t d Hp E. apply Hleaf in E.
    destruct E as (p & cp & x & Hpin & -> & Hf).
    apply (Hnc p cp q cq x); auto. congruence. }
  exists T'. split.
  { unfold add_section. fold sq. rewrite Hrun. reflexivity. }
  split; [exact Hwf'|]. split.
  - (* leaves *)
    intros path t d. rewrite has_leaf_app. fold sq.
    destruct (prefix_cases sq path) as [(x & rest & ->) | [Hp | [H1 H2]]].
    + rewrite Hin. destruct (field_of cq x) as [n|] eqn:Ef.
      * destruct (field_of_leaf cq x n Ef) as (t0 & d0 & ->). split.
        -- intros E. apply tree_get_leaf in E. destruct E as [-> [= <- <-]].
           right. now exists x.
        -- intros [(p & cp & y & Hpin & E & Hf) | (y & E & Hf)].
           ++ exfalso.
              assert (Hpre' : is_prefix (sq ++ [x]) (section_path p ++ [y])).
              { exists rest. rewrite <- E, <- app_assoc. reflexivity. }
              apply prefix_of_snoc in Hpre'. destruct Hpre' as [Hpre' | [E' _]].
              ** apply (Hnc q cq p cp x); auto. congruence.
              ** symmetry in E'. now apply (Hfresh p cp Hpin).
           ++ apply app_inv_head in E. injection E as -> ->.
              rewrite Ef in Hf. injection Hf as <- <-. reflexivity.
      * rewrite Hleaf. split; [now left|]. intros [H | (y & E & Hf)]; [exact H|].
        apply app_inv_head in E. injection E as -> _. congruence.
    + destruct (Hpre path Hp) as (l & ->). split; [discriminate|].
      intros H. exfalso.
      assert (Hl : has_leaf (done ++ [(q, cq)]) path t d)
        by now apply has_leaf_app.
      destruct Hl as (p & cp & y & Hpin & -> & Hf).
      apply (Hnc p cp q cq y); auto. congruence.
    + rewrite (Hout path H1 H2), Hleaf. split; [now left|].
      intros [H | (y & -> & Hf)]; [exact H|].
      exfalso. apply H1. now exists [y].
  - (* namespaces *)
    intros path. rewrite has_namespace_app. fold sq.
    destruct (prefix_cases sq path) as [(x & rest & ->) | [Hp | [H1 H2]]].
    + rewrite Hin. destruct (field_of cq x) as [n|] eqn:Ef.
      * destruct (field_of_leaf cq x n Ef) as (t0 & d0 & ->). split.
        -- intros (l & E). apply tree_get_leaf in E. destruct E as [_ E].
           discriminate.
        -- intros [[E | (p & cp & Hpin & Hp)] | Hp].
           ++ apply app_eq_nil in E. destruct E; discriminate.
           ++ exfalso. apply (Hnc q cq p cp x); auto; [congruence|].
              eapply is_prefix_trans; [|exact Hp].
              exists rest. now rewrite <- app_assoc.
           ++ exfalso. now apply not_prefix_longer in Hp.
      * rewrite Hns. split; [now left|]. intros [H | Hp]; [exact H|].
        exfalso. now apply not_prefix_longer in Hp.
    + split; [now right|]. intros _. now apply Hpre.
    + rewrite (Hout path H1 H2), Hns. split; [now left|].
      intros [H | Hp]; [exact H|contradiction].
Qed.

Lemma built_empty : built [] (Namespace []).
Proof.
  split; [apply wf_empty|]. split.
  - intros path t d. split.
    + destruct path; cbn; discriminate.
    + intros (p & cp & x & [] & _).
  - intros path. split.
    + intros (l & E). destruct path; [now left|discriminate].
    + intros [-> | (p & cp & [] & _)]. now exists [].
Qed.

(** The whole first loop of [output_stub], from the empty tree. *)
Lemma build_spec (r : Py.dict pyclass) :
  no_collision r -> NoDup (Py.keys r) ->
  (forall p cp, In (p, cp) r ->
     NoDup (Py.keys (annotations_items cp)) /\ annotations_ok cp) ->
  exists T,
    build_schema r (Namespace [])
    = Ok (T, flat_map (fun e => section_imports (snd e)) r,
          flat_map (fun e => section_typing_imports (snd e)) r)
    /\ built r T.
Proof.
  intros Hnc Hnd Hcls.
  assert (H : forall rest done T imps timps,
             r = done ++ rest -> built done T ->
             exists T',
               for_each rest add_section (T, imps, timps)
               = Ok (T', imps ++ flat_map (fun e => section_imports (snd e)) rest,
                     timps ++ flat_map (fun e => section_typing_imports (snd e)) rest)
               /\ built r T').
  { induction rest as [|[q cq] rest IH]; intros done T imps timps Er Hb.
    - exists T. cbn. rewrite !app_nil_r in *. subst. auto.
    - assert (Er' : r = (done ++ [(q, cq)]) ++ rest)
        by now rewrite <- app_assoc.
      destruct (Hcls q cq) as [Hann Hok].
      { rewrite Er. apply in_or_app. right. now left. }
      destruct (add_section_built r done q cq T imps timps) as (T1 & Hrun & Hb1);
        auto.
      { rewrite Er'. intros e He. apply in_or_app. now left. }
      { rewrite Er' in Hnd. unfold Py.keys in *. rewrite map_app in Hnd.
        now apply NoDup_app_remove_r in Hnd. }
      destruct (IH (done ++ [(q, cq)]) T1 (imps ++ section_imports cq)
                  (timps ++ section_typing_imports cq) Er' Hb1)
        as (T' & Hrun' & Hb').
      exists T'. split; [|exact Hb'].
      cbn [for_each]. rewrite Hrun. cbn [bind]. rewrite Hrun'.
      cbn [flat_map snd]. now rewrite !app_assoc. }
  destruct (H r [] (Namespace []) [] [] eq_refl built_empty) as (T & Hrun & Hb).
  exists T. split; [exact Hrun|exact Hb].
Qed.

Lemma add_section_ok (q : string) (cq : pyclass) (s s' : schema) :
  add_section (q, cq) s = Ok s' -> annotations_ok cq.
Proof.
  destruct s as [[config imps] timps]. unfold add_section. intros Hrun.
  match type of Hrun with
  | bind ?r _ = _ => destruct r as [[config' b]|e] eqn:Hget; [|discriminate]
  end.
  apply _recursive_dd_get_ok in Hget. destruct Hget as (a0 & a' & Hbody & _).
  destruct (section_fields cq
              {| attr_dict := a0; imports := imps; typing_imports := timps |})
    as [a|e] eqn:Hf; [|discriminate].
  eapply section_fields_ok; eauto.
Qed.

Lemma build_schema_ok (r : Py.dict pyclass) :
  forall s s',
    for_each r add_section s = Ok s' ->
    forall p cp, In (p, cp) r -> annotations_ok cp.
Proof.
  induction r as [|[q cq] r IH]; intros s s' Hrun p cp Hin; [contradiction|].
  cbn [for_each] in Hrun.
  destruct (add_section (q, cq) s) as [s1|e] eqn:H1; [|discriminate].
  cbn [bind] in Hrun. destruct Hin as [[= -> ->] | Hin].
  - eapply add_section_ok; eauto.
  - eapply IH; eauto.
Qed.

Lemma built_sim (r1 r2 : Py.dict pyclass) (T1 T2 : node) :
  (forall e, In e r1 <-> In e r2) ->
  built r1 T1 -> built r2 T2 -> tree_sim T1 T2.
Proof.
  intros Hr (_ & Hl1 & Hn1) (_ & Hl2 & Hn2) path.
  assert (Hleaf : forall t d, has_leaf r1 path t d <-> has_leaf r2 path t d).
  { intros t d. split; intros (p & cp & x & Hin & E & Hf); exists p, cp, x;
      (split; [now apply Hr|auto]). }
  assert (Hns : has_namespace r1 path <-> has_namespace r2 path).
  { split; (intros [-> | (p & cp & Hin & Hp)]; [now left|]);
      right; exists p, cp; (split; [now apply Hr|auto]). }
  destruct (tree_get T1 path) as [[t d|l]|] eqn:E1.
  - apply Hl1, Hleaf, Hl2 in E1. now rewrite E1.
  - assert (H : exists l', tree_get T2 path = Some (Namespace l')).
    { apply Hn2, Hns, Hn1. eauto. }
    destruct H as (l' & ->). reflexivity.
  - destruct (tree_get T2 path) as [[t d|l]|] eqn:E2; [| |reflexivity].
    + apply Hl2, Hleaf, Hl1 in E2. congruence.
    + assert (H : exists l', tree_get T1 path = Some (Namespace l')).
      { apply Hn1, Hns, Hn2. eauto. }
      destruct H as (l' & H). congruence.
Qed.

Lemma built_root (r : Py.dict pyclass) (T : node) :
  built r T -> exists l, T = Namespace l.
Proof.
  intros (_ & _ & Hns). destruct (proj2 (Hns []) (or_introl eq_refl)) as (l & E).
  cbn in E. injection E as ->. eauto.
Qed.

Lemma no_collision_perm (r1 r2 : Py.dict pyclass) :
  (forall e, In e r1 <-> In e r2) -> no_collision r1 -> no_collision r2.
Proof.
  intros Hr H p cp q cq x Hp Hq. apply (H p cp q cq x); now apply Hr.
Qed.

(** C4: when a section has a public attribute [x] with a default value and
    an annotation for [x], the field recorded for [x] carries the type text
    derived from the annotation (the class name, the rendered typing
    expression, or the annotation's own text) and the docstring of [x]: so
    it is after the section's own turn of the loop, and so it is in the tree
    the whole loop builds from the empty one when no field sits on the path
    of another section. *)
Theorem declared_overrides_inferred (cname : string) (cobj : pyclass)
    (x : string) (v : value) (t : annotation) :
  NoDup (Py.keys (annotations_items cobj)) ->
  Py.get (cls_attrs cobj) x = Some v ->
  Py.startswith "__" x = false ->
  Py.get (annotations_items cobj) x = Some t ->
  let declared :=
    ConfigAttr (annotation_type t) (docstring (docstrings_of cobj) x) in
  (forall s s',
      add_section (cname, cobj) s = Ok s' ->
      tree_get (fst (fst s')) (section_path cname ++ [x]) = Some declared)
  /\ (forall r T imps timps,
        In (cname, cobj) r ->
        NoDup (Py.keys r) ->
        (forall p cp, In (p, cp) r -> NoDup (Py.keys (annotations_items cp))) ->
        no_collision r ->
        build_schema r (Namespace []) = Ok (T, imps, timps) ->
        tree_get T (section_path cname ++ [x]) = Some declared).
Proof.
  intros Hnd _ _ Ht declared. split.
  - intros s s' Hrun. now apply (add_section_declared cname cobj s s' x t).
  - intros r T imps timps Hin Hkeys Hann Hnc Hrun.
    destruct (build_spec r Hnc Hkeys) as (T' & Hrun' & _ & Hleaf & _).
    { intros p cp Hp. split; [now apply (Hann p cp)|].
      exact (build_schema_ok r _ _ Hrun p cp Hp). }
    rewrite Hrun' in Hrun. injection Hrun as <- _ _.
    apply Hleaf. exists cname, cobj, x. split; [exact Hin|]. split; [reflexivity|].
    unfold field_of. now rewrite Ht.
Qed.

Lemma declared_overrides_inferred_witness :
  (exists s',
      add_section ("net.http", Http) (Namespace [], [], []) = Ok s'
      /\ tree_get (fst (fst s')) ["net"; "http"; "port"]
         = Some (ConfigAttr "float" "Port to listen on."))
  /\ tree_get (Namespace (config maker_app)) ["net"; "http"; "port"]
     = Some (ConfigAttr "float" "Port to listen on.").
Proof.
  assert (Hnd : NoDup (Py.keys (annotations_items Http)))
    by (repeat constructor; simpl; intuition discriminate).
  pose proof (declared_overrides_inferred "net.http" Http "port"
                (data int_t "8080") (AnnType float_t) Hnd eq_refl eq_refl eq_refl)
    as [Hturn Hall].
  split.
  - eexists. split; [reflexivity|].
    apply (Hturn (Namespace [], [], [])). reflexivity.
  - apply (Hall (_name_to_config globals_app) _
             ["from pathlib import PosixPath"] ["Optional"]).
    + left. reflexivity.
    + repeat constructor; simpl; intuition discriminate.
    + intros p cp [[= <- <-] | [[= <- <-] | []]].
      * exact Hnd.
      * constructor.
    + intros p cp q cq y [[= <- <-] | [[= <- <-] | []]]
        [[= <- <-] | [[= <- <-] | []]] Hf [rest E]; cbv in E; try congruence.
      injection E as <- _. apply Hf. reflexivity.
    + reflexivity.
Defined.

(** C9: the first loop of a section records exactly the attributes [dir]
    lists whose name does not start with two underscores, each with the name
    of the runtime type of its value and its docstring, leaves every other
    entry of the section's dict as it was, and appends one import line for
    each recorded attribute whose type does not live in [builtins].  In the
    tree the whole loop builds from the empty one, when no field sits on the
    path of another section, the names of the section without an annotation
    hold exactly these fields, and the import lines are among the collected
    ones. *)
Theorem inferred_fields (cname : string) (cobj : pyclass) :
  (forall items imps timps,
      exists items',
        for_each (dir (cls_attrs cobj)) (infer_attr cobj (docstrings_of cobj))
          {| attr_dict := Namespace items; imports := imps;
             typing_imports := timps |}
        = Ok {| attr_dict := Namespace items';
                imports := imps ++ inferred_imports cobj;
                typing_imports := timps |}
        /\ (forall name,
              Py.get items' name
              = match Py.get (cls_attrs cobj) name with
                | Some v =>
                    if Py.startswith "__" name then Py.get items name
                    else Some (ConfigAttr (ty_name (type_of v))
                                 (docstring (docstrings_of cobj) name))
                | None => Py.get items name
                end))
  /\ (forall line,
        In line (inferred_imports cobj)
        <-> exists name v,
              Py.get (cls_attrs cobj) name = Some v
              /\ Py.startswith "__" name = false
              /\ ty_module (type_of v) <> "builtins"
              /\ line = import_line (ty_module (type_of v)) (ty_name (type_of v)))
  /\ (forall r T imps timps,
        In (cname, cobj) r ->
        NoDup (Py.keys r) ->
        (forall p cp, In (p, cp) r -> NoDup (Py.keys (annotations_items cp))) ->
        no_collision r ->
        build_schema r (Namespace []) = Ok (T, imps, timps) ->
        (forall x type_ docstring_,
            Py.get (annotations_items cobj) x = None ->
            (tree_get T (section_path cname ++ [x])
             = Some (ConfigAttr type_ docstring_)
             <-> exists v,
                   Py.get (cls_attrs cobj) x = Some v
                   /\ Py.startswith "__" x = false
                   /\ type_ = ty_name (type_of v)
                   /\ docstring_ = docstring (docstrings_of cobj) x))
        /\ (forall line, In line (inferred_imports cobj) -> In line imps)).
Proof.
  split; [intros items imps timps; apply infer_loop_dir|].
  split; [apply inferred_imports_spec|].
  intros r T imps timps Hin Hkeys Hann Hnc Hrun.
  destruct (build_spec r Hnc Hkeys) as (T' & Hrun' & _ & Hleaf & _).
  { intros p cp Hp. split; [now apply (Hann p cp)|].
    exact (build_schema_ok r _ _ Hrun p cp Hp). }
  rewrite Hrun' in Hrun. injection Hrun as <- <- _. split.
  - intros x type_ docstring_ Hx. rewrite Hleaf. split.
    + intros (p & cp & y & Hp & E & Hf).
      apply app_inj_tail in E. destruct E as [E <-].
      apply section_path_inj in E. subst p.
      assert (cp = cobj).
      { pose proof (get_nodup_in r cname cp Hkeys Hp) as E1.
        pose proof (get_nodup_in r cname cobj Hkeys Hin) as E2. congruence. }
      subst cp. unfold field_of, inferred_field in Hf. rewrite Hx in Hf.
      destruct (Py.get (cls_attrs cobj) x) as [v|]; [|discriminate].
      destruct (Py.startswith "__" x); [discriminate|].
      injection Hf as <- <-. eauto.
    + intros (v & Hv & Hd & -> & ->). exists cname, cobj, x.
      split; [exact Hin|]. split; [reflexivity|].
      unfold field_of, inferred_field. now rewrite Hx, Hv, Hd.
  - intros line Hline. apply in_flat_map. exists (cname, cobj).
    split; [exact Hin|]. unfold section_imports. cbn [snd].
    apply in_or_app. now left.
Qed.

Lemma inferred_fields_witness :
  tree_get (Namespace (config maker_app)) ["net"; "http"; "root"]
  = Some (ConfigAttr "PosixPath" EmptyString)
  /\ In "from pathlib import PosixPath" ["from pathlib import PosixPath"].
Proof.
  destruct (proj2 (proj2 (inferred_fields "net.http" Http))
              (_name_to_config globals_app) (Namespace (config maker_app))
              ["from pathlib import PosixPath"] ["Optional"])
    as [Hfield Himports].
  - left. reflexivity.
  - repeat constructor; simpl; intuition discriminate.
  - intros p cp [[= <- <-] | [[= <- <-] | []]];
      repeat constructor; simpl; intuition discriminate.
  - intros p cp q cq y [[= <- <-] | [[= <- <-] | []]]
      [[= <- <-] | [[= <- <-] | []]] Hf [rest E]; cbv in E; try congruence.
    injection E as <- _. apply Hf. reflexivity.
  - reflexivity.
  - split.
    + apply (Hfield "root" "PosixPath" EmptyString eq_refl).
      exists (data path_t "/srv"). repeat split.
    + apply Himports. left. reflexivity.
Defined.

(** C9 as stated fails: [_private] and [_Http2__token], the stored form of
    [__token], are not public names, yet the turn of the section records
    both as fields beside [port]; only [__module__], which starts with two
    underscores, is left out. *)
Lemma inferred_fields_non_public :
  non_public "_private" = true
  /\ non_public "_Http2__token" = true
  /\ inferred_field Http2 "_private" = Some (ConfigAttr "int" EmptyString)
  /\ inferred_field Http2 "_Http2__token" = Some (ConfigAttr "str" EmptyString)
  /\ build_schema [("api", Http2)] (Namespace [])
     = Ok (Namespace
             [("api", Namespace
                [("_Http2__token", ConfigAttr "str" EmptyString);
                 ("_private", ConfigAttr "int" EmptyString);
                 ("port", ConfigAttr "int" EmptyString)])],
           [], []).
Proof. repeat split; reflexivity. Qed.

Lemma flat_map_members {A : Type} (fn : A -> list string) (l1 l2 : list A) :
  (forall e, In e l1 <-> In e l2) ->
  forall x, In x (flat_map fn l1) <-> In x (flat_map fn l2).
Proof.
  intros H x. rewrite !in_flat_map.
  split; intros (e & He & Hx); exists e; (split; [now apply H|exact Hx]).
Qed.

(** C6, as the code has it: two runs of [output_stub] from a fresh maker
    over the same sections registered in any two orders write the same stub
    and the same module text, provided no field of a section sits on the
    path of another section and no two entries of a block of the tree share
    a sort key.  The run over the second order succeeds whenever the run
    over the first does. *)
Theorem output_stub_deterministic (self : StubMaker) (g1 g2 : globals)
    (self1 : StubMaker) (stub module_text : string) :
  config self = [] ->
  Permutation (_name_to_config g1) (_name_to_config g2) ->
  NoDup (Py.keys (_name_to_config g1)) ->
  (forall p cp, In (p, cp) (_name_to_config g1) ->
     NoDup (Py.keys (annotations_items cp))) ->
  no_collision (_name_to_config g1) ->
  output_stub self g1 = Ok (self1, stub, module_text) ->
  distinct_sort_keys (Namespace (config self1)) ->
  exists self2, output_stub self g2 = Ok (self2, stub, module_text).
Proof.
  intros Hfresh Hperm Hnd Hann Hnc Hrun Hdk.
  set (r1 := _name_to_config g1) in *. set (r2 := _name_to_config g2) in *.
  assert (Hmem : forall e, In e r1 <-> In e r2).
  { intros e. split; apply Permutation_in; [exact Hperm|now symmetry]. }
  unfold output_stub in Hrun. fold r1 in Hrun. rewrite Hfresh in Hrun.
  destruct (build_schema r1 (Namespace [])) as [[[T1' imps1'] timps1']|e] eqn:Hb1;
    [|discriminate].
  cbn [bind] in Hrun.
  assert (Hok : forall p cp, In (p, cp) r1 -> annotations_ok cp).
  { intros p cp Hin. exact (build_schema_ok r1 _ _ Hb1 p cp Hin). }
  destruct (build_spec r1 Hnc Hnd) as (T1 & Hs1 & Hbuilt1).
  { intros p cp Hin. split; [now apply (Hann p cp)|now apply (Hok p cp)]. }
  rewrite Hs1 in Hb1. injection Hb1 as <- <- <-.
  destruct (build_spec r2) as (T2 & Hs2 & Hbuilt2).
  { now apply (no_collision_perm r1 r2). }
  { eapply Permutation_NoDup; [|exact Hnd]. now apply Permutation_map. }
  { intros p cp Hin. apply Hmem in Hin.
    split; [now apply (Hann p cp)|now apply (Hok p cp)]. }
  pose proof (built_sim r1 r2 T1 T2 Hmem Hbuilt1 Hbuilt2) as Hsim.
  assert (Hself : config self1 = config_of T1) by (injection Hrun as <- _ _; reflexivity).
  assert (Hstub : stub_text (_base_path self)
                    (T2, flat_map (fun e => section_imports (snd e)) r2,
                     flat_map (fun e => section_typing_imports (snd e)) r2)
                  = stub).
  { assert (E : stub_text (_base_path self)
                  (T1, flat_map (fun e => section_imports (snd e)) r1,
                   flat_map (fun e => section_typing_imports (snd e)) r1)
                = stub) by congruence.
    rewrite <- E. clear E Hrun. unfold stub_text.
    destruct (built_root r1 T1 Hbuilt1) as (l1 & ->).
    destruct (built_root r2 T2 Hbuilt2) as (l2 & ->).
    cbn [config_of] in *.
    rewrite (sorted_set_members _ _
               (flat_map_members (fun e => section_typing_imports (snd e)) r2 r1
                  (fun e => iff_sym (Hmem e)))).
    rewrite (sorted_set_members _ _
               (flat_map_members (fun e => section_imports (snd e)) r2 r1
                  (fun e => iff_sym (Hmem e)))).
    assert (Hf : f "Config" l1 0 = f "Config" l2 0).
    { change (emit "Config" (Namespace l1) 0 = emit "Config" (Namespace l2) 0).
      apply emit_sim.
      - now destruct Hbuilt1.
      - now rewrite <- Hself.
      - now destruct Hbuilt2.
      - exact Hsim. }
    now rewrite Hf. }
  assert (Hmod : DISCLAIMER (_base_path self) +++ CONFIG_PY_BASE = module_text)
    by congruence.
  unfold output_stub. fold r2. rewrite Hfresh, Hs2. cbn [bind].
  rewrite Hstub, Hmod. eauto.
Qed.

Lemma output_stub_deterministic_witness :
  output_stub (StubMaker_init "config.py" false) globals_app
  = Ok (maker_app, stub_app, DISCLAIMER "config.py" +++ CONFIG_PY_BASE)
  /\ exists self2,
       output_stub (StubMaker_init "config.py" false) globals_app_rev
       = Ok (self2, stub_app, DISCLAIMER "config.py" +++ CONFIG_PY_BASE).
Proof.
  split; [reflexivity|].
  apply (output_stub_deterministic (StubMaker_init "config.py" false)
           globals_app globals_app_rev maker_app).
  - reflexivity.
  - apply perm_swap.
  - repeat constructor; simpl; intuition discriminate.
  - intros p cp [[= <- <-] | [[= <- <-] | []]].
    + repeat constructor; simpl; intuition discriminate.
    + constructor.
  - intros p cp q cq x [[= <- <-] | [[= <- <-] | []]]
      [[= <- <-] | [[= <- <-] | []]] Hf [rest E]; cbv in E; try congruence.
    injection E as <- _. apply Hf. reflexivity.
  - reflexivity.
  - repeat constructor; simpl; intuition discriminate.
Defined.

Example stub_app_text :
  f "Config" (config maker_app) 0
  = "class Config:" +++ Py.nl +++
    "    debug: bool" +++ Py.nl +++
    "    class net:" +++ Py.nl +++
    "        class http:" +++ Py.nl +++
    "            port: float" +++ Py.nl +++
    "            " +++ dq +++ dq +++ dq +++ "Port to listen on."
                   +++ dq +++ dq +++ dq +++ Py.nl +++
    "            root: PosixPath" +++ Py.nl +++
    "            timeout: Optional[float]" +++ Py.nl.
Proof. reflexivity. Qed.

(* ================================================================== *)
(** * Further properties: type renderer, registry, discovery, loading *)
(* ================================================================== *)

Lemma in_concat_map {A : Type} (fn : A -> list string) (l : list A) (x : string) :
  In x (List.concat (map fn l)) <-> exists a, In a l /\ In x (fn a).
Proof.
  rewrite <- flat_map_concat_map. apply in_flat_map.
Qed.

(** X1: for a descriptor whose parameterised types all have their origin in
    [builtins], the only names [get_typing_imports] ever collects are
    [Optional], [Union], [Dict] and [Any]: bare classes, [None] and built-in
    containers ask for no import. *)
Theorem typing_imports_names (t : ann) :
  builtin_origins t = true ->
  forall x, In x (get_typing_imports t) ->
            In x ["Optional"; "Union"; "Dict"; "Any"].
Proof.
  induction t as [args IH | k v IHk IHv | o args IH | | | n | n]
    using ann_nested_ind; cbn [builtin_origins get_typing_imports];
    intros Hb x Hx.
  - apply in_app_or in Hx. destruct Hx as [Hx | Hx].
    + destruct (is_optional args); destruct Hx as [<- | []]; simpl; tauto.
    + apply in_concat_map in Hx. destruct Hx as (a & Ha & Hx).
      rewrite Forall_forall in IH. apply (IH a Ha); [|exact Hx].
      rewrite forallb_forall in Hb. now apply Hb.
  - apply andb_prop in Hb. destruct Hb as [Hk Hv].
    rewrite !in_app_iff in Hx. destruct Hx as [[<- | []] | [Hx | Hx]].
    + simpl. tauto.
    + exact (IHk Hk x Hx).
    + exact (IHv Hv x Hx).
  - apply andb_prop in Hb. destruct Hb as [Ho Hargs]. rewrite Ho in Hx.
    cbn [app] in Hx. apply in_concat_map in Hx. destruct Hx as (a & Ha & Hx).
    rewrite Forall_forall in IH. apply (IH a Ha); [|exact Hx].
    rewrite forallb_forall in Hargs. now apply Hargs.
  - contradiction.
  - destruct Hx as [<- | []]. simpl. tauto.
  - contradiction.
  - contradiction.
Qed.

Lemma typing_imports_names_witness :
  In "Dict" ["Optional"; "Union"; "Dict"; "Any"].
Proof.
  apply (typing_imports_names
           (Generic (OClass "builtins" "list")
              [Union [NoneType; Dict (Class "str") (Class "PosixPath")]])).
  - reflexivity.
  - simpl. tauto.
Defined.

(** X2: a call of [config_class] never rebinds or drops a name: whatever it
    answers, every binding of the registry is still there with the same
    class, the keys stay pairwise distinct if they were, and [_Config_cls]
    is untouched. *)
Theorem config_class_keeps (name : string) (c : pyclass) (g : globals) :
  let g' := fst (config_class name c g) in
  (forall n c0, Py.get (_name_to_config g) n = Some c0 ->
                Py.get (_name_to_config g') n = Some c0)
  /\ (NoDup (Py.keys (_name_to_config g)) -> NoDup (Py.keys (_name_to_config g')))
  /\ _Config_cls g' = _Config_cls g.
Proof.
  unfold config_class.
  destruct (Py.get (_name_to_config g) name) as [prior|] eqn:E; cbn [fst].
  - auto.
  - cbn [_name_to_config _Config_cls]. split; [|split; [|reflexivity]].
    + intros n c0 H. rewrite get_set_other; [exact H|]. congruence.
    + apply set_keys_nodup.
Qed.

Lemma config_class_keeps_witness :
  Py.get (_name_to_config (fst (config_class "db" Http globals_net))) "net"
  = Some Net
  /\ NoDup (Py.keys (_name_to_config (fst (config_class "db" Http globals_net)))).
Proof.
  destruct (config_class_keeps "db" Http globals_net) as (Hkeep & Hnd & _).
  split.
  - apply Hkeep. reflexivity.
  - apply Hnd. repeat constructor; simpl; intuition discriminate.
Defined.

(* ---------------------------------------------------------------- *)
(** ** Module names and loading *)

Lemma substring_prefix (s t : string) :
  String.substring 0 (String.length s) (s +++ t) = s.
Proof. induction s as [|c s IH]; cbn; [now destruct t|now rewrite IH]. Qed.

Lemma length_append (s t : string) :
  String.length (s +++ t) = String.length s + String.length t.
Proof. induction s as [|c s IH]; cbn; [reflexivity|now rewrite IH]. Qed.

Lemma drop_last_py (stem : string) : drop_last 3 (stem +++ ".py") = stem.
Proof.
  unfold drop_last. rewrite length_append. cbn [String.length].
  replace (String.length stem + 3 - 3) with (String.length stem) by lia.
  apply substring_prefix.
Qed.

Lemma last_snoc {A : Type} (l : list A) (x d : A) : last (l ++ [x]) d = x.
Proof.
  induction l as [|a l IH]; [reflexivity|].
  cbn [app]. destruct (l ++ [x]) eqn:E; [now destruct l|exact IH].
Qed.

Section LoadingFacts.
Variable suffix : string -> string.

(** X3: for a file [src/d1/.../dn/stem.py] whose suffix is [.py] the module
    name is [d1. ... .dn.stem]; for a file directly under [src] it is
    [.stem], with a leading dot.  A module name is computed only when the
    first component is [src] and the suffix is [.py]; otherwise the
    assertion fails. *)
Theorem module_name_of_path (dirs : list string) (stem : string) :
  suffix (stem +++ ".py") = ".py" ->
  module_name suffix ("src" :: dirs ++ [stem +++ ".py"])
  = Some (Py.join "." dirs +++ "." +++ stem)
  /\ module_name suffix ["src"; stem +++ ".py"] = Some ("." +++ stem)
  /\ (forall parts name,
        module_name suffix parts = Some name ->
        hd_error parts = Some "src" /\ suffix (path_name parts) = ".py").
Proof.
  intros Hs.
  assert (H : forall ds, module_name suffix ("src" :: ds ++ [stem +++ ".py"])
                         = Some (Py.join "." ds +++ "." +++ stem)).
  { intros ds. unfold module_name, path_name, middle.
    change ("src" :: ds ++ [stem +++ ".py"])
      with (("src" :: ds) ++ [stem +++ ".py"]).
    rewrite last_snoc, Hs. cbn [app tl andb String.eqb Ascii.eqb Bool.eqb].
    rewrite removelast_last, drop_last_py. reflexivity. }
  split; [apply H|]. split; [apply (H [])|].
  intros parts name Hn. unfold module_name in Hn.
  destruct (String.eqb_spec (suffix (path_name parts)) ".py") as [E|];
    [|discriminate].
  destruct parts as [|first rest]; [discriminate|].
  cbn [andb] in Hn. destruct (String.eqb_spec first "src"); [|discriminate].
  subst. auto.
Qed.

(** X4: loading is done at most once per module name: [finalize_module]
    does nothing when the file was not marked, and nothing when the module
    name is already in [sys.modules]; otherwise it binds the name and
    executes the file once.  A second call for the same file changes
    nothing, and no name ever leaves [sys.modules]. *)
Theorem finalize_module_once (self : StubMaker) (m : module_ctx) (st st1 : interp) :
  finalize_module suffix self m st = Some st1 ->
  (_should_import self = false -> st1 = st)
  /\ (forall name, module_name suffix (_local_mod_path m) = Some name ->
        In name (sys_modules st) -> st1 = st)
  /\ (forall name, _should_import self = true ->
        module_name suffix (_local_mod_path m) = Some name ->
        ~ In name (sys_modules st) ->
        sys_modules st1 = sys_modules st ++ [name]
        /\ executed st1 = executed st ++ [(name, _mod_path m)])
  /\ finalize_module suffix self m st1 = Some st1
  /\ (forall name, In name (sys_modules st) -> In name (sys_modules st1)).
Proof.
  unfold finalize_module. intros Hrun.
  destruct (_should_import self) eqn:Hs.
  - destruct (module_name suffix (_local_mod_path m)) as [name|] eqn:Hn;
      [|discriminate].
    destruct (existsb (String.eqb name) (sys_modules st)) eqn:Hin.
    + injection Hrun as <-. rewrite Hin.
      apply existsb_eqb_in in Hin.
      split; [discriminate|]. split; [reflexivity|].
      split; [|split; [reflexivity|auto]].
      intros name' _ E Hnot. injection E as <-. contradiction.
    + injection Hrun as <-. cbn [sys_modules executed].
      assert (Hnow : existsb (String.eqb name) (sys_modules st ++ [name]) = true).
      { apply existsb_eqb_in, in_or_app. right. now left. }
      rewrite Hnow.
      split; [discriminate|]. split; [|split; [|split; [reflexivity|]]].
      * intros name' E Hin'. injection E as <-.
        apply existsb_eqb_in in Hin'. congruence.
      * intros name' _ E _. injection E as <-. split; reflexivity.
      * intros name' Hin'. apply in_or_app. now left.
  - injection Hrun as <-.
    split; [reflexivity|]. split; [reflexivity|].
    split; [discriminate|]. split; [reflexivity|auto].
Qed.

(** X5: a file is executed only if one of its class declarations carries
    the marker: for a file without one, [finalize_module] after
    [start_module] and the visit returns the interpreter unchanged, even
    when the file before it was marked and whatever its path is.  For a
    file with one, under [src] and with suffix [.py], whose module name is
    not yet in [sys.modules], the file is executed under that name. *)
Theorem scan_then_load (self : StubMaker) (path : string) (parts : list string)
    (body : list stmt) (st : interp) :
  let (self0, m) := start_module self path parts in
  (existsb (has_class_with is_config_class_call) body = false ->
   finalize_module suffix (visit_module self0 body) m st = Some st)
  /\ (forall name,
        existsb (has_class_with is_config_class_call) body = true ->
        module_name suffix parts = Some name ->
        ~ In name (sys_modules st) ->
        finalize_module suffix (visit_module self0 body) m st
        = Some {| sys_modules := sys_modules st ++ [name];
                  executed := executed st ++ [(name, path)] |}).
Proof.
  cbn [start_module].
  assert (Hm : forall s0,
             _should_import (visit_module s0 body)
             = existsb (has_class_with is_config_class_call) body).
  { intros s0. unfold visit_module. cbn [_should_import].
    rewrite fold_children; [reflexivity|].
    apply Forall_forall. intros c _. apply visit_marks. }
  split.
  - intros Hno. unfold finalize_module. now rewrite Hm, Hno.
  - intros name Hyes Hname Hnew. unfold finalize_module.
    rewrite Hm, Hyes. cbn [_local_mod_path _mod_path]. rewrite Hname.
    destruct (existsb (String.eqb name) (sys_modules st)) eqn:Hin;
      [|reflexivity].
    apply existsb_eqb_in in Hin. contradiction.
Qed.
End LoadingFacts.

Lemma module_name_of_path_witness :
  module_name pathlib_suffix ["src"; "app"; "net"; "http.py"]
  = Some "app.net.http"
  /\ module_name pathlib_suffix ["src"; "http.py"] = Some ".http".
Proof.
  destruct (module_name_of_path pathlib_suffix ["app"; "net"] "http") as (H1 & H2 & _).
  - reflexivity.
  - split; [exact H1 | exact H2].
Defined.

Lemma finalize_module_once_witness :
  finalize_module pathlib_suffix
    (visit_module (StubMaker_init "config.py" false) file_numeric_marker)
    {| _mod_path := "/repo/src/app/a.py"; _local_mod_path := ["src"; "app"; "a.py"] |}
    {| sys_modules := ["app.a"]; executed := [("app.a", "/repo/src/app/a.py")] |}
  = Some {| sys_modules := ["app.a"];
            executed := [("app.a", "/repo/src/app/a.py")] |}.
Proof.
  apply (finalize_module_once pathlib_suffix
           (visit_module (StubMaker_init "config.py" false) file_numeric_marker)
           {| _mod_path := "/repo/src/app/a.py";
              _local_mod_path := ["src"; "app"; "a.py"] |}
           {| sys_modules := []; executed := [] |}).
  reflexivity.
Defined.

Lemma scan_then_load_witness :
  finalize_module pathlib_suffix
    (visit_module (StubMaker_init "config.py" false) file_numeric_marker)
    {| _mod_path := "/repo/src/app/a.py"; _local_mod_path := ["src"; "app"; "a.py"] |}
    {| sys_modules := []; executed := [] |}
  = Some {| sys_modules := ["app.a"];
            executed := [("app.a", "/repo/src/app/a.py")] |}.
Proof.
  apply (proj2 (scan_then_load pathlib_suffix (StubMaker_init "config.py" false)
                  "/repo/src/app/a.py" ["src"; "app"; "a.py"]
                  file_numeric_marker {| sys_modules := []; executed := [] |})
           "app.a").
  - reflexivity.
  - reflexivity.
  - simpl. tauto.
Defined.

(* ================================================================== *)
(** * Further properties: the schema tree and the stub *)
(* ================================================================== *)

Lemma for_each_app {A S : Type} (l1 l2 : list A) (body : A -> S -> result S) (s : S) :
  for_each (l1 ++ l2) body s = (s1 <- for_each l1 body s ;; for_each l2 body s1).
Proof.
  revert s. induction l1 as [|x l1 IH]; intros s; [reflexivity|].
  cbn [app for_each]. destruct (body x s) as [s'|e]; [|reflexivity].
  cbn [bind]. apply IH.
Qed.

(** A leaf met before the end of the path stops the descent. *)
Lemma dd_get_through_leaf {B : Type} (body : node -> result (node * B))
    (q : list string) (k : string) (rest : list string) :
  forall T t d,
    tree_get T q = Some (ConfigAttr t d) ->
    _recursive_dd_get T (q ++ k :: rest) body = Raise TypeError.
Proof.
  induction q as [|k0 q IH]; intros T t d Hleaf.
  - cbn in Hleaf. injection Hleaf as ->. reflexivity.
  - cbn [tree_get] in Hleaf. destruct T as [|items]; [discriminate|].
    destruct (Py.get items k0) as [c|] eqn:E; [|discriminate].
    cbn [app _recursive_dd_get]. rewrite E.
    now rewrite (IH c t d Hleaf).
Qed.

Lemma found_below (T : node) (keys rest : list string) :
  rest <> [] -> tree_get (found T keys) rest = tree_get T (keys ++ rest).
Proof.
  intros Hr. unfold found. rewrite tree_get_app.
  destruct (tree_get T keys); [reflexivity|]. now apply tree_get_empty.
Qed.

Lemma found_cons (items : list (string * node)) (k : string) (ks : list string) :
  found (Namespace items) (k :: ks)
  = found (match Py.get items k with Some c => c | None => Namespace [] end) ks.
Proof.
  unfold found. cbn [tree_get]. destruct (Py.get items k); [reflexivity|].
  destruct ks as [|k' ks]; [reflexivity|]. now rewrite tree_get_empty.
Qed.

(** A successful descent: the statements ran on the node found at the
    path, their outcome sits at the path, every node above it is a dict,
    and nothing off the path has changed. *)
Lemma dd_get_frame {B : Type} (body : node -> result (node * B))
    (keys : list string) :
  forall T T' b,
    _recursive_dd_get T keys body = Ok (T', b) ->
    exists a',
      body (found T keys) = Ok (a', b)
      /\ tree_get T' keys = Some a'
      /\ (forall path, unrelated keys path -> tree_get T' path = tree_get T path)
      /\ (forall path k rest, keys = path ++ k :: rest ->
            exists l, tree_get T' path = Some (Namespace l)).
Proof.
  induction keys as [|k ks IH]; intros T T' b Hrun.
  - cbn in Hrun. exists T'. split; [exact Hrun|]. split; [reflexivity|]. split.
    + intros path [H _]. exfalso. apply H, is_prefix_nil.
    + intros path k rest E. destruct path; discriminate.
  - cbn [_recursive_dd_get] in Hrun. destruct T as [|items]; [discriminate|].
    rewrite found_cons.
    set (child := match Py.get items k with Some c => c | None => Namespace [] end) in *.
    destruct (_recursive_dd_get child ks body) as [[child' b']|e] eqn:Hc;
      [|discriminate].
    cbn [bind] in Hrun. injection Hrun as <- <-.
    destruct (IH child child' b' Hc) as (a' & Hbody & Hat & Hframe & Hup).
    exists a'. split; [exact Hbody|]. split; [|split].
    + cbn [tree_get]. now rewrite get_set_same.
    + intros [|k' path'] [H1 H2]; [exfalso; apply H2, is_prefix_nil|].
      cbn [tree_get]. destruct (String.eqb_spec k' k) as [-> | Hne].
      * rewrite get_set_same. rewrite is_prefix_cons in H1, H2.
        rewrite (Hframe path' (conj H1 H2)). unfold child.
        destruct (Py.get items k); [reflexivity|].
        apply tree_get_empty. intros ->. apply H2, is_prefix_nil.
      * now rewrite get_set_other.
    + intros [|k' path'] k0 rest E.
      * now exists (Py.set items k child').
      * cbn [app] in E. injection E as <- E.
        cbn [tree_get]. rewrite get_set_same. now apply (Hup path' k0 rest).
Qed.

(** The imports the first loop appends, whatever it runs on. *)
Lemma infer_loop_imports (cobj : pyclass) (ds : Py.dict string) (names : list string) :
  forall a a',
    for_each names (infer_attr cobj ds) a = Ok a' ->
    imports a' = imports a ++ flat_map (inferred_import cobj) names
    /\ typing_imports a' = typing_imports a.
Proof.
  induction names as [|n names IH]; intros a a' Hrun.
  - cbn in Hrun. injection Hrun as <-. cbn. now rewrite app_nil_r.
  - cbn [for_each] in Hrun. unfold infer_attr at 1 in Hrun.
    cbn [flat_map]. unfold inferred_import at 1.
    destruct (Py.startswith "__" n).
    + cbn [bind] in Hrun. now apply IH.
    + destruct (Py.get (cls_attrs cobj) n) as [v|]; [|discriminate].
      destruct (setitem (attr_dict a) n
                  (ConfigAttr (ty_name (type_of v)) (docstring ds n)))
        as [d|e]; [|discriminate].
      cbn [bind] in Hrun. apply IH in Hrun. cbn [imports typing_imports] in Hrun.
      destruct Hrun as [Hi Ht]. split; [|exact Ht]. rewrite Hi.
      destruct (String.eqb (ty_module (type_of v)) "builtins");
        [reflexivity|now rewrite <- app_assoc].
Qed.

(** The imports the second loop appends, whatever it runs on. *)
Lemma declare_loop_imports (ds : Py.dict string) (l : list (string * annotation)) :
  forall a a',
    for_each l (declare_attr ds) a = Ok a' ->
    imports a' = imports a ++ flat_map declared_import l
    /\ typing_imports a'
       = typing_imports a ++ flat_map (fun e => snd (annotation_names (snd e))) l.
Proof.
  induction l as [|[n t] l IH]; intros a a' Hrun.
  - cbn in Hrun. injection Hrun as <-. cbn. now rewrite !app_nil_r.
  - cbn [for_each] in Hrun. unfold declare_attr at 1 in Hrun.
    cbn [flat_map]. unfold declared_import at 1. cbn [snd].
    destruct (annotation_names t) as [[tname iname] timports] eqn:En.
    destruct (setitem (attr_dict a) n (ConfigAttr tname (docstring ds n)))
      as [d|e]; [|discriminate].
    cbn [bind] in Hrun.
    destruct (annotation_module t) as [m|e]; [|discriminate].
    cbn [bind] in Hrun. apply IH in Hrun. cbn [imports typing_imports] in Hrun.
    destruct Hrun as [Hi Ht]. cbn [fst snd]. split.
    + rewrite Hi. destruct iname as [i|]; [|reflexivity].
      destruct (String.eqb m "builtins"); [reflexivity|now rewrite <- app_assoc].
    + rewrite Ht. now rewrite <- app_assoc.
Qed.

Lemma section_fields_imports (cobj : pyclass) (a a' : acc) :
  section_fields cobj a = Ok a' ->
  imports a' = imports a ++ section_imports cobj
  /\ typing_imports a' = typing_imports a ++ section_typing_imports cobj.
Proof.
  unfold section_fields. intros Hrun.
  destruct (for_each (dir (cls_attrs cobj)) (infer_attr cobj (docstrings_of cobj)) a)
    as [a1|e] eqn:H1; [|discriminate].
  cbn [bind] in Hrun.
  apply infer_loop_imports in H1. apply declare_loop_imports in Hrun.
  destruct H1 as [Hi1 Ht1], Hrun as [Hi2 Ht2].
  unfold section_imports, section_typing_imports, inferred_imports.
  rewrite Hi2, Ht2, Hi1, Ht1. now rewrite app_assoc.
Qed.

(** The two loops of a section that end well on a dict put the fields of
    the section over it. *)
Lemma section_fields_patched (cobj : pyclass) (a a' : acc)
    (items : list (string * node)) :
  NoDup (Py.keys (annotations_items cobj)) ->
  attr_dict a = Namespace items ->
  section_fields cobj a = Ok a' ->
  exists items', attr_dict a' = Namespace items'
                 /\ patched (field_of cobj) items items'.
Proof.
  intros Hnd Ha Hrun. destruct a as [ad imps timps]. cbn [attr_dict] in Ha. subst ad.
  destruct (infer_loop_dir cobj items imps timps) as (items1 & H1 & Hget1).
  unfold section_fields in Hrun. rewrite H1 in Hrun. cbn [bind] in Hrun.
  destruct (declare_loop _ _ Hnd
              {| attr_dict := Namespace items1;
                 imports := imps ++ inferred_imports cobj;
                 typing_imports := timps |} a' items1 eq_refl Hrun)
    as (items' & Ha' & Hget2).
  exists items'. split; [exact Ha'|].
  intros x. rewrite Hget2. unfold field_of.
  destruct (Py.get (annotations_items cobj) x); [reflexivity|].
  rewrite Hget1. unfold inferred_field.
  destruct (Py.get (cls_attrs cobj) x); [|reflexivity].
  now destruct (Py.startswith "__" x).
Qed.

(** The two loops end well on a [ConfigAttr] only for a section that has no
    field at all, and then leave it as it is. *)
Lemma section_fields_on_leaf (cobj : pyclass) (a a' : acc) (t d : string) :
  attr_dict a = ConfigAttr t d ->
  section_fields cobj a = Ok a' ->
  attr_dict a' = ConfigAttr t d /\ forall x, field_of cobj x = None.
Proof.
  intros Ha Hrun. unfold section_fields in Hrun.
  destruct (for_each (dir (cls_attrs cobj)) (infer_attr cobj (docstrings_of cobj)) a)
    as [a1|e] eqn:H1; [|discriminate].
  cbn [bind] in Hrun.
  pose proof (infer_loop_shape _ _ _ _ _ H1) as Hshape. rewrite Ha in Hshape.
  destruct (annotations_items cobj) as [|e l] eqn:El.
  - cbn in Hrun. injection Hrun as <-. split; [exact Hshape|].
    intros x. unfold field_of. rewrite El. cbn [Py.get]. unfold inferred_field.
    destruct (Py.get (cls_attrs cobj) x) as [v|] eqn:Ex; [|reflexivity].
    destruct (Py.startswith "__" x) eqn:Edunder; [reflexivity|]. exfalso.
    assert (Hin : In x (dir (cls_attrs cobj))) by (apply in_dir; congruence).
    clear Hshape. revert a Ha H1.
    induction (dir (cls_attrs cobj)) as [|n names IH]; [contradiction|].
    intros a Ha H1. cbn [for_each] in H1. unfold infer_attr at 1 in H1.
    destruct Hin as [-> | Hin].
    + rewrite Edunder, Ex, Ha in H1. discriminate.
    + destruct (Py.startswith "__" n).
      * cbn [bind] in H1. now apply (IH Hin a).
      * destruct (Py.get (cls_attrs cobj) n); [|discriminate].
        rewrite Ha in H1. discriminate.
  - rewrite (declare_loop_tuple _ _ _ t d Hshape) in Hrun; discriminate.
Qed.

(** X6: a section whose path runs through a field of the tree cannot be
    added: when a proper initial part of its path is a [ConfigAttr], its
    turn raises [TypeError], and so does [output_stub] for a registry that
    reaches such a section. *)
Theorem add_section_through_leaf (cname : string) (cobj : pyclass)
    (q : list string) (k : string) (rest : list string) (t d : string) :
  section_path cname = q ++ k :: rest ->
  (forall T imps timps,
      tree_get T q = Some (ConfigAttr t d) ->
      add_section (cname, cobj) (T, imps, timps) = Raise TypeError)
  /\ (forall self g done later T imps timps,
        _name_to_config g = done ++ (cname, cobj) :: later ->
        build_schema done (Namespace (config self)) = Ok (T, imps, timps) ->
        tree_get T q = Some (ConfigAttr t d) ->
        output_stub self g = Raise TypeError).
Proof.
  intros Hpath.
  assert (Hturn : forall T imps timps,
             tree_get T q = Some (ConfigAttr t d) ->
             add_section (cname, cobj) (T, imps, timps) = Raise TypeError).
  { intros T imps timps Hleaf. unfold add_section. rewrite Hpath.
    now rewrite (dd_get_through_leaf _ q k rest T t d Hleaf). }
  split; [exact Hturn|].
  intros self g done later T imps timps Hreg Hdone Hleaf.
  unfold output_stub, build_schema in *. rewrite Hreg.
  rewrite for_each_app, Hdone. cbn [bind for_each].
  now rewrite (Hturn T imps timps Hleaf).
Qed.

Lemma add_section_through_leaf_witness :
  output_stub (StubMaker_init "config.py" false)
    {| _name_to_config := [("net", Net); ("net.port.limits", Http)];
       _Config_cls := None |}
  = Raise TypeError.
Proof.
  apply (proj2 (add_section_through_leaf "net.port.limits" Http
                  ["net"; "port"] "limits" [] "int" EmptyString eq_refl)
           (StubMaker_init "config.py" false)
           {| _name_to_config := [("net", Net); ("net.port.limits", Http)];
              _Config_cls := None |}
           [("net", Net)] []
           (Namespace [("net", Namespace [("port", ConfigAttr "int" EmptyString)])])
           [] []).
  - reflexivity.
  - reflexivity.
  - reflexivity.
Defined.

(** X7: what one section's turn does to the tree, whatever the tree was:
    every field of the section is the leaf at its path, over whatever was
    there; the other names below the section's path, and every path that
    neither leads to the section nor lies below it, keep what they had;
    every proper initial part of the section's path is a dict; and the
    imports of the section are appended to the two lists. *)
Theorem add_section_turn (cname : string) (cobj : pyclass) (T : node)
    (imps timps : list string) (T' : node) (imps' timps' : list string) :
  NoDup (Py.keys (annotations_items cobj)) ->
  add_section (cname, cobj) (T, imps, timps) = Ok (T', imps', timps') ->
  (forall x n, field_of cobj x = Some n ->
               tree_get T' (section_path cname ++ [x]) = Some n)
  /\ (forall x rest, field_of cobj x = None ->
        tree_get T' (section_path cname ++ x :: rest)
        = tree_get T (section_path cname ++ x :: rest))
  /\ (forall path, unrelated (section_path cname) path ->
                   tree_get T' path = tree_get T path)
  /\ (forall path k rest, section_path cname = path ++ k :: rest ->
                          exists l, tree_get T' path = Some (Namespace l))
  /\ imps' = imps ++ section_imports cobj
  /\ timps' = timps ++ section_typing_imports cobj.
Proof.
  intros Hnd Hrun. unfold add_section in Hrun.
  match type of Hrun with
  | bind ?r _ = _ => destruct r as [[config' [i1 t1]]|e] eqn:Hget; [|discriminate]
  end.
  cbn [bind] in Hrun.
  assert (config' = T') by congruence. assert (i1 = imps') by congruence.
  assert (t1 = timps') by congruence. subst config' i1 t1. clear Hrun.
  apply dd_get_frame in Hget.
  destruct Hget as (a' & Hbody & Hat & Hframe & Hup).
  destruct (section_fields cobj
              {| attr_dict := found T (section_path cname); imports := imps;
                 typing_imports := timps |}) as [a|e] eqn:Hfields; [|discriminate].
  cbn [bind] in Hbody.
  assert (Ea : attr_dict a = a') by congruence.
  assert (Ei : imports a = imps') by congruence.
  assert (Et : typing_imports a = timps') by congruence. clear Hbody.
  destruct (section_fields_imports _ _ _ Hfields) as [Hi Ht].
  cbn [imports typing_imports] in Hi, Ht.
  assert (Hbelow : forall x rest,
             tree_get T (section_path cname ++ x :: rest)
             = tree_get (found T (section_path cname)) (x :: rest)).
  { intros x rest. symmetry. now apply found_below. }
  assert (Hfields' :
            (exists items items',
                found T (section_path cname) = Namespace items
                /\ a' = Namespace items'
                /\ patched (field_of cobj) items items')
            \/ (a' = found T (section_path cname)
                /\ (exists t d, a' = ConfigAttr t d)
                /\ forall x, field_of cobj x = None)).
  { destruct (found T (section_path cname)) as [t d|items] eqn:Ef.
    - right.
      destruct (section_fields_on_leaf cobj
                  {| attr_dict := ConfigAttr t d; imports := imps;
                     typing_imports := timps |} a t d eq_refl Hfields)
        as [Hsame Hnone].
      split; [congruence|]. split; [|exact Hnone]. exists t, d. congruence.
    - left.
      destruct (section_fields_patched cobj
                  {| attr_dict := Namespace items; imports := imps;
                     typing_imports := timps |} a items Hnd eq_refl Hfields)
        as (items' & Ha' & Hp).
      exists items, items'. split; [reflexivity|]. split; [congruence|exact Hp]. }
  split; [|split; [|split; [exact Hframe|split; [exact Hup|split; congruence]]]].
  - intros x n Hx. rewrite tree_get_app, Hat.
    destruct Hfields' as [(items & items' & _ & -> & Hp) | (_ & _ & Hnone)].
    + cbn [tree_get]. rewrite Hp, Hx. reflexivity.
    + rewrite Hnone in Hx. discriminate.
  - intros x rest Hx. rewrite Hbelow, tree_get_app, Hat.
    destruct Hfields' as [(items & items' & -> & -> & Hp) | (<- & _ & _)].
    + cbn [tree_get]. now rewrite Hp, Hx.
    + reflexivity.
Qed.

Lemma add_section_turn_witness :
  tree_get
    (Namespace [("net", Namespace [("port", ConfigAttr "int" EmptyString);
                                   ("debug", ConfigAttr "bool" EmptyString)]);
                ("db", ConfigAttr "str" EmptyString)])
    ["db"]
  = tree_get
      (Namespace [("net", Namespace [("port", Namespace []);
                                     ("debug", ConfigAttr "bool" EmptyString)]);
                  ("db", ConfigAttr "str" EmptyString)])
      ["db"].
Proof.
  refine (proj1 (proj2 (proj2
            (add_section_turn "net" Net
               (Namespace [("net", Namespace [("port", Namespace []);
                                              ("debug", ConfigAttr "bool" EmptyString)]);
                           ("db", ConfigAttr "str" EmptyString)])
               [] []
               (Namespace [("net", Namespace [("port", ConfigAttr "int" EmptyString);
                                              ("debug", ConfigAttr "bool" EmptyString)]);
                           ("db", ConfigAttr "str" EmptyString)])
               [] [] _ _))) ["db"] _).
  - constructor.
  - reflexivity.
  - split; intros [rest E]; discriminate.
Defined.

Lemma build_imports (r : Py.dict pyclass) :
  forall T0 i0 t0 T imps timps,
    for_each r add_section (T0, i0, t0) = Ok (T, imps, timps) ->
    imps = i0 ++ flat_map (fun e => section_imports (snd e)) r
    /\ timps = t0 ++ flat_map (fun e => section_typing_imports (snd e)) r.
Proof.
  induction r as [|[cname cobj] r IH]; intros T0 i0 t0 T imps timps Hrun.
  - cbn in Hrun. injection Hrun as _ <- <-. cbn. now rewrite !app_nil_r.
  - cbn [for_each] in Hrun.
    destruct (add_section (cname, cobj) (T0, i0, t0)) as [[[T1 i1] t1]|e] eqn:H1;
      [|discriminate].
    cbn [bind] in Hrun. apply IH in Hrun. destruct Hrun as [-> ->].
    unfold add_section in H1.
    match type of H1 with
    | bind ?r _ = _ => destruct r as [[config' [i2 t2]]|e] eqn:Hget; [|discriminate]
    end.
    cbn [bind] in H1.
    assert (i2 = i1) by congruence. assert (t2 = t1) by congruence. subst i2 t2.
    apply dd_get_frame in Hget. destruct Hget as (a' & Hbody & _).
    match type of Hbody with
    | bind ?r _ = _ => destruct r as [a|e] eqn:Hfields; [|discriminate]
    end.
    cbn [bind] in Hbody.
    assert (Ei : imports a = i1) by congruence.
    assert (Et : typing_imports a = t1) by congruence.
    destruct (section_fields_imports _ _ _ Hfields) as [Hi Ht].
    cbn [imports typing_imports] in Hi, Ht.
    cbn [flat_map snd]. rewrite <- Ei, <- Et, Hi, Ht. now rewrite !app_assoc.
Qed.

Lemma sorted_set_spec (l : list string) :
  NoDup (Py.sorted_set l)
  /\ StronglySorted (fun a b => Py.str_le a b = true) (Py.sorted_set l)
  /\ (forall x, In x (Py.sorted_set l) <-> In x l).
Proof.
  unfold Py.sorted_set.
  pose proof (sorted_perm string (fun s => s) (Py.dedup l)) as Hperm.
  split; [|split].
  - apply (Permutation_NoDup Hperm), dedup_nodup.
  - apply (sorted_sorted string (fun s => s)).
  - intros x. split; intros H.
    + apply dedup_in. apply Permutation_sym in Hperm.
      exact (Permutation_in _ Hperm H).
    + apply (Permutation_in _ Hperm). now apply dedup_in.
Qed.

(** X8: the text of the stub, for every run of [output_stub] that ends
    well: the disclaimer, one [from typing import] line, the import lines,
    an empty line, the [Config] class of the tree and the fixed signatures.
    The typing names and the import lines are those of all sections, each
    once and in ascending order; the module written beside the stub is the
    disclaimer and the fixed text, and the paths and the flag of the maker
    are kept. *)
Theorem output_stub_text (self : StubMaker) (g : globals) (self' : StubMaker)
    (stub module_text : string) :
  output_stub self g = Ok (self', stub, module_text) ->
  let typing_names :=
    Py.sorted_set
      (flat_map (fun e => section_typing_imports (snd e)) (_name_to_config g)) in
  let lines :=
    Py.sorted_set (flat_map (fun e => section_imports (snd e)) (_name_to_config g)) in
  stub = DISCLAIMER (_base_path self) +++
         "from typing import " +++ Py.join ", " typing_names +++ Py.nl +++
         Py.join Py.nl lines +++ Py.nl +++ Py.nl +++
         f "Config" (config self') 0 +++
         STUB_BASE
  /\ module_text = DISCLAIMER (_base_path self) +++ CONFIG_PY_BASE
  /\ NoDup typing_names /\ NoDup lines
  /\ StronglySorted (fun a b => Py.str_le a b = true) typing_names
  /\ StronglySorted (fun a b => Py.str_le a b = true) lines
  /\ (forall x, In x typing_names
                <-> exists cname cobj,
                      In (cname, cobj) (_name_to_config g)
                      /\ In x (section_typing_imports cobj))
  /\ (forall x, In x lines
                <-> exists cname cobj,
                      In (cname, cobj) (_name_to_config g)
                      /\ In x (section_imports cobj))
  /\ _base_path self' = _base_path self
  /\ _should_import self' = _should_import self.
Proof.
  intros Hrun typing_names lines. unfold output_stub in Hrun.
  destruct (build_schema (_name_to_config g) (Namespace (config self)))
    as [[[T imps] timps]|e] eqn:Hb; [|discriminate].
  cbn [bind] in Hrun.
  assert (E1 : self' = {| config := config_of T; _base_path := _base_path self;
                          _verbose := _verbose self;
                          _should_import := _should_import self |}) by congruence.
  assert (E2 : stub = stub_text (_base_path self) (T, imps, timps)) by congruence.
  assert (E3 : module_text = DISCLAIMER (_base_path self) +++ CONFIG_PY_BASE)
    by congruence.
  clear Hrun. unfold build_schema in Hb. apply build_imports in Hb.
  cbn [app] in Hb. destruct Hb as [-> ->].
  destruct (sorted_set_spec
              (flat_map (fun e => section_typing_imports (snd e)) (_name_to_config g)))
    as (Hn1 & Hs1 & Hm1).
  destruct (sorted_set_spec
              (flat_map (fun e => section_imports (snd e)) (_name_to_config g)))
    as (Hn2 & Hs2 & Hm2).
  split; [rewrite E2, E1; reflexivity|]. split; [exact E3|].
  split; [exact Hn1|]. split; [exact Hn2|]. split; [exact Hs1|].
  split; [exact Hs2|]. split; [|split; [|rewrite E1; split; reflexivity]].
  - intros x. unfold typing_names. rewrite Hm1, in_flat_map. split.
    + intros ([cname cobj] & Hin & Hx). now exists cname, cobj.
    + intros (cname & cobj & Hin & Hx). now exists (cname, cobj).
  - intros x. unfold lines. rewrite Hm2, in_flat_map. split.
    + intros ([cname cobj] & Hin & Hx). now exists cname, cobj.
    + intros (cname & cobj & Hin & Hx). now exists (cname, cobj).
Qed.

Lemma output_stub_text_witness :
  stub_app
  = DISCLAIMER "config.py" +++
    "from typing import " +++
    Py.join ", "
      (Py.sorted_set
         (flat_map (fun e => section_typing_imports (snd e))
            (_name_to_config globals_app))) +++ Py.nl +++
    Py.join Py.nl
      (Py.sorted_set
         (flat_map (fun e => section_imports (snd e))
            (_name_to_config globals_app))) +++ Py.nl +++ Py.nl +++
    f "Config" (config maker_app) 0 +++
    STUB_BASE.
Proof.
  refine (proj1 (output_stub_text (StubMaker_init "config.py" false) globals_app
                   maker_app stub_app
                   (DISCLAIMER "config.py" +++ CONFIG_PY_BASE) _)).
  reflexivity.
Defined.

(** X9: when [output_stub] on a fresh maker returns, every annotation of
    every section had a [__module__]; and for a registry with distinct
    names, annotations named once and no field in the way of a section,
    the tree it leaves holds a leaf exactly where a section has a field and
    a dict exactly at the initial parts of the paths of the sections. *)
Theorem output_stub_builds (self : StubMaker) (g : globals) (self' : StubMaker)
    (stub module_text : string) :
  config self = [] ->
  output_stub self g = Ok (self', stub, module_text) ->
  (forall p cp, In (p, cp) (_name_to_config g) -> annotations_ok cp)
  /\ (no_collision (_name_to_config g) ->
      NoDup (Py.keys (_name_to_config g)) ->
      (forall p cp, In (p, cp) (_name_to_config g) ->
         NoDup (Py.keys (annotations_items cp))) ->
      built (_name_to_config g) (Namespace (config self'))).
Proof.
  intros Hfresh Hrun. unfold output_stub in Hrun. rewrite Hfresh in Hrun.
  destruct (build_schema (_name_to_config g) (Namespace []))
    as [[[T imps] timps]|e] eqn:Hb; [|discriminate].
  cbn [bind] in Hrun.
  assert (E1 : self' = {| config := config_of T; _base_path := _base_path self;
                          _verbose := _verbose self;
                          _should_import := _should_import self |}) by congruence.
  clear Hrun.
  assert (Hok : forall p cp, In (p, cp) (_name_to_config g) -> annotations_ok cp).
  { intros p cp Hin. unfold build_schema in Hb.
    exact (build_schema_ok _ _ _ Hb p cp Hin). }
  split; [exact Hok|].
  intros Hnc Hnd Hann.
  destruct (build_spec (_name_to_config g) Hnc Hnd) as (T0 & Hb0 & Hbuilt).
  { intros p cp Hin. split; [now apply (Hann p cp)|now apply (Hok p cp)]. }
  rewrite Hb in Hb0. assert (T0 = T) by congruence. subst T0.
  destruct (built_root _ _ Hbuilt) as (l & ->).
  rewrite E1. exact Hbuilt.
Qed.

Lemma output_stub_builds_witness :
  built (_name_to_config globals_app) (Namespace (config maker_app)).
Proof.
  refine (proj2 (output_stub_builds (StubMaker_init "config.py" false)
                   globals_app maker_app stub_app
                   (DISCLAIMER "config.py" +++ CONFIG_PY_BASE) eq_refl _) _ _ _).
  - reflexivity.
  - intros p cp q cq x [[= <- <-] | [[= <- <-] | []]]
      [[= <- <-] | [[= <- <-] | []]] Hf [rest E]; cbv in E; try congruence.
    injection E as <- _. apply Hf. reflexivity.
  - repeat constructor; simpl; intuition discriminate.
  - intros p cp [[= <- <-] | [[= <- <-] | []]].
    + repeat constructor; simpl; intuition discriminate.
    + constructor.
Defined.

(* ================================================================== *)
(** * Further properties: building and updating a configuration *)
(* ================================================================== *)

Lemma get_perm {V : Type} (d1 d2 : Py.dict V) (k : string) :
  Permutation d1 d2 -> NoDup (Py.keys d1) -> Py.get d1 k = Py.get d2 k.
Proof.
  intros Hperm Hnd.
  assert (Hnd2 : NoDup (Py.keys d2)).
  { eapply Permutation_NoDup; [|exact Hnd]. now apply Permutation_map. }
  destruct (Py.get d1 k) as [v|] eqn:E1.
  - symmetry. apply get_nodup_in; [exact Hnd2|].
    apply (Permutation_in _ Hperm). now apply get_in.
  - destruct (Py.get d2 k) as [v|] eqn:E2; [|reflexivity].
    apply get_in in E2. apply Permutation_sym in Hperm.
    apply (Permutation_in _ Hperm) in E2.
    apply (get_nodup_in d1 k v Hnd) in E2. congruence.
Qed.

(** A walk leaves the value at every path unrelated to its own. *)
Lemma walk_frame_value (default : option pyclass) (v : value) (keys_q : list string) :
  forall o o' keys_p w,
    _recursive_creative_setattr o keys_q default v = Ok o' ->
    unrelated keys_q keys_p ->
    descend o keys_p = Ok w -> descend o' keys_p = Ok w.
Proof.
  induction keys_q as [|k ks IH]; intros o o' keys_p w Hrun [Hqp Hpq] Hw;
    [discriminate|].
  destruct keys_p as [|kp ps]; [exfalso; apply Hpq, is_prefix_nil|].
  destruct (String.eqb_spec kp k) as [-> | Hne].
  - cbn [descend] in Hw.
    destruct (getattr o k) as [old0|e] eqn:Hold; [|discriminate].
    cbn [bind] in Hw.
    pose proof (walk_shape _ _ _ _ _ _ Hrun) as (child & -> & Hchild).
    destruct ks as [|k2 ks].
    + exfalso. apply Hqp. exists ps. reflexivity.
    + destruct Hchild as (old & Hc & Hgetold).
      assert (Hhas : hasattr o k = true).
      { rewrite hasattr_get. unfold getattr in Hold.
        destruct (Py.get (attrs_of o) k); [reflexivity|discriminate]. }
      specialize (Hgetold Hhas). rewrite Hold in Hgetold.
      injection Hgetold as <-.
      cbn [descend]. rewrite getattr_with_attr_same. cbn [bind].
      apply (IH old0 child ps w Hc); [|exact Hw].
      split; intros Hp; [apply Hqp|apply Hpq]; now apply is_prefix_cons.
  - cbn [descend] in *.
    pose proof (walk_sets default v (k :: ks) o o' Hrun) as (_ & Hframe & _).
    unfold getattr in *. rewrite (Hframe kp); [exact Hw|].
    cbn. congruence.
Qed.

(** A walk keeps, at every path that does not start with its own, whatever
    holds of an object independently of its attributes. *)
Lemma walk_keeps (Q : value -> Prop) (default : option pyclass) (v : value)
    (keys_q : list string) :
  (forall o k c, Q o -> Q (with_attr o k c)) ->
  forall o o' keys_p sub,
    _recursive_creative_setattr o keys_q default v = Ok o' ->
    ~ is_prefix keys_q keys_p ->
    descend o keys_p = Ok sub -> Q sub ->
    exists sub', descend o' keys_p = Ok sub' /\ Q sub'.
Proof.
  intros HQ.
  induction keys_q as [|k ks IH]; intros o o' keys_p sub Hrun Hpre Hsub Hq;
    [discriminate|].
  destruct keys_p as [|kp ps].
  - cbn in Hsub. injection Hsub as <-.
    pose proof (walk_shape _ _ _ _ _ _ Hrun) as (child & -> & _).
    eexists. split; [reflexivity|]. now apply HQ.
  - destruct (String.eqb_spec kp k) as [-> | Hne].
    + cbn [descend] in Hsub.
      destruct (getattr o k) as [old0|e] eqn:Hold; [|discriminate].
      cbn [bind] in Hsub.
      pose proof (walk_shape _ _ _ _ _ _ Hrun) as (child & -> & Hchild).
      destruct ks as [|k2 ks].
      * exfalso. apply Hpre. exists ps. reflexivity.
      * destruct Hchild as (old & Hc & Hgetold).
        assert (Hhas : hasattr o k = true).
        { rewrite hasattr_get. unfold getattr in Hold.
          destruct (Py.get (attrs_of o) k); [reflexivity|discriminate]. }
        specialize (Hgetold Hhas). rewrite Hold in Hgetold.
        injection Hgetold as <-.
        destruct (IH old0 child ps sub Hc) as (sub' & Hsub' & Hq'); auto.
        { intros Hp. apply Hpre. now apply is_prefix_cons. }
        exists sub'. split; [|exact Hq']. cbn [descend].
        now rewrite getattr_with_attr_same.
    + exists sub. split; [|exact Hq]. cbn [descend] in *.
      pose proof (walk_sets default v (k :: ks) o o' Hrun) as (_ & Hframe & _).
      unfold getattr in *. rewrite (Hframe kp); [exact Hsub|].
      cbn. congruence.
Qed.

(** X10: [make_config] does not depend on the order in which the sections
    were registered: two registries with the same sections, each name once,
    give the same object, or the same exception. *)
Theorem make_config_order (g1 g2 : globals) :
  Permutation (_name_to_config g1) (_name_to_config g2) ->
  NoDup (Py.keys (_name_to_config g1)) ->
  _Config_cls g1 = _Config_cls g2 ->
  make_config g1 = make_config g2.
Proof.
  intros Hperm Hnd Hcls. unfold make_config, sorted_items.
  rewrite (get_perm _ _ "@base" Hperm Hnd), Hcls.
  now rewrite (sorted_perm_unique _ fst _ _ Hperm Hnd).
Qed.

Lemma make_config_order_witness :
  make_config globals_app = make_config globals_app_rev.
Proof.
  apply make_config_order.
  - apply perm_swap.
  - repeat constructor; simpl; intuition discriminate.
  - reflexivity.
Defined.

Lemma is_prefix_snoc (q p : list string) (i : string) :
  is_prefix q (p ++ [i]) -> is_prefix q p \/ q = p ++ [i].
Proof.
  intros [rest E]. induction rest as [|z r _] using rev_ind.
  - right. now rewrite app_nil_r in E.
  - left. rewrite app_assoc in E. apply app_inj_tail in E.
    destruct E as [E _]. now exists r.
Qed.

(** A section sorted before another one does not have a path that starts
    with the path of the later one. *)
Lemma earlier_not_below (reg : Py.dict pyclass) (l1 l2 : list (string * pyclass))
    (q cname : string) (cq cobj : pyclass) :
  NoDup (Py.keys reg) ->
  sorted_items reg = l1 ++ (q, cq) :: l2 -> In (cname, cobj) l1 ->
  ~ is_prefix (Py.split_dot q) (Py.split_dot cname).
Proof.
  intros Hnd El Hin Hpre. apply prefix_str_le in Hpre.
  destruct (sorted_items_before _ l1 l2 (q, cq) (cname, cobj) Hnd El Hin)
    as [Hle Hneq].
  cbn [fst] in *. apply Hneq. now apply str_le_antisym.
Qed.

(** What the loop of [make_config] has reached when it ends, started on
    an instance of [root]. *)
Lemma make_config_loop (g : globals) (root : pyclass) (c : value) :
  NoDup (Py.keys (_name_to_config g)) ->
  for_each (sorted_items (_name_to_config g))
    (fun entry config =>
       let (cname, cobj) := entry in
       if String.eqb cname "@base" then Ok config
       else _recursive_creative_setattr config (Py.split_dot cname)
              (_Config_cls g) (instantiate cobj))
    (instantiate root) = Ok c ->
  type_of c = cls_type root
  /\ (forall i v,
        Py.get (cls_attrs root) i = Some v ->
        (forall q cq, In (q, cq) (_name_to_config g) ->
                      ~ is_prefix [i] (section_path q)) ->
        descend c [i] = Ok v)
  /\ (forall cname cobj,
        In (cname, cobj) (_name_to_config g) -> cname <> "@base" ->
        (exists sub, descend c (Py.split_dot cname) = Ok sub
                     /\ type_of sub = cls_type cobj)
        /\ (forall i v,
              Py.get (cls_attrs cobj) i = Some v ->
              (forall q cq, In (q, cq) (_name_to_config g) ->
                 ~ is_prefix (Py.split_dot cname ++ [i]) (section_path q)) ->
              descend c (Py.split_dot cname ++ [i]) = Ok v)).
Proof.
  intros Hnd Hrun.
  set (P := fun (done : list (string * pyclass)) (c : value) =>
    type_of c = cls_type root
    /\ (forall i v,
          Py.get (cls_attrs root) i = Some v ->
          (forall q cq, In (q, cq) (_name_to_config g) ->
                        ~ is_prefix [i] (section_path q)) ->
          descend c [i] = Ok v)
    /\ (forall cname cobj,
          In (cname, cobj) done -> cname <> "@base" ->
          (exists sub, descend c (Py.split_dot cname) = Ok sub
                       /\ type_of sub = cls_type cobj)
          /\ (forall i v,
                Py.get (cls_attrs cobj) i = Some v ->
                (forall q cq, In (q, cq) (_name_to_config g) ->
                   ~ is_prefix (Py.split_dot cname ++ [i]) (section_path q)) ->
                descend c (Py.split_dot cname ++ [i]) = Ok v))).
  assert (Hinv : P (sorted_items (_name_to_config g)) c).
  { refine (for_each_prefix_inv P _ _ _ (instantiate root) c _ Hrun).
    - clear c Hrun. intros l1 [q cq] l2 c c' El (Hty & Hrootattrs & Hdone) Hbody.
      assert (Hq : In (q, cq) (_name_to_config g)).
      { eapply Permutation_in; [symmetry; apply sorted_perm|].
        unfold sorted_items in El. rewrite El. apply in_or_app. right. now left. }
      destruct (String.eqb_spec q "@base") as [-> | Hqb].
      + injection Hbody as <-. split; [exact Hty|]. split; [exact Hrootattrs|].
        intros cname cobj Hin Hne. apply in_app_or in Hin.
        destruct Hin as [Hin | [Hin | []]]; [now apply (Hdone cname cobj)|].
        injection Hin as <- _. contradiction.
      + assert (Hsp : section_path q = Py.split_dot q).
        { unfold section_path. now destruct (String.eqb_spec q "@base"). }
        split; [|split].
        * pose proof (walk_sets _ _ _ _ _ Hbody) as (_ & _ & Ht). congruence.
        * intros i v Hi Hfree.
          apply (walk_frame_value _ _ _ c c' [i] v Hbody); [|now apply Hrootattrs].
          split.
          -- intros Hp. apply (Hfree q cq Hq). rewrite Hsp.
             destruct (is_prefix_snoc _ [] i Hp) as [[rest E] | E].
             ++ symmetry in E. apply app_eq_nil in E. destruct E as [E _].
                now apply split_dot_nonempty in E.
             ++ cbn in E. rewrite E. apply is_prefix_refl.
          -- rewrite <- Hsp. now apply (Hfree q cq).
        * intros cname cobj Hin Hne. apply in_app_or in Hin.
          destruct Hin as [Hin | [Hin | []]].
          -- destruct (Hdone cname cobj Hin Hne) as [(sub & Hsub & Hsubty) Hattrs].
             pose proof (earlier_not_below _ l1 l2 q cname cq cobj Hnd El Hin)
               as Hnot.
             split.
             ++ apply (walk_keeps (fun s => type_of s = cls_type cobj) _ _ _
                         (fun o k c0 H => eq_trans (type_with_attr o k c0) H)
                         c c' _ sub Hbody Hnot Hsub Hsubty).
             ++ intros i v Hi Hfree.
                apply (walk_frame_value _ _ _ c c' _ v Hbody);
                  [|now apply Hattrs].
                split.
                ** intros Hp. destruct (is_prefix_snoc _ _ _ Hp) as [Hp' | E].
                   --- now apply Hnot.
                   --- apply (Hfree q cq Hq). rewrite Hsp, E. apply is_prefix_refl.
                ** rewrite <- Hsp. now apply (Hfree q cq).
          -- injection Hin as <- <-.
             pose proof (walk_descend _ _ _ _ _ Hbody) as Hnew. split.
             ++ exists (instantiate cq). split; [exact Hnew|reflexivity].
             ++ intros i v Hi _. rewrite descend_app, Hnew. cbn [bind descend].
                unfold getattr. cbn [instantiate attrs_of]. now rewrite Hi.
    - split; [reflexivity|]. split; [|intros ? ? []].
      intros i v Hi _. cbn [descend]. unfold getattr.
      cbn [instantiate attrs_of]. now rewrite Hi. }
  destruct Hinv as (Hty & Hrootattrs & Hdone).
  split; [exact Hty|]. split; [exact Hrootattrs|].
  intros cname cobj Hin Hne. apply (Hdone cname cobj); [|exact Hne].
  eapply Permutation_in; [apply sorted_perm|exact Hin].
Qed.

(** X11: what [make_config] returns.  The root is an instance of the
    ["@base"] section, or of the generic class when there is none, and
    shows the class attributes of that class; the object at the path of
    every other section is an instance of the class of the section and
    shows its class attributes.  A class attribute is hidden only where the
    path of a section starts with its place. *)
Theorem make_config_sections (g : globals) (c : value) :
  NoDup (Py.keys (_name_to_config g)) ->
  make_config g = Ok c ->
  (exists root,
      match Py.get (_name_to_config g) "@base" with
      | Some cb => Some cb
      | None => _Config_cls g
      end = Some root
      /\ type_of c = cls_type root
      /\ (forall i v,
            Py.get (cls_attrs root) i = Some v ->
            (forall q cq, In (q, cq) (_name_to_config g) ->
                          ~ is_prefix [i] (section_path q)) ->
            getattr c i = Ok v))
  /\ (forall cname cobj,
        In (cname, cobj) (_name_to_config g) -> cname <> "@base" ->
        exists sub,
          _recursive_getattr c (Py.split_dot cname) = Ok sub
          /\ type_of sub = cls_type cobj
          /\ (forall i v,
                Py.get (cls_attrs cobj) i = Some v ->
                (forall q cq, In (q, cq) (_name_to_config g) ->
                   ~ is_prefix (Py.split_dot cname ++ [i]) (section_path q)) ->
                getattr sub i = Ok v)).
Proof.
  intros Hnd Hrun. unfold make_config in Hrun.
  destruct (match Py.get (_name_to_config g) "@base" with
            | Some cb => Some cb
            | None => _Config_cls g
            end) as [root|] eqn:Hroot; [|discriminate].
  cbn [call bind] in Hrun.
  destruct (make_config_loop g root c Hnd Hrun) as (Hty & Hrootattrs & Hdone).
  split.
  - exists root. split; [reflexivity|]. split; [exact Hty|].
    intros i v Hi Hfree. specialize (Hrootattrs i v Hi Hfree).
    cbn [descend] in Hrootattrs.
    destruct (getattr c i); [exact Hrootattrs|discriminate].
  - intros cname cobj Hin Hne.
    destruct (Hdone cname cobj Hin Hne) as [(sub & Hsub & Hsubty) Hattrs].
    exists sub. split; [|split; [exact Hsubty|]].
    + rewrite descend_getattr; [exact Hsub|apply split_dot_nonempty].
    + intros i v Hi Hfree. specialize (Hattrs i v Hi Hfree).
      rewrite descend_app, Hsub in Hattrs. cbn [bind descend] in Hattrs.
      destruct (getattr sub i); [exact Hattrs|discriminate].
Qed.

Lemma make_config_sections_witness :
  exists sub,
    _recursive_getattr config_app (Py.split_dot "net.http") = Ok sub
    /\ type_of sub = cls_type Http
    /\ (forall i v,
          Py.get (cls_attrs Http) i = Some v ->
          (forall q cq, In (q, cq) (_name_to_config globals_app) ->
             ~ is_prefix (Py.split_dot "net.http" ++ [i]) (section_path q)) ->
          getattr sub i = Ok v).
Proof.
  refine (proj2 (make_config_sections globals_app config_app _ _)
            "net.http" Http _ _).
  - repeat constructor; simpl; intuition discriminate.
  - reflexivity.
  - simpl. tauto.
  - discriminate.
Defined.

Lemma update_frame (g : globals) (d : Py.dict value) :
  forall c c' p w,
    update_config g c d = Ok c' ->
    (forall k v, In (k, v) d -> unrelated (Py.split_dot k) p) ->
    descend c p = Ok w -> descend c' p = Ok w.
Proof.
  induction d as [|[k v] d IH]; intros c c' p w Hrun Hun Hw.
  - cbn in Hrun. now injection Hrun as <-.
  - unfold update_config in Hrun. cbn [for_each] in Hrun.
    destruct (_recursive_creative_setattr c (Py.split_dot k) (_Config_cls g) v)
      as [c1|e] eqn:H1; [|discriminate].
    cbn [bind] in Hrun. apply (IH c1 c' p w Hrun).
    + intros k2 v2 Hin. apply (Hun k2 v2). now right.
    + apply (walk_frame_value _ _ _ c c1 p w H1); [|exact Hw].
      apply (Hun k v). now left.
Qed.

(** X12: what [update_config] leaves.  An entry whose path is unrelated to
    the paths of the entries after it is read back with its value; the
    last entry always is.  A path unrelated to the paths of all entries
    keeps its value, and the root keeps its type. *)
Theorem update_config_sets (g : globals) (c c' : value) (d : Py.dict value) :
  update_config g c d = Ok c' ->
  (forall l1 k v l2,
      d = l1 ++ (k, v) :: l2 ->
      (forall k2 v2, In (k2, v2) l2 ->
                     unrelated (Py.split_dot k2) (Py.split_dot k)) ->
      _recursive_getattr c' (Py.split_dot k) = Ok v)
  /\ (forall p w,
        (forall k v, In (k, v) d -> unrelated (Py.split_dot k) p) ->
        descend c p = Ok w -> descend c' p = Ok w)
  /\ type_of c' = type_of c.
Proof.
  intros Hrun. split; [|split].
  - intros l1 k v l2 -> Hun. unfold update_config in Hrun.
    rewrite for_each_app in Hrun.
    match type of Hrun with
    | bind ?r _ = _ => destruct r as [c1|e] eqn:H1; [|discriminate]
    end.
    cbn [bind for_each] in Hrun.
    destruct (_recursive_creative_setattr c1 (Py.split_dot k) (_Config_cls g) v)
      as [c2|e] eqn:H2; [|discriminate].
    cbn [bind] in Hrun.
    rewrite descend_getattr by apply split_dot_nonempty.
    apply (update_frame g l2 c2 c' _ v Hrun Hun).
    exact (walk_descend _ _ _ _ _ H2).
  - intros p w Hun Hw. exact (update_frame g d c c' p w Hrun Hun Hw).
  - revert c Hrun. induction d as [|[k v] d IH]; intros c Hrun.
    + cbn in Hrun. now injection Hrun as <-.
    + unfold update_config in Hrun. cbn [for_each] in Hrun.
      destruct (_recursive_creative_setattr c (Py.split_dot k) (_Config_cls g) v)
        as [c1|e] eqn:H1; [|discriminate].
      cbn [bind] in Hrun. rewrite (IH c1 Hrun).
      now pose proof (walk_sets _ _ _ _ _ H1) as (_ & _ & Ht).
Qed.

Lemma update_config_sets_witness :
  exists c',
    update_config globals_net config_net
      [("x.y.z", data int_t "5"); ("net.port", data int_t "9090")] = Ok c'
    /\ _recursive_getattr c' (Py.split_dot "x.y.z") = Ok (data int_t "5")
    /\ _recursive_getattr c' (Py.split_dot "net.port") = Ok (data int_t "9090").
Proof.
  eexists. split; [reflexivity|].
  match goal with
  | |- _recursive_getattr ?c _ = _ /\ _ =>
      pose proof (proj1 (update_config_sets globals_net config_net c
                           [("x.y.z", data int_t "5");
                            ("net.port", data int_t "9090")] eq_refl)) as Hread
  end.
  split.
  - apply (Hread [] "x.y.z" (data int_t "5") [("net.port", data int_t "9090")]).
    + reflexivity.
    + intros k2 v2 [[= <- <-] | []].
      split; intros [rest E]; cbv in E; discriminate.
  - apply (Hread [("x.y.z", data int_t "5")] "net.port" (data int_t "9090") []).
    + reflexivity.
    + intros k2 v2 [].
Defined.

(* ================================================================== *)
(** * Further properties: flattening and checking a configuration *)
(* ================================================================== *)

Lemma in_keys_set {V : Type} (d : Py.dict V) (k : string) (v : V) (i : string) :
  In i (Py.keys d) \/ i = k -> In i (Py.keys (Py.set d k v)).
Proof.
  intros H. apply get_some_in_keys. destruct (String.eqb_spec i k) as [-> | Hne].
  - rewrite get_set_same. discriminate.
  - rewrite get_set_other by exact Hne. apply get_some_in_keys.
    destruct H; [assumption|contradiction].
Qed.

Lemma for_each_ok_in {A S : Type} (l : list A) (body : A -> S -> result S) :
  forall s s',
    for_each l body s = Ok s' ->
    forall x, In x l -> exists s1 s2, body x s1 = Ok s2.
Proof.
  induction l as [|y l IH]; intros s s' Hrun x Hin; [contradiction|].
  cbn [for_each] in Hrun. destruct (body y s) as [s1|e] eqn:Hy; [|discriminate].
  cbn [bind] in Hrun. destruct Hin as [<- | Hin]; [eauto|].
  now apply (IH s1 s' Hrun).
Qed.

(** The inner loop of [config_to_dict] drops no key and writes one for
    every attribute it keeps. *)
Lemma config_to_dict_inner_keys (g : globals) (sub : value) (csplit : list string)
    (names : list string) :
  forall d d',
    for_each names
      (fun i d =>
         if Py.startswith "__" i then Ok d
         else
           o <- getattr sub i ;;
           skip <- isinstance o (config_classes g) ;;
           if skip then Ok d
           else Ok (Py.set d (Py.join "." (csplit ++ [i])) o))
      d = Ok d' ->
    (forall key, In key (Py.keys d) -> In key (Py.keys d'))
    /\ (forall i val,
          In i names -> Py.startswith "__" i = false ->
          getattr sub i = Ok val ->
          isinstance val (config_classes g) = Ok false ->
          In (Py.join "." (csplit ++ [i])) (Py.keys d')).
Proof.
  induction names as [|n names IH]; intros d d' Hrun.
  - cbn in Hrun. injection Hrun as <-. split; [auto|intros ? ? []].
  - cbn [for_each] in Hrun.
    match type of Hrun with
    | bind ?r _ = _ => destruct r as [d1|e] eqn:Hn; [|discriminate]
    end.
    cbn [bind] in Hrun. destruct (IH d1 d' Hrun) as [Hmono Hcover].
    assert (Hstep : forall key, In key (Py.keys d) -> In key (Py.keys d1)).
    { intros key Hkey. destruct (Py.startswith "__" n); [congruence|].
      destruct (getattr sub n) as [o|e]; [|discriminate]. cbn [bind] in Hn.
      destruct (isinstance o (config_classes g)) as [[|]|e]; try discriminate;
        cbn [bind] in Hn; injection Hn as <-; [exact Hkey|].
      apply in_keys_set. now left. }
    split; [auto|].
    intros i val [<- | Hin] Hdunder Hval Hskip; [|now apply (Hcover i val)].
    apply Hmono. rewrite Hdunder, Hval in Hn. cbn [bind] in Hn.
    rewrite Hskip in Hn. cbn [bind] in Hn. injection Hn as <-.
    apply in_keys_set. now right.
Qed.

Lemma config_to_dict_keys (g : globals) (config : value)
    (reg : Py.dict pyclass) :
  forall d0 d,
    for_each reg
      (fun entry d =>
         let cname := fst entry in
         '(csplit, subcfg) <-
           (if String.eqb cname "@base" then Ok ([], config)
            else (sub <- _recursive_getattr config (Py.split_dot cname) ;;
                  Ok (Py.split_dot cname, sub))) ;;
         for_each (dir (attrs_of subcfg))
           (fun i d =>
              if Py.startswith "__" i then Ok d
              else
                o <- getattr subcfg i ;;
                skip <- isinstance o (config_classes g) ;;
                if skip then Ok d
                else Ok (Py.set d (Py.join "." (csplit ++ [i])) o))
           d)
      d0 = Ok d ->
    (forall key, In key (Py.keys d0) -> In key (Py.keys d))
    /\ (forall cname sub i val,
          In cname (Py.keys reg) ->
          section_object config cname = Ok sub ->
          getattr sub i = Ok val ->
          Py.startswith "__" i = false ->
          isinstance val (config_classes g) = Ok false ->
          In (Py.join "." (section_path cname ++ [i])) (Py.keys d)).
Proof.
  induction reg as [|[q cq] reg IH]; intros d0 d Hrun.
  - cbn in Hrun. injection Hrun as <-. split; [auto|intros ? ? ? ? []].
  - cbn [for_each] in Hrun.
    match type of Hrun with
    | bind ?r _ = _ => destruct r as [d1|e] eqn:Hq; [|discriminate]
    end.
    cbn [bind] in Hrun. destruct (IH d1 d Hrun) as [Hmono Hcover].
    cbn [fst] in Hq.
    assert (Hturn : exists sub,
               section_object config q = Ok sub
               /\ (forall key, In key (Py.keys d0) -> In key (Py.keys d1))
               /\ (forall i val,
                     getattr sub i = Ok val -> Py.startswith "__" i = false ->
                     isinstance val (config_classes g) = Ok false ->
                     In (Py.join "." (section_path q ++ [i])) (Py.keys d1))).
    { unfold section_object, section_path.
      destruct (String.eqb q "@base").
      - cbn [bind] in Hq. exists config. split; [reflexivity|].
        destruct (config_to_dict_inner_keys g config [] _ _ _ Hq) as [H1 H2].
        split; [exact H1|]. intros i val Hval Hd Hs.
        apply (H2 i val); auto. apply in_dir. unfold getattr in Hval.
        destruct (Py.get (attrs_of config) i); [discriminate|discriminate].
      - destruct (_recursive_getattr config (Py.split_dot q)) as [sub|e];
          [|discriminate].
        cbn [bind] in Hq. exists sub. split; [reflexivity|].
        destruct (config_to_dict_inner_keys g sub (Py.split_dot q) _ _ _ Hq)
          as [H1 H2].
        split; [exact H1|]. intros i val Hval Hd Hs.
        apply (H2 i val); auto. apply in_dir. unfold getattr in Hval.
        destruct (Py.get (attrs_of sub) i); [discriminate|discriminate]. }
    destruct Hturn as (subq & Hsubq & Hstep & Hnew).
    split; [auto|].
    intros cname sub i val [<- | Hin] Hsub Hval Hd Hs.
    + cbn [fst] in Hsub. rewrite Hsubq in Hsub. injection Hsub as <-.
      apply Hmono. now apply (Hnew i val).
    + now apply (Hcover cname sub i val).
Qed.

(** X13: the mapping [config_to_dict] returns holds exactly the settings of
    the registered sections.  With attribute names free of dots, a dotted
    name is bound to a value if and only if it names an attribute of the
    object of a registered section whose name does not start with two
    underscores and whose value is not an instance of a registered class or
    of the generic class, and the value is that of the attribute. *)
Theorem config_to_dict_exact (g : globals) (config : value) (d : Py.dict value) :
  config_to_dict g config = Ok d ->
  (forall cname sub i,
      In cname (Py.keys (_name_to_config g)) ->
      section_object config cname = Ok sub ->
      In i (Py.keys (attrs_of sub)) -> no_dot i = true) ->
  forall key val,
    Py.get d key = Some val
    <-> exists cname i sub,
          In cname (Py.keys (_name_to_config g))
          /\ section_object config cname = Ok sub
          /\ key = Py.join "." (section_path cname ++ [i])
          /\ getattr sub i = Ok val
          /\ Py.startswith "__" i = false
          /\ isinstance val (config_classes g) = Ok false.
Proof.
  intros Hrun Hnames key val.
  pose proof (config_to_dict_source g config d Hrun) as Hsrc.
  split; [intros Hget; apply (Hsrc key val), get_in, Hget|].
  intros (cname & i & sub & Hin & Hsub & -> & Hval & Hd & Hs).
  destruct (config_to_dict_keys g config _ _ _ Hrun) as [_ Hcover].
  pose proof (Hcover cname sub i val Hin Hsub Hval Hd Hs) as Hkey.
  apply get_some_in_keys in Hkey.
  destruct (Py.get d (Py.join "." (section_path cname ++ [i]))) as [val'|] eqn:Hget;
    [|contradiction].
  f_equal.
  destruct (Hsrc _ val' (get_in _ _ _ Hget))
    as (cname' & i' & sub' & Hin' & Hsub' & Hkey' & Hval' & _).
  assert (Hi : no_dot i = true).
  { apply (Hnames cname sub i Hin Hsub). eapply getattr_in_keys; eauto. }
  assert (Hi' : no_dot i' = true).
  { apply (Hnames cname' sub' i' Hin' Hsub'). eapply getattr_in_keys; eauto. }
  apply (f_equal Py.split_dot) in Hkey'.
  rewrite !split_dot_join in Hkey';
    try (intros E; apply app_eq_nil in E; destruct E; discriminate);
    try (apply Forall_app; split; [apply section_path_no_dot|now repeat constructor]).
  apply app_inj_tail in Hkey'. destruct Hkey' as [Hpath <-].
  apply section_path_inj in Hpath. subst cname'. congruence.
Qed.

Lemma config_to_dict_exact_witness :
  Py.get dict_app "net.http.port" = Some (data int_t "8080")
  <-> exists cname i sub,
        In cname (Py.keys (_name_to_config globals_app))
        /\ section_object config_app cname = Ok sub
        /\ "net.http.port" = Py.join "." (section_path cname ++ [i])
        /\ getattr sub i = Ok (data int_t "8080")
        /\ Py.startswith "__" i = false
        /\ isinstance (data int_t "8080") (config_classes globals_app) = Ok false.
Proof.
  apply (config_to_dict_exact globals_app config_app dict_app).
  - reflexivity.
  - intros cname sub i [<- | [<- | []]]; cbv; intros [= <-]; cbv;
      intuition (subst; reflexivity).
Defined.

(** X14: [config_to_dict] fails when the object of a registered section is
    missing: if it returns, every registered section has its object in the
    configuration.  Once [set_Config] has run this is the only way it can
    fail. *)
Theorem config_to_dict_succeeds (g : globals) (config : value) :
  (forall d, config_to_dict g config = Ok d ->
     forall cname cobj, In (cname, cobj) (_name_to_config g) ->
       exists sub, section_object config cname = Ok sub)
  /\ (forall base, _Config_cls g = Some base ->
        (forall cname cobj, In (cname, cobj) (_name_to_config g) ->
           exists sub, section_object config cname = Ok sub) ->
        exists d, config_to_dict g config = Ok d).
Proof.
  split.
  - intros d Hrun cname cobj Hin. unfold config_to_dict in Hrun.
    destruct (for_each_ok_in _ _ _ _ Hrun (cname, cobj) Hin) as (d1 & d2 & Hbody).
    cbn [fst] in Hbody. unfold section_object.
    destruct (String.eqb cname "@base"); [now exists config|].
    destruct (_recursive_getattr config (Py.split_dot cname)) as [sub|e];
      [now exists sub|discriminate].
  - intros base Hbase Hall. now apply (config_to_dict_total g base config).
Qed.

Lemma config_to_dict_succeeds_witness :
  exists d, config_to_dict globals_net config_net = Ok d.
Proof.
  apply (proj2 (config_to_dict_succeeds globals_net config_net) Config_class).
  - reflexivity.
  - intros cname cobj [[= <- <-] | []]. eexists. reflexivity.
Defined.

Lemma Ok_inj {A : Type} (a b : A) : Ok a = Ok b -> a = b.
Proof. now intros [= ->]. Qed.

(** The warnings of one section. *)
Lemma check_config_inner (cname : string) (subcfg : value)
    (l : list (string * annotation)) :
  forall printed w,
    In w (fold_left
            (fun printed a =>
               if hasattr subcfg (fst a) then printed
               else printed ++
                    ["Warning, setting " +++ cname +++ "." +++ fst a +++
                     " was declared but not defined in created config"])
            l printed)
    <-> In w printed
        \/ exists name t,
             In (name, t) l /\ hasattr subcfg name = false
             /\ w = "Warning, setting " +++ cname +++ "." +++ name +++
                    " was declared but not defined in created config".
Proof.
  induction l as [|[n t] l IH]; intros printed w; cbn [fold_left fst].
  - split; [now left|]. intros [H | (name & t & [] & _)]. exact H.
  - rewrite IH. destruct (hasattr subcfg n) eqn:Hn.
    + split.
      * intros [H | (name & t0 & Hin & Hno & Hw)]; [now left|].
        right. exists name, t0. split; [now right|]. now split.
      * intros [H | (name & t0 & [Hin | Hin] & Hno & Hw)]; [now left| |].
        -- injection Hin as <- <-. congruence.
        -- right. now exists name, t0.
    + rewrite in_app_iff. cbn [In]. split.
      * intros [[H | [H | []]] | (name & t0 & Hin & Hno & Hw)].
        -- now left.
        -- right. exists n, t. split; [now left|]. now split.
        -- right. exists name, t0. split; [now right|]. now split.
      * intros [H | (name & t0 & [Hin | Hin] & Hno & Hw)].
        -- left. now left.
        -- injection Hin as <- <-. left. right. now left.
        -- right. now exists name, t0.
Qed.

Lemma check_config_loop (config : value) (reg : Py.dict pyclass) :
  forall printed0 printed,
    for_each reg
      (fun entry printed =>
         let (cname, cobj) := entry in
         if String.eqb cname "@base" then Ok printed
         else
           subcfg <- _recursive_getattr config (Py.split_dot cname) ;;
           Ok (fold_left
                 (fun printed a =>
                    if hasattr subcfg (fst a) then printed
                    else printed ++
                         ["Warning, setting " +++ cname +++ "." +++ fst a +++
                          " was declared but not defined in created config"])
                 (annotations_items cobj) printed))
      printed0 = Ok printed ->
    forall w,
      In w printed
      <-> In w printed0
          \/ exists cname cobj sub name t,
               In (cname, cobj) reg /\ cname <> "@base"
               /\ _recursive_getattr config (Py.split_dot cname) = Ok sub
               /\ In (name, t) (annotations_items cobj)
               /\ hasattr sub name = false
               /\ w = "Warning, setting " +++ cname +++ "." +++ name +++
                      " was declared but not defined in created config".
Proof.
  induction reg as [|[q cq] reg IH]; intros printed0 printed Hrun w.
  - cbn in Hrun. injection Hrun as <-. split; [now left|].
    intros [H | (? & ? & ? & ? & ? & [] & _)]. exact H.
  - cbn [for_each] in Hrun.
    match type of Hrun with
    | bind ?r _ = _ => destruct r as [p1|e] eqn:Hq; [|discriminate]
    end.
    cbn [bind] in Hrun. rewrite (IH p1 printed Hrun w).
    destruct (String.eqb_spec q "@base") as [-> | Hqb].
    + injection Hq as <-. split.
      * intros [H | (cname & cobj & sub & name & t & Hin & Hrest)]; [now left|].
        right. exists cname, cobj, sub, name, t. split; [now right|exact Hrest].
      * intros [H | (cname & cobj & sub & name & t & [Hin | Hin] & Hne & Hrest)];
          [now left| |].
        -- injection Hin as <- _. contradiction.
        -- right. now exists cname, cobj, sub, name, t.
    + destruct (_recursive_getattr config (Py.split_dot q)) as [subq|e] eqn:Hsub;
        [|discriminate].
      cbn [bind] in Hq. apply Ok_inj in Hq. subst p1.
      rewrite check_config_inner. split.
      * intros [[H | (name & t & Hin & Hno & Hw)]
               | (cname & cobj & sub & name & t & Hin & Hrest)].
        -- now left.
        -- right. exists q, cq, subq, name, t. split; [now left|]. auto.
        -- right. exists cname, cobj, sub, name, t. split; [now right|exact Hrest].
      * intros [H | (cname & cobj & sub & name & t & [Hin | Hin] & Hne & Hs & Hrest)].
        -- left. now left.
        -- injection Hin as <- <-. rewrite Hsub in Hs. injection Hs as <-.
           left. right. exists name, t. tauto.
        -- right. exists cname, cobj, sub, name, t. tauto.
Qed.

(** X15: [check_config] only warns: it prints one line for every name a
    section other than ["@base"] declares with an annotation and that the
    object of the section does not have, and nothing else; the annotations
    of ["@base"] are not looked at.  It raises only when the object of such
    a section cannot be reached. *)
Theorem check_config_warnings (g : globals) (config : value) :
  (forall printed,
      check_config g config = Ok printed ->
      forall w,
        In w printed
        <-> exists cname cobj sub name t,
              In (cname, cobj) (_name_to_config g) /\ cname <> "@base"
              /\ _recursive_getattr config (Py.split_dot cname) = Ok sub
              /\ In (name, t) (annotations_items cobj)
              /\ hasattr sub name = false
              /\ w = "Warning, setting " +++ cname +++ "." +++ name +++
                     " was declared but not defined in created config")
  /\ ((exists printed, check_config g config = Ok printed)
      <-> forall cname cobj,
            In (cname, cobj) (_name_to_config g) -> cname <> "@base" ->
            exists sub, _recursive_getattr config (Py.split_dot cname) = Ok sub).
Proof.
  split; [|split].
  - intros printed Hrun w. unfold check_config in Hrun.
    rewrite (check_config_loop config _ _ _ Hrun w). cbn [In]. tauto.
  - intros [printed Hrun] cname cobj Hin Hne. unfold check_config in Hrun.
    destruct (for_each_ok_in _ _ _ _ Hrun (cname, cobj) Hin) as (p1 & p2 & Hbody).
    cbn beta iota in Hbody.
    destruct (String.eqb_spec cname "@base"); [contradiction|].
    destruct (_recursive_getattr config (Py.split_dot cname)) as [sub|e];
      [now exists sub|discriminate].
  - intros Hall. apply check_config_total. intros cname cobj Hin.
    unfold section_object. destruct (String.eqb_spec cname "@base");
      [now exists config|]. now apply (Hall cname cobj).
Qed.

Lemma check_config_warnings_witness :
  In ("Warning, setting net.http.timeout was declared but not defined in created config")
     ["Warning, setting net.http.timeout was declared but not defined in created config"].
Proof.
  apply (proj1 (check_config_warnings globals_app config_app)
           ["Warning, setting net.http.timeout was declared but not defined in created config"]
           eq_refl).
  exists "net.http", Http, (instantiate Http), "timeout",
    (AnnObj "typing.Optional[float]" (Some "typing")
       (Union [Class "float"; NoneType])).
  split; [simpl; tauto|]. split; [discriminate|]. split; [reflexivity|].
  split; [simpl; tauto|]. split; reflexivity.
Defined.

Lemma update_keeps_objects (g : globals) (d : Py.dict value) :
  forall c c' p sub,
    update_config g c d = Ok c' ->
    (forall k v, In (k, v) d -> ~ is_prefix (Py.split_dot k) p) ->
    descend c p = Ok sub ->
    exists sub', descend c' p = Ok sub' /\ type_of sub' = type_of sub.
Proof.
  induction d as [|[k v] d IH]; intros c c' p sub Hrun Hun Hsub.
  - cbn in Hrun. injection Hrun as <-. now exists sub.
  - unfold update_config in Hrun. cbn [for_each] in Hrun.
    destruct (_recursive_creative_setattr c (Py.split_dot k) (_Config_cls g) v)
      as [c1|e] eqn:H1; [|discriminate].
    cbn [bind] in Hrun.
    destruct (walk_keeps (fun s => type_of s = type_of sub) _ _ _
                (fun o k0 c0 H => eq_trans (type_with_attr o k0 c0) H)
                c c1 p sub H1) as (sub1 & Hsub1 & Hty1); auto.
    { apply (Hun k v). now left. }
    destruct (IH c1 c' p sub1 Hrun) as (sub' & Hsub' & Hty'); auto.
    { intros k2 v2 Hin. apply (Hun k2 v2). now right. }
    exists sub'. split; [exact Hsub'|congruence].
Qed.

(** X16: [config_from_dict] returns the object [make_config] builds, changed
    by [update_config], whenever both end well and no key of the mapping
    is the path of a section or an initial part of one; in particular an
    empty mapping gives the defaults.  Every section then still has an
    object of its class. *)
Theorem config_from_dict_ok (g : globals) (config_dict : Py.dict value)
    (c0 c : value) :
  NoDup (Py.keys (_name_to_config g)) ->
  make_config g = Ok c0 ->
  update_config g c0 config_dict = Ok c ->
  (forall cname cobj k v,
      In (cname, cobj) (_name_to_config g) -> cname <> "@base" ->
      In (k, v) config_dict ->
      ~ is_prefix (Py.split_dot k) (Py.split_dot cname)) ->
  config_from_dict g config_dict = Ok c
  /\ (forall cname cobj,
        In (cname, cobj) (_name_to_config g) -> cname <> "@base" ->
        exists sub, _recursive_getattr c (Py.split_dot cname) = Ok sub
                    /\ type_of sub = cls_type cobj).
Proof.
  intros Hnd Hmake Hupd Hkeys.
  assert (Hobjs : forall cname cobj,
             In (cname, cobj) (_name_to_config g) -> cname <> "@base" ->
             exists sub, _recursive_getattr c (Py.split_dot cname) = Ok sub
                         /\ type_of sub = cls_type cobj).
  { intros cname cobj Hin Hne.
    pose proof Hmake as Hloop. unfold make_config in Hloop.
    destruct (match Py.get (_name_to_config g) "@base" with
              | Some cb => Some cb
              | None => _Config_cls g
              end) as [root|]; [|discriminate].
    cbn [call bind] in Hloop.
    destruct (proj2 (proj2 (make_config_loop g root c0 Hnd Hloop)) cname cobj Hin Hne)
      as [(sub0 & Hsub0 & Hty0) _].
    destruct (update_keeps_objects g config_dict c0 c (Py.split_dot cname) sub0 Hupd)
      as (sub & Hsub & Hty).
    - intros k v Hkv. now apply (Hkeys cname cobj k v).
    - exact Hsub0.
    - exists sub. rewrite descend_getattr by apply split_dot_nonempty.
      split; [exact Hsub|congruence]. }
  split; [|exact Hobjs].
  unfold config_from_dict. rewrite Hmake. cbn [bind]. rewrite Hupd. cbn [bind].
  destruct (check_config_total g c) as (printed & ->); [|reflexivity].
  intros cname cobj Hin. unfold section_object.
  destruct (String.eqb_spec cname "@base"); [now exists c|].
  destruct (Hobjs cname cobj Hin) as (sub & Hsub & _); [assumption|].
  now exists sub.
Qed.

Lemma config_from_dict_ok_witness :
  exists c,
    update_config globals_app config_app
      [("net.http.port", data int_t "9090"); ("debug", data bool_t "True")] = Ok c
    /\ config_from_dict globals_app
         [("net.http.port", data int_t "9090"); ("debug", data bool_t "True")]
       = Ok c
    /\ _recursive_getattr c ["net"; "http"; "port"] = Ok (data int_t "9090")
    /\ exists sub, _recursive_getattr c (Py.split_dot "net.http") = Ok sub
                    /\ type_of sub = cls_type Http.
Proof.
  eexists. split; [reflexivity|].
  match goal with
  | |- config_from_dict _ ?d = Ok ?c /\ _ =>
      destruct (config_from_dict_ok globals_app d config_app c) as [Hok Hobjs]
  end.
  - repeat constructor; simpl; intuition discriminate.
  - reflexivity.
  - reflexivity.
  - intros cname cobj k v [[= <- <-] | [[= <- <-] | []]] Hne
      [[= <- <-] | [[= <- <-] | []]] [rest E];
      try (now apply Hne); cbv in E; discriminate.
  - split; [exact Hok|]. split; [reflexivity|].
    apply (Hobjs "net.http" Http); [simpl; tauto|discriminate].
Defined.

(* ================================================================== *)
(** * Further properties: edge cases *)
(* ================================================================== *)




Lemma isinstance_last_none (o : value) (classes : list pyclass) :
  isinstance o (map Some classes ++ [None]) <> Ok false.
Proof.
  induction classes as [|c classes IH]; cbn; [discriminate|].
  destruct (is_instance o (cls_type c)); [discriminate|exact IH].
Qed.

(** X18: before [set_Config] has run, [make_config] and [config_from_dict]
    raise [TypeError] unless a ["@base"] section is registered, and
    [config_to_dict] cannot return a single entry: if it returns at all,
    the mapping is empty. *)
Theorem before_set_Config (g : globals) :
  _Config_cls g = None ->
  (Py.get (_name_to_config g) "@base" = None ->
   make_config g = Raise TypeError
   /\ forall config_dict, config_from_dict g config_dict = Raise TypeError)
  /\ (forall config d, config_to_dict g config = Ok d -> d = []).
Proof.
  intros Hnone. split.
  - intros Hbase.
    assert (Hmake : make_config g = Raise TypeError).
    { unfold make_config. now rewrite Hbase, Hnone. }
    split; [exact Hmake|]. intros config_dict. unfold config_from_dict.
    now rewrite Hmake.
  - intros config d Hrun. pose proof (config_to_dict_source g config d Hrun) as Hsrc.
    destruct d as [|[key val] d]; [reflexivity|]. exfalso.
    destruct (Hsrc key val (or_introl eq_refl))
      as (cname & i & sub & _ & _ & _ & _ & _ & Hskip).
    unfold config_classes in Hskip. rewrite Hnone in Hskip.
    rewrite <- (map_map snd Some) in Hskip.
    exact (isinstance_last_none val _ Hskip).
Qed.

Lemma before_set_Config_witness :
  make_config {| _name_to_config := [("net", Net)]; _Config_cls := None |}
  = Raise TypeError.
Proof.
  apply (proj1 (before_set_Config
                  {| _name_to_config := [("net", Net)]; _Config_cls := None |}
                  eq_refl)).
  reflexivity.
Defined.
